(** * The libuv Unix event-loop core (src/unix/core.c, src/unix/linux-core.c)

    A shallow embedding of the loop state, the io-watcher table, the poll
    dispatch, the closing phase and the loop driver, followed by the
    properties established about them. *)

From stdpp Require Import base numbers list option.

Local Open Scope Z_scope.

(** ** Machine integers *)

(** [unsigned int] is 32 bits wide on every platform libuv supports. *)
Definition wrap32 (z : Z) : Z := z mod 2 ^ 32.

(** Bitwise complement of an [unsigned int]. *)
Definition not32 (z : Z) : Z := wrap32 (Z.lnot z).

Definition INT_MAX : Z := 2 ^ 31 - 1.

(** Pointers are addresses; the null pointer is address 0. *)
Definition NULL : Z := 0.

(** ** Event bits (<poll.h> on Linux; UV__POLLRDHUP is 0x2000 there) *)

Definition POLLIN : Z := 1.
Definition POLLPRI : Z := 2.
Definition POLLOUT : Z := 4.
Definition POLLERR : Z := 8.
Definition POLLHUP : Z := 16.
Definition UV__POLLRDHUP : Z := 8192.

(** The mask [POLLIN | POLLOUT | UV__POLLRDHUP | UV__POLLPRI] that
    uv__io_start, uv__io_stop and the dispatch loop all use. *)
Definition IO_MASK : Z :=
  Z.lor (Z.lor (Z.lor POLLIN POLLOUT) UV__POLLRDHUP) POLLPRI.

(** ** Assertions and checked memory accesses

    Layer-one operations return [None] when the C code calls abort(),
    fails an assert(), or touches memory outside the block it owns. *)

Definition assert (b : bool) : option unit := if b then Some () else None.

Definition load (tbl : list Z) (i : Z) : option Z :=
  if 0 <=? i then tbl !! Z.to_nat i else None.

Definition store (tbl : list Z) (i : Z) (v : Z) : option (list Z) :=
  if (0 <=? i) && (i <? Z.of_nat (length tbl))
  then Some (<[Z.to_nat i := v]> tbl) else None.

(** ** Intrusive queues

    A queue is the list of the addresses of the objects linked on it, head
    first.  A node that is on no queue is self-linked, which is what
    QUEUE_EMPTY tests when applied to a node. *)

Definition QUEUE_INSERT_TAIL (q : list Z) (x : Z) : list Z := q ++ [x].

Definition QUEUE_REMOVE (x : Z) (q : list Z) : list Z :=
  filter (λ y, y ≠ x) q.

Definition on_queue (x : Z) (q : list Z) : bool := bool_decide (x ∈ q).

(** ** Data model *)

(** struct uv__io_s.  The callback is a code address. *)
Record uv__io_t := Build_io {
  cb : Z;
  fd : Z;
  events : Z;
  pevents : Z
}.

Definition set_events (w : uv__io_t) (e : Z) : uv__io_t :=
  Build_io (cb w) (fd w) e (pevents w).

Definition set_pevents (w : uv__io_t) (p : Z) : uv__io_t :=
  Build_io (cb w) (fd w) (events w) p.

(** uv_handle_type, the closed set of kinds uv_close dispatches on;
    [UV_UNKNOWN_HANDLE] stands for every tag outside it. *)
Inductive uv_handle_type :=
  | UV_NAMED_PIPE | UV_TTY | UV_TCP | UV_UDP | UV_PREPARE | UV_CHECK
  | UV_IDLE | UV_ASYNC | UV_TIMER | UV_PROCESS | UV_FS_EVENT | UV_POLL
  | UV_FS_POLL | UV_SIGNAL | UV_UNKNOWN_HANDLE.

(** The part of uv_handle_t the core reads and writes. *)
Record uv_handle_t := Build_handle {
  type : uv_handle_type;
  flags : Z;
  close_cb : Z;
  next_closing : Z
}.

Definition set_flags (h : uv_handle_t) (f : Z) : uv_handle_t :=
  Build_handle (type h) f (close_cb h) (next_closing h).

Definition set_close_cb (h : uv_handle_t) (c : Z) : uv_handle_t :=
  Build_handle (type h) (flags h) c (next_closing h).

Definition set_next_closing (h : uv_handle_t) (n : Z) : uv_handle_t :=
  Build_handle (type h) (flags h) (close_cb h) n.

(** struct epoll_event: the ready mask and the fd stored in [data.fd]. *)
Record epoll_event := Build_event {
  ev_events : Z;
  ev_fd : Z
}.

(** uv_loop_t.  [io] and [handles] are the memory holding the watcher and
    handle objects, indexed by address.  [watchers] is the fd table: [None]
    while the pointer is null, otherwise the [nwatchers + 2] slots of the
    block.  [poll_events] is the [events] array on the stack of the running
    uv__io_poll, [run_pq] the local queue [pq] of the running
    uv__run_pending; both are reachable from callbacks through the loop. *)
Record uv_loop_t := Build_loop {
  time : Z;
  stop_flag : Z;
  loop_flags : Z;
  backend_fd : Z;
  active_handles : Z;
  active_reqs : Z;
  handle_queue : list Z;
  idle_handles : list Z;
  pending_queue : list Z;
  watcher_queue : list Z;
  closing_handles : Z;
  timer_heap : list (Z * Z);
  watchers : option (list Z);
  nwatchers : Z;
  nfds : Z;
  io : Z → uv__io_t;
  handles : Z → uv_handle_t;
  poll_events : list epoll_event;
  run_pq : list Z
}.

Definition set_time (l : uv_loop_t) (x : Z) : uv_loop_t :=
  Build_loop x (stop_flag l) (loop_flags l) (backend_fd l)
    (active_handles l) (active_reqs l) (handle_queue l) (idle_handles l)
    (pending_queue l) (watcher_queue l) (closing_handles l) (timer_heap l)
    (watchers l) (nwatchers l) (nfds l) (io l)
    (handles l) (poll_events l) (run_pq l).

Definition set_stop_flag (l : uv_loop_t) (x : Z) : uv_loop_t :=
  Build_loop (time l) x (loop_flags l) (backend_fd l)
    (active_handles l) (active_reqs l) (handle_queue l) (idle_handles l)
    (pending_queue l) (watcher_queue l) (closing_handles l) (timer_heap l)
    (watchers l) (nwatchers l) (nfds l) (io l)
    (handles l) (poll_events l) (run_pq l).

Definition set_active_handles (l : uv_loop_t) (x : Z) : uv_loop_t :=
  Build_loop (time l) (stop_flag l) (loop_flags l) (backend_fd l)
    x (active_reqs l) (handle_queue l) (idle_handles l)
    (pending_queue l) (watcher_queue l) (closing_handles l) (timer_heap l)
    (watchers l) (nwatchers l) (nfds l) (io l)
    (handles l) (poll_events l) (run_pq l).

Definition set_handle_queue (l : uv_loop_t) (x : list Z) : uv_loop_t :=
  Build_loop (time l) (stop_flag l) (loop_flags l) (backend_fd l)
    (active_handles l) (active_reqs l) x (idle_handles l)
    (pending_queue l) (watcher_queue l) (closing_handles l) (timer_heap l)
    (watchers l) (nwatchers l) (nfds l) (io l)
    (handles l) (poll_events l) (run_pq l).

Definition set_pending_queue (l : uv_loop_t) (x : list Z) : uv_loop_t :=
  Build_loop (time l) (stop_flag l) (loop_flags l) (backend_fd l)
    (active_handles l) (active_reqs l) (handle_queue l) (idle_handles l)
    x (watcher_queue l) (closing_handles l) (timer_heap l)
    (watchers l) (nwatchers l) (nfds l) (io l)
    (handles l) (poll_events l) (run_pq l).

Definition set_watcher_queue (l : uv_loop_t) (x : list Z) : uv_loop_t :=
  Build_loop (time l) (stop_flag l) (loop_flags l) (backend_fd l)
    (active_handles l) (active_reqs l) (handle_queue l) (idle_handles l)
    (pending_queue l) x (closing_handles l) (timer_heap l)
    (watchers l) (nwatchers l) (nfds l) (io l)
    (handles l) (poll_events l) (run_pq l).

Definition set_closing_handles (l : uv_loop_t) (x : Z) : uv_loop_t :=
  Build_loop (time l) (stop_flag l) (loop_flags l) (backend_fd l)
    (active_handles l) (active_reqs l) (handle_queue l) (idle_handles l)
    (pending_queue l) (watcher_queue l) x (timer_heap l)
    (watchers l) (nwatchers l) (nfds l) (io l)
    (handles l) (poll_events l) (run_pq l).

Definition set_watchers (l : uv_loop_t) (x : option (list Z)) : uv_loop_t :=
  Build_loop (time l) (stop_flag l) (loop_flags l) (backend_fd l)
    (active_handles l) (active_reqs l) (handle_queue l) (idle_handles l)
    (pending_queue l) (watcher_queue l) (closing_handles l) (timer_heap l)
    x (nwatchers l) (nfds l) (io l)
    (handles l) (poll_events l) (run_pq l).

Definition set_nwatchers (l : uv_loop_t) (x : Z) : uv_loop_t :=
  Build_loop (time l) (stop_flag l) (loop_flags l) (backend_fd l)
    (active_handles l) (active_reqs l) (handle_queue l) (idle_handles l)
    (pending_queue l) (watcher_queue l) (closing_handles l) (timer_heap l)
    (watchers l) x (nfds l) (io l)
    (handles l) (poll_events l) (run_pq l).

Definition set_nfds (l : uv_loop_t) (x : Z) : uv_loop_t :=
  Build_loop (time l) (stop_flag l) (loop_flags l) (backend_fd l)
    (active_handles l) (active_reqs l) (handle_queue l) (idle_handles l)
    (pending_queue l) (watcher_queue l) (closing_handles l) (timer_heap l)
    (watchers l) (nwatchers l) x (io l)
    (handles l) (poll_events l) (run_pq l).

Definition set_io (l : uv_loop_t) (x : Z → uv__io_t) : uv_loop_t :=
  Build_loop (time l) (stop_flag l) (loop_flags l) (backend_fd l)
    (active_handles l) (active_reqs l) (handle_queue l) (idle_handles l)
    (pending_queue l) (watcher_queue l) (closing_handles l) (timer_heap l)
    (watchers l) (nwatchers l) (nfds l) x
    (handles l) (poll_events l) (run_pq l).

Definition set_handles (l : uv_loop_t) (x : Z → uv_handle_t) : uv_loop_t :=
  Build_loop (time l) (stop_flag l) (loop_flags l) (backend_fd l)
    (active_handles l) (active_reqs l) (handle_queue l) (idle_handles l)
    (pending_queue l) (watcher_queue l) (closing_handles l) (timer_heap l)
    (watchers l) (nwatchers l) (nfds l) (io l)
    x (poll_events l) (run_pq l).

Definition set_poll_events (l : uv_loop_t) (x : list epoll_event) : uv_loop_t :=
  Build_loop (time l) (stop_flag l) (loop_flags l) (backend_fd l)
    (active_handles l) (active_reqs l) (handle_queue l) (idle_handles l)
    (pending_queue l) (watcher_queue l) (closing_handles l) (timer_heap l)
    (watchers l) (nwatchers l) (nfds l) (io l)
    (handles l) x (run_pq l).

Definition set_run_pq (l : uv_loop_t) (x : list Z) : uv_loop_t :=
  Build_loop (time l) (stop_flag l) (loop_flags l) (backend_fd l)
    (active_handles l) (active_reqs l) (handle_queue l) (idle_handles l)
    (pending_queue l) (watcher_queue l) (closing_handles l) (timer_heap l)
    (watchers l) (nwatchers l) (nfds l) (io l)
    (handles l) (poll_events l) x.

(** Writing one object of a memory. *)
Definition upd {A} (m : Z → A) (a : Z) (x : A) : Z → A :=
  λ b, if b =? a then x else m b.

Definition write_io (l : uv_loop_t) (w : Z) (x : uv__io_t) : uv_loop_t :=
  set_io l (upd (io l) w x).

Definition write_handle (l : uv_loop_t) (h : Z) (x : uv_handle_t) : uv_loop_t :=
  set_handles l (upd (handles l) h x).

(** ** The io-watcher table (core.c) *)

(** next_power_of_two, on [unsigned int]. *)
Definition next_power_of_two (val : Z) : Z :=
  let val := wrap32 (val - 1) in
  let val := Z.lor val (Z.shiftr val 1) in
  let val := Z.lor val (Z.shiftr val 2) in
  let val := Z.lor val (Z.shiftr val 4) in
  let val := Z.lor val (Z.shiftr val 8) in
  let val := Z.lor val (Z.shiftr val 16) in
  wrap32 (val + 1).

(** Content of memory that realloc hands out without initialising it. *)
Definition POISON : Z := -1.

(** uv__realloc on the watcher table, for a block of [nslots] pointers.
    The old slots are kept as far as the new block reaches.  A request for
    zero bytes yields the null pointer; running out of memory is not
    modelled, so every other request succeeds. *)
Definition uv__realloc (old : option (list Z)) (nslots : Z) : option (list Z) :=
  if nslots =? 0 then None
  else Some (resize (Z.to_nat nslots) POISON (default [] old)).

(** for (i = from; i < from + n; i++) watchers[i] = NULL; *)
Fixpoint clear_slots (tbl : list Z) (i : Z) (n : nat) : option (list Z) :=
  match n with
  | O => Some tbl
  | S n' => tbl' ← store tbl i NULL; clear_slots tbl' (i + 1) n'
  end.

(** maybe_resize. *)
Definition maybe_resize (loop : uv_loop_t) (len : Z) : option uv_loop_t :=
  if len <=? nwatchers loop then Some loop
  else
    '(fake_watcher_list, fake_watcher_count) ←
      match watchers loop with
      | Some tbl =>
          a ← load tbl (nwatchers loop);
          b ← load tbl (wrap32 (nwatchers loop + 1));
          Some (a, b)
      | None => Some (NULL, NULL)
      end;
    let nw := wrap32 (next_power_of_two (wrap32 (len + 2)) - 2) in
    tbl ← uv__realloc (watchers loop) (wrap32 (nw + 2));
    tbl ← clear_slots tbl (nwatchers loop) (Z.to_nat (nw - nwatchers loop));
    tbl ← store tbl nw fake_watcher_list;
    tbl ← store tbl (wrap32 (nw + 1)) fake_watcher_count;
    Some (set_nwatchers (set_watchers loop (Some tbl)) nw).

(** uv__io_start. *)
Definition uv__io_start (loop : uv_loop_t) (w : Z) (evs : Z)
  : option uv_loop_t :=
  assert (Z.land evs (not32 IO_MASK) =? 0);;
  assert (negb (evs =? 0));;
  assert (0 <=? fd (io loop w));;
  assert (fd (io loop w) <? INT_MAX);;
  let loop :=
    write_io loop w
      (set_pevents (io loop w) (Z.lor (pevents (io loop w)) evs)) in
  loop ← maybe_resize loop (wrap32 (fd (io loop w) + 1));
  if events (io loop w) =? pevents (io loop w) then Some loop
  else
    let loop :=
      if on_queue w (watcher_queue loop) then loop
      else set_watcher_queue loop (QUEUE_INSERT_TAIL (watcher_queue loop) w) in
    tbl ← watchers loop;
    slot ← load tbl (fd (io loop w));
    if slot =? NULL then
      tbl ← store tbl (fd (io loop w)) w;
      Some (set_nfds (set_watchers loop (Some tbl)) (wrap32 (nfds loop + 1)))
    else Some loop.

(** uv__io_stop. *)
Definition uv__io_stop (loop : uv_loop_t) (w : Z) (evs : Z)
  : option uv_loop_t :=
  assert (Z.land evs (not32 IO_MASK) =? 0);;
  assert (negb (evs =? 0));;
  if fd (io loop w) =? -1 then Some loop
  else
    assert (0 <=? fd (io loop w));;
    if nwatchers loop <=? wrap32 (fd (io loop w)) then Some loop
    else
      let loop :=
        write_io loop w
          (set_pevents (io loop w)
             (Z.land (pevents (io loop w)) (not32 evs))) in
      if pevents (io loop w) =? 0 then
        let loop :=
          set_watcher_queue loop (QUEUE_REMOVE w (watcher_queue loop)) in
        tbl ← watchers loop;
        slot ← load tbl (fd (io loop w));
        if negb (slot =? NULL) then
          assert (slot =? w);;
          assert (0 <? nfds loop);;
          tbl ← store tbl (fd (io loop w)) NULL;
          let loop := set_nfds (set_watchers loop (Some tbl)) (nfds loop - 1) in
          Some (write_io loop w (set_events (io loop w) 0))
        else Some loop
      else if on_queue w (watcher_queue loop) then Some loop
      else
        Some (set_watcher_queue loop
                (QUEUE_INSERT_TAIL (watcher_queue loop) w)).

(** uv__io_feed. *)
Definition uv__io_feed (loop : uv_loop_t) (w : Z) : uv_loop_t :=
  if on_queue w (pending_queue loop) || on_queue w (run_pq loop) then loop
  else set_pending_queue loop (QUEUE_INSERT_TAIL (pending_queue loop) w).

(** An empty loop, as uv_loop_init leaves the fields modelled here. *)
Definition loop0 : uv_loop_t :=
  Build_loop 0 0 0 3 0 0 [] [] [] [] NULL [] None 0 0
    (λ _, Build_io 0 (-1) 0 0)
    (λ _, Build_handle UV_UNKNOWN_HANDLE 0 0 NULL) [] [].

(** QUEUE_EMPTY applied to a queue head. *)
Definition QUEUE_EMPTY (q : list Z) : bool :=
  match q with [] => true | _ :: _ => false end.

(** ** Backend timeout (core.c) *)

(** Modelled from the spec: the macros uv__has_active_handles and
    uv__has_active_reqs (uv-common.h) are not among the sources; the loop
    keeps "counts of active handles and active requests". *)
Definition uv__has_active_handles (loop : uv_loop_t) : bool :=
  0 <? active_handles loop.

Definition uv__has_active_reqs (loop : uv_loop_t) : bool :=
  0 <? active_reqs loop.

(** Modelled from the spec: the timer heap (heap-inl.h, timer.c) is not
    among the sources; it is a "min-ordered store of timers by (deadline,
    sequence)" that "yields next expiry".  A timer is the pair of its
    deadline and its sequence number. *)
Definition timer_le (a b : Z * Z) : bool :=
  (a.1 <? b.1) || ((a.1 =? b.1) && (a.2 <=? b.2)).

Fixpoint heap_min (h : list (Z * Z)) : option (Z * Z) :=
  match h with
  | [] => None
  | t :: h' =>
      match heap_min h' with
      | None => Some t
      | Some m => Some (if timer_le t m then t else m)
      end
  end.

(** Modelled from the spec: uv__next_timeout (timer.c) is not among the
    sources; it is "the time until the earliest timer, clamped to a
    non-negative milliseconds value, or infinite if no timers", infinite
    being the poll timeout -1. *)
Definition uv__next_timeout (loop : uv_loop_t) : Z :=
  match heap_min (timer_heap loop) with
  | None => -1
  | Some t => Z.max 0 (t.1 - time loop)
  end.

(** uv_backend_timeout. *)
Definition uv_backend_timeout (loop : uv_loop_t) : Z :=
  if negb (stop_flag loop =? 0) then 0
  else if negb (uv__has_active_handles loop)
          && negb (uv__has_active_reqs loop) then 0
  else if negb (QUEUE_EMPTY (idle_handles loop)) then 0
  else if negb (QUEUE_EMPTY (pending_queue loop)) then 0
  else if negb (closing_handles loop =? NULL) then 0
  else uv__next_timeout loop.

(** uv__loop_alive. *)
Definition uv__loop_alive (loop : uv_loop_t) : bool :=
  uv__has_active_handles loop || uv__has_active_reqs loop
  || negb (closing_handles loop =? NULL).

(** ** Handle flags

    Modelled from the spec: the flag bits and uv__is_closing live in
    uv-common.h, which is not among the sources; every handle carries "flag
    bits (including CLOSING, CLOSED, REF, ACTIVE)", and a handle counts as
    closing once either of the first two is set. *)
Definition UV_HANDLE_CLOSING : Z := 1.
Definition UV_HANDLE_CLOSED : Z := 2.

Definition has_flag (h : uv_handle_t) (bit : Z) : bool :=
  negb (Z.land (flags h) bit =? 0).

Definition uv__is_closing (h : uv_handle_t) : bool :=
  has_flag h (Z.lor UV_HANDLE_CLOSING UV_HANDLE_CLOSED).

(** uv__make_close_pending. *)
Definition uv__make_close_pending (loop : uv_loop_t) (h : Z)
  : option uv_loop_t :=
  assert (has_flag (handles loop h) UV_HANDLE_CLOSING);;
  assert (negb (has_flag (handles loop h) UV_HANDLE_CLOSED));;
  let loop :=
    write_handle loop h
      (set_next_closing (handles loop h) (closing_handles loop)) in
  Some (set_closing_handles loop h).

(** ** The environment of the core

    What the two files call but do not define: the kernel behind the epoll
    system calls and the clock, and the functions of the other translation
    units.  [K] is the state of the kernel.  A function of another unit is
    any partial transformer of kernel and loop ([None]: it aborted). *)
Record externals := {
  K : Type;
  (** sizeof(int32_t) == sizeof(long) *)
  long_is_int32 : bool;
  (** address of the array [events] on the stack of uv__io_poll *)
  events_addr : Z;
  (** address of the embedded watcher [&loop->signal_io_watcher] *)
  signal_io_watcher : Z;
  (** epoll_ctl(epfd, op, fd, events): the errno of a failure, else 0 *)
  epoll_ctl : K → Z → Z → Z → Z → K * Z;
  (** epoll_pwait(epfd, events, maxevents, timeout, sigmask): the return
      value, the array it filled, and errno *)
  epoll_pwait : K → Z → Z → Z → bool → K * (Z * list epoll_event * Z);
  (** uv__hrtime(UV_CLOCK_FAST), in nanoseconds *)
  uv__hrtime : K → K * Z;
  (** uv__pipe_close, uv__stream_close, uv__tcp_close, ..., by handle kind *)
  uv__close_hook :
    uv_handle_type → Z → K * uv_loop_t → option (K * uv_loop_t);
  uv__stream_destroy : Z → K * uv_loop_t → option (K * uv_loop_t);
  uv__udp_finish_close : Z → K * uv_loop_t → option (K * uv_loop_t);
  (** the macro uv__handle_unref of uv-common.h *)
  uv__handle_unref : Z → uv_loop_t → uv_loop_t;
  uv__run_timers : K * uv_loop_t → option (K * uv_loop_t);
  uv__run_idle : K * uv_loop_t → option (K * uv_loop_t);
  uv__run_prepare : K * uv_loop_t → option (K * uv_loop_t);
  uv__run_check : K * uv_loop_t → option (K * uv_loop_t)
}.

(** The user's callbacks, by code address: [io_cb c w ev] is the call
    [c(loop, w, ev)] of an io-watcher callback, [close_cb_code c h] the
    call [c(h)] of a close callback. *)
Record program (X : externals) := {
  io_cb : Z → Z → Z → K X * uv_loop_t → option (K X * uv_loop_t);
  close_cb_code : Z → Z → K X * uv_loop_t → option (K X * uv_loop_t)
}.

Arguments io_cb {X} _ _ _ _ _.
Arguments close_cb_code {X} _ _ _ _.

(** uv_close. *)
Definition uv_close (X : externals) (s : K X * uv_loop_t) (h : Z) (c : Z)
  : option (K X * uv_loop_t) :=
  let loop := s.2 in
  assert (negb (uv__is_closing (handles loop h)));;
  let loop :=
    write_handle loop h
      (set_flags (handles loop h)
         (Z.lor (flags (handles loop h)) UV_HANDLE_CLOSING)) in
  let loop := write_handle loop h (set_close_cb (handles loop h) c) in
  match type (handles loop h) with
  | UV_UNKNOWN_HANDLE => None
  | UV_SIGNAL => uv__close_hook X UV_SIGNAL h (s.1, loop)
  | t =>
      s' ← uv__close_hook X t h (s.1, loop);
      loop' ← uv__make_close_pending s'.2 h;
      Some (s'.1, loop')
  end.

(** ** Outcomes of the phases

    A phase returns ([Done]), brings the process down through abort() or a
    failed assert() ([Aborted]), or is still running when the step budget
    of the model is used up ([OutOfFuel]). *)
Inductive outcome (A : Type) : Type :=
  | Done (a : A)
  | Aborted
  | OutOfFuel.

Arguments Done {A} a.
Arguments Aborted {A}.
Arguments OutOfFuel {A}.

#[global] Instance outcome_ret : MRet outcome := λ A a, Done a.

#[global] Instance outcome_bind : MBind outcome := λ A B f m,
  match m with
  | Done a => f a
  | Aborted => Aborted
  | OutOfFuel => OutOfFuel
  end.

Definition check (b : bool) : outcome unit :=
  if b then Done () else Aborted.

Definition of_option {A} (o : option A) : outcome A :=
  match o with Some a => Done a | None => Aborted end.

(** What the phases do that is visible from outside, in order: the start
    of an iteration of uv_run, a call of epoll_pwait with its timeout, the
    call of an io-watcher callback [c(loop, w, ev)], the call of a close
    callback [c(h)]. *)
Inductive call :=
  | Iteration
  | Wait (timeout : Z)
  | CallIo (c w ev : Z)
  | CallClose (c h : Z).

Inductive uv_run_mode := UV_RUN_DEFAULT | UV_RUN_ONCE | UV_RUN_NOWAIT.

Definition EPOLL_CTL_ADD : Z := 1.
Definition EPOLL_CTL_DEL : Z := 2.
Definition EPOLL_CTL_MOD : Z := 3.
Definition EINTR : Z := 4.
Definition EEXIST : Z := 17.
Definition max_safe_timeout : Z := 1789569.
Definition UV_LOOP_BLOCK_SIGPROF : Z := 1.

(** ARRAY_SIZE(events) in uv__io_poll. *)
Definition EVENTS_SIZE : Z := 1024.

(** Conversion of an integer to [int]. *)
Definition int32_of (z : Z) : Z := (z + 2 ^ 31) mod 2 ^ 32 - 2 ^ 31.

(** The mask a ready event is delivered with:
      pe->events &= w->pevents | POLLERR | POLLHUP;
      if (pe->events == POLLERR || pe->events == POLLHUP)
        pe->events |= w->pevents & (POLLIN | POLLOUT | UV__POLLRDHUP | UV__POLLPRI); *)
Definition ready_mask (returned : Z) (pev : Z) : Z :=
  let e := Z.land returned (Z.lor (Z.lor pev POLLERR) POLLHUP) in
  if (e =? POLLERR) || (e =? POLLHUP)
  then Z.lor e (Z.land pev IO_MASK)
  else e.

Section Phases.

Context {X : externals} (P : program X).

(** The running process: kernel, loop, and the calls made so far. *)
Record state := {
  os : K X;
  lp : uv_loop_t;
  tr : list call
}.

Definition with_lp (st : state) (l : uv_loop_t) : state :=
  {| os := os st; lp := l; tr := tr st |}.

Definition with_sys (st : state) (s : K X * uv_loop_t) : state :=
  {| os := s.1; lp := s.2; tr := tr st |}.

Definition log (st : state) (c : call) : state :=
  {| os := os st; lp := lp st; tr := tr st ++ [c] |}.

(** A function of another unit, run on the current kernel and loop. *)
Definition extern (f : K X * uv_loop_t → option (K X * uv_loop_t))
    (st : state) : outcome state :=
  s ← of_option (f (os st, lp st)); Done (with_sys st s).

(** w->cb(loop, w, ev) *)
Definition call_io (st : state) (w : Z) (ev : Z) : outcome state :=
  let c := cb (io (lp st) w) in
  extern (io_cb P c w ev) (log st (CallIo c w ev)).

(** Modelled from the spec: uv__update_time (internal.h) is not among the
    sources; it sets [time], "monotonic milliseconds", from the clock:
    loop->time = uv__hrtime(UV_CLOCK_FAST) / 1000000. *)
Definition uv__update_time (st : state) : state :=
  let '(k, ns) := uv__hrtime X (os st) in
  {| os := k; lp := set_time (lp st) (ns / 1000000); tr := tr st |}.

(** *** uv__run_pending *)

Fixpoint run_pending_loop (fuel : nat) (st : state) : outcome state :=
  match run_pq (lp st) with
  | [] => Done st
  | w :: _ =>
      match fuel with
      | O => OutOfFuel
      | S fuel' =>
          let st := with_lp st (set_run_pq (lp st) (QUEUE_REMOVE w (run_pq (lp st)))) in
          st ← call_io st w POLLOUT;
          run_pending_loop fuel' st
      end
  end.

Definition uv__run_pending (fuel : nat) (st : state) : outcome (state * bool) :=
  if QUEUE_EMPTY (pending_queue (lp st)) then Done (st, false)
  else
    let l := set_run_pq (lp st) (pending_queue (lp st)) in
    let l := set_pending_queue l [] in
    st ← run_pending_loop fuel (with_lp st l);
    Done (st, true).

(** *** uv__io_poll (linux-core.c) *)

(** One round of the loop that flushes watcher_queue into the backend. *)
Definition flush_watcher (st : state) (w : Z) : outcome state :=
  let loop := set_watcher_queue (lp st) (QUEUE_REMOVE w (watcher_queue (lp st))) in
  let wr := io loop w in
  check (negb (pevents wr =? 0));;
  check (0 <=? fd wr);;
  check (fd wr <? int32_of (nwatchers loop));;
  let op := if events wr =? 0 then EPOLL_CTL_ADD else EPOLL_CTL_MOD in
  let '(k, err) := epoll_ctl X (os st) (backend_fd loop) op (fd wr) (pevents wr) in
  k ← (if err =? 0 then Done k
       else
         check (err =? EEXIST);;
         check (op =? EPOLL_CTL_ADD);;
         let '(k, err) :=
           epoll_ctl X k (backend_fd loop) EPOLL_CTL_MOD (fd wr) (pevents wr) in
         check (err =? 0);;
         Done k);
  Done {| os := k;
          lp := write_io loop w (set_events wr (pevents wr));
          tr := tr st |}.

Fixpoint flush_watcher_queue (n : nat) (st : state) : outcome state :=
  match watcher_queue (lp st) with
  | [] => Done st
  | w :: _ =>
      match n with
      | O => OutOfFuel
      | S n' => st ← flush_watcher st w; flush_watcher_queue n' st
      end
  end.

(** The body of [for (i = 0; i < nfds; i++)], with the locals
    have_signals and nevents. *)
Definition dispatch_event (st : state) (i : Z) (have_signals : bool)
    (nevents : Z) : outcome (state * bool * Z) :=
  pe ← of_option (poll_events (lp st) !! Z.to_nat i);
  let f := ev_fd pe in
  if f =? -1 then Done (st, have_signals, nevents)
  else
    check (0 <=? f);;
    check (wrap32 f <? nwatchers (lp st));;
    tbl ← of_option (watchers (lp st));
    w ← of_option (load tbl f);
    if w =? NULL then
      let '(k, _) :=
        epoll_ctl X (os st) (backend_fd (lp st)) EPOLL_CTL_DEL f (ev_events pe) in
      Done ({| os := k; lp := lp st; tr := tr st |}, have_signals, nevents)
    else
      let e := ready_mask (ev_events pe) (pevents (io (lp st) w)) in
      let st :=
        with_lp st
          (set_poll_events (lp st)
             (<[Z.to_nat i := Build_event e f]> (poll_events (lp st)))) in
      if e =? 0 then Done (st, have_signals, nevents)
      else if w =? signal_io_watcher X then Done (st, true, nevents + 1)
      else
        st ← call_io st w e;
        Done (st, have_signals, nevents + 1).

Fixpoint dispatch (n : nat) (i : Z) (st : state) (have_signals : bool)
    (nevents : Z) : outcome (state * bool * Z) :=
  match n with
  | O => Done (st, have_signals, nevents)
  | S n' =>
      d ← dispatch_event st i have_signals nevents;
      let '(st, have_signals, nevents) := (d : state * bool * Z) in
      dispatch n' (i + 1) st have_signals nevents
  end.

(** loop->watchers[loop->nwatchers] = a; loop->watchers[loop->nwatchers + 1] = b; *)
Definition publish (st : state) (a b : Z) : outcome state :=
  tbl ← of_option (watchers (lp st));
  tbl ← of_option (store tbl (nwatchers (lp st)) a);
  tbl ← of_option (store tbl (wrap32 (nwatchers (lp st) + 1)) b);
  Done (with_lp st (set_watchers (lp st) (Some tbl))).

(** What one round of [for (;;)] decides. *)
Inductive verdict :=
  | Return
  | Continue (timeout : Z) (count : Z)
  | UpdateTimeout.

(** epoll_pwait into the array [events], then SAVE_ERRNO(uv__update_time(loop)):
    the state after both, the value returned, and errno. *)
Definition wait_step (st : state) (psigset : bool) (timeout : Z)
  : state * Z * Z :=
  let st := log st (Wait timeout) in
  let '(k, (nfds, evs, errno)) :=
    epoll_pwait X (os st) (backend_fd (lp st)) EVENTS_SIZE timeout psigset in
  let st := {| os := k; lp := set_poll_events (lp st) evs; tr := tr st |} in
  (uv__update_time st, nfds, errno).

(** loop->signal_io_watcher.cb(loop, &loop->signal_io_watcher, POLLIN) *)
Definition call_signal (st : state) : outcome state :=
  let w := signal_io_watcher X in
  let c := cb (io (lp st) w) in
  extern (io_cb P c w POLLIN) (log st (CallIo c w POLLIN)).

(** One round of [for (;;)] up to the label update_timeout. *)
Definition poll_round (st : state) (psigset : bool) (timeout count : Z)
  : outcome (state * verdict) :=
  let '(st, nfds, errno) := wait_step st psigset timeout in
  if nfds =? 0 then
    check (negb (timeout =? -1));;
    if timeout =? 0 then Done (st, Return) else Done (st, UpdateTimeout)
  else if nfds =? -1 then
    check (errno =? EINTR);;
    if timeout =? -1 then Done (st, Continue timeout count)
    else if timeout =? 0 then Done (st, Return)
    else Done (st, UpdateTimeout)
  else
    check (bool_decide (is_Some (watchers (lp st))));;
    st ← publish st (events_addr X) nfds;
    d ← dispatch (Z.to_nat nfds) 0 st false 0;
    let '(st, have_signals, nevents) := (d : state * bool * Z) in
    st ← (if have_signals then call_signal st else Done st);
    st ← publish st NULL NULL;
    if have_signals then Done (st, Return)
    else if negb (nevents =? 0) then
      if (nfds =? EVENTS_SIZE) && negb (count - 1 =? 0)
      then Done (st, Continue 0 (count - 1))
      else Done (st, Return)
    else if timeout =? 0 then Done (st, Return)
    else if timeout =? -1 then Done (st, Continue timeout count)
    else Done (st, UpdateTimeout).

(** The cap that works around the kernel bug with long timeouts. *)
Definition cap_timeout (timeout : Z) : Z :=
  if long_is_int32 X && (max_safe_timeout <=? timeout)
  then max_safe_timeout else timeout.

Fixpoint poll_loop (fuel : nat) (st : state) (psigset : bool)
    (timeout real_timeout base count : Z) : outcome state :=
  match fuel with
  | O => OutOfFuel
  | S fuel' =>
      let timeout := cap_timeout timeout in
      d ← poll_round st psigset timeout count;
      let '(st, v) := (d : state * verdict) in
      match v with
      | Return => Done st
      | Continue timeout count =>
          poll_loop fuel' st psigset timeout real_timeout base count
      | UpdateTimeout =>
          check (0 <? timeout);;
          let real_timeout :=
            int32_of (real_timeout - (time (lp st) - base)) in
          if real_timeout <=? 0 then Done st
          else poll_loop fuel' st psigset real_timeout real_timeout base count
      end
  end.

Definition uv__io_poll (fuel : nat) (st : state) (timeout : Z)
  : outcome state :=
  if nfds (lp st) =? 0 then
    check (QUEUE_EMPTY (watcher_queue (lp st)));;
    Done st
  else
    st ← flush_watcher_queue (length (watcher_queue (lp st))) st;
    let psigset :=
      negb (Z.land (loop_flags (lp st)) UV_LOOP_BLOCK_SIGPROF =? 0) in
    check (-1 <=? timeout);;
    poll_loop fuel st psigset timeout timeout (time (lp st)) 48.

(** *** The closing phase (core.c) *)

(** uv__finish_close. *)
Definition uv__finish_close (st : state) (h : Z) : outcome state :=
  check (has_flag (handles (lp st) h) UV_HANDLE_CLOSING);;
  check (negb (has_flag (handles (lp st) h) UV_HANDLE_CLOSED));;
  let st :=
    with_lp st
      (write_handle (lp st) h
         (set_flags (handles (lp st) h)
            (Z.lor (flags (handles (lp st) h)) UV_HANDLE_CLOSED))) in
  st ← match type (handles (lp st) h) with
       | UV_NAMED_PIPE | UV_TCP | UV_TTY => extern (uv__stream_destroy X h) st
       | UV_UDP => extern (uv__udp_finish_close X h) st
       | UV_UNKNOWN_HANDLE => Aborted
       | _ => Done st
       end;
  let st := with_lp st (uv__handle_unref X h (lp st)) in
  let st :=
    with_lp st (set_handle_queue (lp st) (QUEUE_REMOVE h (handle_queue (lp st)))) in
  let c := close_cb (handles (lp st) h) in
  if c =? NULL then Done st
  else extern (close_cb_code P c h) (log st (CallClose c h)).

(** while (p) { q = p->next_closing; uv__finish_close(p); p = q; } *)
Fixpoint closing_loop (fuel : nat) (st : state) (p : Z) : outcome state :=
  if p =? NULL then Done st
  else
    match fuel with
    | O => OutOfFuel
    | S fuel' =>
        let q := next_closing (handles (lp st) p) in
        st ← uv__finish_close st p;
        closing_loop fuel' st q
    end.

(** uv__run_closing_handles. *)
Definition uv__run_closing_handles (fuel : nat) (st : state) : outcome state :=
  let p := closing_handles (lp st) in
  let st := with_lp st (set_closing_handles (lp st) NULL) in
  closing_loop fuel st p.

(** *** uv_run (core.c) *)

(** One pass through the body of the while loop; the result is the loop
    with the new value of [r]. *)
Definition run_iteration (fuel : nat) (st : state) (mode : uv_run_mode)
  : outcome (state * bool) :=
  let st := log st Iteration in
  let st := uv__update_time st in
  st ← extern (uv__run_timers X) st;
  d ← uv__run_pending fuel st;
  let '(st, ran_pending) := (d : state * bool) in
  st ← extern (uv__run_idle X) st;
  st ← extern (uv__run_prepare X) st;
  let timeout :=
    match mode with
    | UV_RUN_ONCE => if ran_pending then 0 else uv_backend_timeout (lp st)
    | UV_RUN_DEFAULT => uv_backend_timeout (lp st)
    | UV_RUN_NOWAIT => 0
    end in
  st ← uv__io_poll fuel st timeout;
  st ← extern (uv__run_check X) st;
  st ← uv__run_closing_handles fuel st;
  st ← match mode with
       | UV_RUN_ONCE => extern (uv__run_timers X) (uv__update_time st)
       | _ => Done st
       end;
  Done (st, uv__loop_alive (lp st)).

Fixpoint run_loop (fuel gas : nat) (st : state) (mode : uv_run_mode)
    (r : bool) : outcome (state * bool) :=
  if r && (stop_flag (lp st) =? 0) then
    match fuel with
    | O => OutOfFuel
    | S fuel' =>
        d ← run_iteration gas st mode;
        let '(st, r) := (d : state * bool) in
        match mode with
        | UV_RUN_DEFAULT => run_loop fuel' gas st mode r
        | _ => Done (st, r)
        end
    end
  else Done (st, r).

(** uv_run.  [fuel] bounds the iterations of its while loop, [gas] the
    rounds of each loop inside a phase. *)
Definition uv_run (fuel gas : nat) (st : state) (mode : uv_run_mode)
  : outcome (state * Z) :=
  let r := uv__loop_alive (lp st) in
  let st := if r then st else uv__update_time st in
  d ← run_loop fuel gas st mode r;
  let '(st, r) := (d : state * bool) in
  let st :=
    if negb (stop_flag (lp st) =? 0)
    then with_lp st (set_stop_flag (lp st) 0) else st in
  Done (st, Z.b2z r).

End Phases.

(** ** Vocabulary of the properties *)

(** The spec's next_pow2: [p] is the least power of two that is at least
    [v]. *)
Definition is_pow2 (p : Z) : Prop := ∃ k, 0 ≤ k ∧ p = 2 ^ k.

Definition least_pow2_ge (v p : Z) : Prop :=
  is_pow2 p ∧ v ≤ p ∧ ∀ q, is_pow2 q → v ≤ q → p ≤ q.

(** The five or-shift lines of next_power_of_two. *)
Definition smear (x : Z) : Z :=
  let x := Z.lor x (Z.shiftr x 1) in
  let x := Z.lor x (Z.shiftr x 2) in
  let x := Z.lor x (Z.shiftr x 4) in
  let x := Z.lor x (Z.shiftr x 8) in
  Z.lor x (Z.shiftr x 16).

(** [y] has bit [i] set exactly when [x] has a bit set among the [m] bits
    from [i] upwards. *)
Definition smeared (m : Z) (y x : Z) : Prop :=
  ∀ i, 0 ≤ i →
    Z.testbit y i = true ↔ ∃ j, i ≤ j < i + m ∧ Z.testbit x j = true.

(** The fd table is the null pointer of an empty table, or a block of
    [nwatchers + 2] slots. *)
Definition table_wf (loop : uv_loop_t) : Prop :=
  0 ≤ nwatchers loop < 2 ^ 32 ∧
  match watchers loop with
  | Some tbl => Z.of_nat (length tbl) = nwatchers loop + 2
  | None => nwatchers loop = 0
  end.

(** Slot [i] of the fd table. *)
Definition slot (loop : uv_loop_t) (i : Z) : option Z :=
  tbl ← watchers loop; load tbl i.

(** The two trailing slots, which a null table does not have. *)
Definition trailing (loop : uv_loop_t) : Z * Z :=
  match watchers loop with
  | Some tbl =>
      (default NULL (load tbl (nwatchers loop)),
       default NULL (load tbl (nwatchers loop + 1)))
  | None => (NULL, NULL)
  end.

(** A non-empty mask within POLLIN | POLLOUT | UV__POLLRDHUP | UV__POLLPRI,
    as both uv__io_start and uv__io_stop assert. *)
Definition permitted (evs : Z) : Prop :=
  Z.land evs (not32 IO_MASK) = 0 ∧ evs ≠ 0.

(** A call of uv__io_start or of uv__io_stop on a watcher. *)
Inductive io_op :=
  | Start (evs : Z)
  | Stop (evs : Z).

Definition is_start (op : io_op) : bool :=
  match op with Start _ => true | Stop _ => false end.

Definition apply_op (w : Z) (loop : uv_loop_t) (op : io_op)
  : option uv_loop_t :=
  match op with
  | Start evs => uv__io_start loop w evs
  | Stop evs => uv__io_stop loop w evs
  end.

Fixpoint run_ops (w : Z) (loop : uv_loop_t) (ops : list io_op)
  : option uv_loop_t :=
  match ops with
  | [] => Some loop
  | op :: ops => loop' ← apply_op w loop op; run_ops w loop' ops
  end.

(** The two equivalences of the watcher invariant:
    (pevents == 0) iff (watchers[fd] == NULL), and
    (pevents == events) iff the watcher is not on watcher_queue. *)
Definition io_invariant (loop : uv_loop_t) (w : Z) : Prop :=
  (pevents (io loop w) = 0 ↔ slot loop (fd (io loop w)) = Some NULL) ∧
  (pevents (io loop w) = events (io loop w) ↔ w ∉ watcher_queue loop).

(** A watcher as uv__io_init leaves it: nothing requested, nothing
    registered, on no queue. *)
Definition fresh (loop : uv_loop_t) (w : Z) : Prop :=
  w ≠ NULL ∧ -1 ≤ fd (io loop w) ≤ INT_MAX ∧
  pevents (io loop w) = 0 ∧ events (io loop w) = 0 ∧
  w ∉ watcher_queue loop.

(** What holds of a watcher for as long as no poll has flushed it into the
    backend; [started] tells whether uv__io_start has returned for it. *)
Definition unflushed (loop : uv_loop_t) (w : Z) (started : bool) : Prop :=
  table_wf loop ∧ w ≠ NULL ∧ -1 ≤ fd (io loop w) ≤ INT_MAX ∧
  events (io loop w) = 0 ∧
  (w ∈ watcher_queue loop ↔ pevents (io loop w) ≠ 0) ∧
  (pevents (io loop w) ≠ 0 →
     0 ≤ fd (io loop w) < nwatchers loop ∧
     ∃ v, slot loop (fd (io loop w)) = Some v ∧ v ≠ NULL) ∧
  (started = true →
     0 ≤ fd (io loop w) < nwatchers loop ∧
     (pevents (io loop w) = 0 → slot loop (fd (io loop w)) = Some NULL)).

(** The idle state of a watcher: nothing requested, nothing registered, on
    neither queue, and the slot of its fd, if the table has one, empty. *)
Definition idle (loop : uv_loop_t) (w : Z) : Prop :=
  w ≠ NULL ∧ -1 ≤ fd (io loop w) ≤ INT_MAX ∧
  pevents (io loop w) = 0 ∧ events (io loop w) = 0 ∧
  (w ∉ watcher_queue loop) ∧ (w ∉ pending_queue loop) ∧
  (0 ≤ fd (io loop w) < nwatchers loop →
   slot loop (fd (io loop w)) = Some NULL).

(** ** Sample environments and states *)

(** A kernel in which every epoll_ctl succeeds, every wait times out and
    the clock stands still; the functions of the other units do nothing. *)
Definition quiet : externals := {|
  K := unit;
  long_is_int32 := false;
  events_addr := 4096;
  signal_io_watcher := 1000;
  epoll_ctl := λ k _ _ _ _, (k, 0);
  epoll_pwait := λ k _ _ _ _, (k, (0, [], 0));
  uv__hrtime := λ k, (k, 0);
  uv__close_hook := λ _ _ s, Some s;
  uv__stream_destroy := λ _ s, Some s;
  uv__udp_finish_close := λ _ s, Some s;
  uv__handle_unref := λ _ l, l;
  uv__run_timers := Some;
  uv__run_idle := Some;
  uv__run_prepare := Some;
  uv__run_check := Some
|}.

(** Callbacks that return at once. *)
Definition no_callbacks : program quiet := {|
  io_cb := λ _ _ _ s, Some s;
  close_cb_code := λ _ _ s, Some s
|}.

(** The empty loop with a freshly initialised watcher at address 100, its
    callback at address 7, for fd 5. *)
Definition loop_w5 : uv_loop_t := write_io loop0 100 (Build_io 7 5 0 0).

(** A kernel that hands out the batches of ready events it was given,
    one per wait, and reports a timeout once they are used up. *)
Definition scripted : externals := {|
  K := list (list epoll_event);
  long_is_int32 := false;
  events_addr := 4096;
  signal_io_watcher := 1000;
  epoll_ctl := λ k _ _ _ _, (k, 0);
  epoll_pwait := λ k _ _ _ _,
    match k with
    | [] => ([], (0, [], 0))
    | batch :: k' => (k', (Z.of_nat (length batch), batch, 0))
    end;
  uv__hrtime := λ k, (k, 0);
  uv__close_hook := λ _ _ s, Some s;
  uv__stream_destroy := λ _ s, Some s;
  uv__udp_finish_close := λ _ s, Some s;
  uv__handle_unref := λ _ l, l;
  uv__run_timers := Some;
  uv__run_idle := Some;
  uv__run_prepare := Some;
  uv__run_check := Some
|}.

(** A program whose io callback at address 8 closes the handle at address
    200 with the close callback at address 9; its other callbacks return
    at once. *)
Definition closing_program : program scripted := {|
  io_cb := λ c _ _ s, if c =? 8 then uv_close scripted s 200 9 else Some s;
  close_cb_code := λ _ _ s, Some s
|}.

(** A loop with a data watcher (address 100, callback 7, fd 5) and the
    signal watcher (address 1000, callback 11, fd 6), both freshly
    initialised. *)
Definition loop_sig : uv_loop_t := write_io loop_w5 1000 (Build_io 11 6 0 0).

(** A loop with one active timer handle at address 200 and, on the pending
    queue, a watcher (address 100) whose callback is at address 8. *)
Definition loop_close : uv_loop_t :=
  write_handle
    (write_io (set_pending_queue (set_active_handles loop0 1) [100])
       100 (Build_io 8 5 0 0))
    200 (Build_handle UV_TIMER 0 0 NULL).

(** start(POLLIN) on the watcher of [loop_w5], a poll that flushes it into
    the backend, then stop(POLLOUT). *)
Definition flushed_then_stopped : option uv_loop_t :=
  l1 ← uv__io_start loop_w5 100 POLLIN;
  match uv__io_poll no_callbacks 1 (@Build_state quiet () l1 []) 0 with
  | Done st => uv__io_stop (lp st) 100 POLLOUT
  | _ => None
  end.

(** A loop whose table has two slots, the second holding the watcher at
    address 100, and whose trailing slots hold 4096 and 3. *)
Definition loop_small : uv_loop_t :=
  set_nwatchers (set_watchers loop0 (Some [0; 100; 4096; 3])) 2.

(** [t] is a timer of the heap with the least deadline. *)
Definition earliest (h : list (Z * Z)) (t : Z * Z) : Prop :=
  t ∈ h ∧ ∀ u, u ∈ h → t.1 ≤ u.1.

(** A loop at time 4 with one active handle and two timers, due at 50
    and at 10. *)
Definition loop_timers : uv_loop_t :=
  Build_loop 4 0 0 3 1 0 [] [] [] [] NULL [(50, 1); (10, 2)] None 0 0
    (io loop0) (handles loop0) [] [].

(** A call of the callback of an io-watcher other than [sig]. *)
Definition ordinary (sig : Z) (c : call) : Prop :=
  match c with
  | CallIo _ w _ => w ≠ sig
  | _ => False
  end.

(** The watcher of [loop_w5], started for POLLIN. *)
Definition started_w5 : uv_loop_t :=
  default loop0 (uv__io_start loop_w5 100 POLLIN).

(** A poll of [started_w5] to which the kernel reports POLLERR | POLLHUP
    on fd 5. *)
Definition poll_err_hup : outcome (@state scripted) :=
  uv__io_poll closing_program 1
    (@Build_state scripted [[Build_event (Z.lor POLLERR POLLHUP) 5]]
       started_w5 [])
    0.

(** Both watchers of [loop_sig], started for POLLIN. *)
Definition started_sig : uv_loop_t :=
  default loop0
    (l ← uv__io_start loop_sig 100 POLLIN; uv__io_start l 1000 POLLIN).

(** The state in which a blocking poll of [started_sig] begins when the
    kernel is about to report the signal fd 6 and then the data fd 5 as
    readable. *)
Definition sig_poll_start : @state scripted :=
  @Build_state scripted [[Build_event POLLIN 6; Build_event POLLIN 5]]
    started_sig [].

(** The result of a phase that has returned, [d] otherwise. *)
Definition done_or {A} (d : A) (o : outcome A) : A :=
  match o with Done a => a | _ => d end.

(** The states the poll of [sig_poll_start] goes through: after the wait,
    after the event buffer is published, and after the dispatch loop. *)
Definition sig_waited : @state scripted := (wait_step sig_poll_start false (-1)).1.1.

Definition sig_published : @state scripted :=
  done_or sig_waited (publish sig_waited 4096 2).

Definition sig_dispatched : @state scripted * bool * Z :=
  done_or (sig_published, false, 0)
    (dispatch closing_program 2 0 sig_published false 0).

(** [hs] lists the handles linked from [p] through next_closing, up to the
    null pointer that ends the list. *)
Inductive closing_chain (l : uv_loop_t) : Z → list Z → Prop :=
  | chain_end : closing_chain l NULL []
  | chain_link h hs :
      h ≠ NULL →
      closing_chain l (next_closing (handles l h)) hs →
      closing_chain l h (h :: hs).

(** A handle that uv_close has marked and uv__finish_close has not yet
    finished. *)
Definition awaiting_close (l : uv_loop_t) (h : Z) : Prop :=
  has_flag (handles l h) UV_HANDLE_CLOSING = true ∧
  has_flag (handles l h) UV_HANDLE_CLOSED = false.

(** Code that does not write to the handles that await their close. *)
Definition spares_closing {X : externals}
    (f : K X * uv_loop_t → option (K X * uv_loop_t)) : Prop :=
  ∀ s s' h, f s = Some s' → awaiting_close s.2 h →
            handles s'.2 h = handles s.2 h.

(** Code that does not assign the close_cb field of any handle. *)
Definition keeps_close_cb {X : externals}
    (f : K X * uv_loop_t → option (K X * uv_loop_t)) : Prop :=
  ∀ s s' h, f s = Some s' →
            close_cb (handles s'.2 h) = close_cb (handles s.2 h).

(** What is assumed of the code outside the two files during the closing
    phase: the destroy hooks, uv__handle_unref and the user's close
    callbacks do not write to a handle that awaits its close, and the
    former three leave every close_cb field in place. *)
Definition closing_discipline {X : externals} (P : program X) : Prop :=
  (∀ h, spares_closing (uv__stream_destroy X h) ∧
        keeps_close_cb (uv__stream_destroy X h)) ∧
  (∀ h, spares_closing (uv__udp_finish_close X h) ∧
        keeps_close_cb (uv__udp_finish_close X h)) ∧
  (∀ h l h', (h' ≠ h → handles (uv__handle_unref X h l) h' = handles l h') ∧
             close_cb (handles (uv__handle_unref X h l) h')
             = close_cb (handles l h')) ∧
  (∀ c h, spares_closing (close_cb_code P c h)).

(** The calls of close callbacks owed to the handles [hs]: one for each
    handle whose close_cb is not null, in the order of [hs]. *)
Definition close_calls (l : uv_loop_t) (hs : list Z) : list call :=
  flat_map
    (λ h, if close_cb (handles l h) =? NULL then []
          else [CallClose (close_cb (handles l h)) h])
    hs.

(** One uv_run(UV_RUN_NOWAIT) on [loop_close]. *)
Definition close_run : outcome (@state scripted * Z) :=
  uv_run closing_program 1 10 (@Build_state scripted [] loop_close [])
    UV_RUN_NOWAIT.

(** [loop_close] after uv_close(200, 9), called outside any phase. *)
Definition loop_closing : uv_loop_t :=
  default loop0 (snd <$> uv_close scripted ([], loop_close) 200 9).

(** ** Further operations of core.c and linux-core.c *)

(** uv__io_active. *)
Definition uv__io_active (loop : uv_loop_t) (w : Z) (evs : Z) : option bool :=
  assert (Z.land evs (not32 IO_MASK) =? 0);;
  assert (negb (evs =? 0));;
  Some (negb (Z.land (pevents (io loop w)) evs =? 0)).

(** uv__fd_exists. *)
Definition uv__fd_exists (loop : uv_loop_t) (f : Z) : option bool :=
  if wrap32 f <? nwatchers loop then
    tbl ← watchers loop;
    v ← load tbl f;
    Some (negb (v =? NULL))
  else Some false.

(** The number of slots of the fd table, trailing slots apart, that hold a
    watcher. *)
Definition occupied (loop : uv_loop_t) : Z :=
  match watchers loop with
  | Some tbl =>
      Z.of_nat
        (length (filter (λ x, x ≠ NULL) (take (Z.to_nat (nwatchers loop)) tbl)))
  | None => 0
  end.

(** The table is well formed, every watcher's [fd] is an [int], and [nfds]
    is the number of occupied slots of the table. *)
Definition nfds_exact (loop : uv_loop_t) : Prop :=
  table_wf loop ∧ (∀ w, fd (io loop w) ≤ INT_MAX) ∧
  nfds loop = occupied loop.

(** A sequence of calls of uv__io_start and uv__io_stop, each on a watcher
    of its own. *)
Fixpoint run_calls (loop : uv_loop_t) (calls : list (Z * io_op))
  : option uv_loop_t :=
  match calls with
  | [] => Some loop
  | c :: calls => loop' ← apply_op c.1 loop c.2; run_calls loop' calls
  end.

(** A loop in the middle of a poll: the table has two slots, the watcher at
    address 100 is registered for fd 1, the trailing slots hold the address
    4096 of the event buffer and its length 3; the watcher at address 101,
    for fd 9, is freshly initialised. *)
Definition loop_polling : uv_loop_t :=
  write_io
    (write_io (set_nfds loop_small 1) 100 (Build_io 7 1 POLLIN POLLIN))
    101 (Build_io 7 9 0 0).

(** A call that is the call of an io-watcher callback. *)
Definition is_io (c : call) : Prop :=
  match c with CallIo _ _ _ => True | _ => False end.

(** A call that is the call of a callback. *)
Definition is_callback (c : call) : Prop :=
  match c with CallIo _ _ _ | CallClose _ _ => True | _ => False end.

(** A call that does not begin an iteration and, if it waits, does so with
    timeout 0. *)
Definition quick (c : call) : Prop :=
  match c with Iteration => False | Wait t => t = 0 | _ => True end.

(** The number of calls of epoll_pwait in a trace. *)
Fixpoint waits (t : list call) : nat :=
  match t with
  | [] => 0
  | Wait _ :: t => S (waits t)
  | _ :: t => waits t
  end.

(** [st'] continues the trace of [st] with calls that satisfy [Q]. *)
Definition extends {X : externals} (Q : call → Prop) (st st' : @state X)
  : Prop :=
  ∃ t, tr st' = tr st ++ t ∧ Forall Q t.

(** A call that does not begin an iteration and, if it waits while
    [nowait] holds, does so with timeout 0. *)
Definition paced (nowait : Prop) (c : call) : Prop :=
  match c with Iteration => False | Wait t => nowait → t = 0 | _ => True end.

(** A program whose io-watcher callbacks call uv_stop, which sets
    stop_flag. *)
Definition stopping_program : program scripted := {|
  io_cb := λ _ _ _ s, Some (s.1, set_stop_flag s.2 1);
  close_cb_code := λ _ _ s, Some s
|}.

(** A program whose io-watcher callbacks leave alone the queue that
    uv__run_pending is draining: they do not close a watcher that is still
    waiting on it. *)
Definition keeps_run_pq {X : externals} (P : program X) : Prop :=
  ∀ c w ev s s', io_cb P c w ev s = Some s' → run_pq s'.2 = run_pq s.2.

(** The call [c] is the call of the callback of the watcher [w] with
    POLLOUT. *)
Definition pending_call (c : call) (w : Z) : Prop :=
  ∃ code, c = CallIo code w POLLOUT.

(** A program whose io-watcher callbacks feed the watcher at address 101
    to the pending queue. *)
Definition feeding_program : program scripted := {|
  io_cb := λ _ _ _ s, Some (s.1, uv__io_feed s.2 101);
  close_cb_code := λ _ _ s, Some s
|}.

(** A loop with the watchers at the addresses 100 and 102 on the pending
    queue. *)
Definition loop_pending : uv_loop_t :=
  write_io (set_pending_queue loop_w5 [100; 102]) 102 (Build_io 8 6 0 0).

(** *** uv__platform_invalidate_fd (linux-core.c) *)

(** for (i = 0; i < nfds; i++)
      if (events[i].data.fd == fd) events[i].data.fd = -1; *)
Fixpoint invalidate_events (n : nat) (i : Z) (evs : list epoll_event) (f : Z)
  : option (list epoll_event) :=
  match n with
  | O => Some evs
  | S n' =>
      pe ← evs !! Z.to_nat i;
      let evs :=
        if ev_fd pe =? f
        then <[Z.to_nat i := Build_event (ev_events pe) (-1)]> evs
        else evs in
      invalidate_events n' (i + 1) evs f
  end.

(** Conversion to [uintptr_t], which on Linux is as wide as [long]. *)
Definition uintptr_of {X : externals} (z : Z) : Z :=
  z mod 2 ^ (if long_is_int32 X then 32 else 64).

(** uv__platform_invalidate_fd.  The pointer in the first trailing slot is
    followed only when it is the address of the event buffer of
    uv__io_poll, the one array of events of the model. *)
Definition uv__platform_invalidate_fd {X : externals} (s : K X * uv_loop_t)
    (f : Z) : option (K X * uv_loop_t) :=
  let loop := s.2 in
  tbl ← watchers loop;
  events ← load tbl (nwatchers loop);
  n ← load tbl (wrap32 (nwatchers loop + 1));
  loop ← (if events =? NULL then Some loop
          else if events =? events_addr X then
            evs ← invalidate_events (Z.to_nat (@uintptr_of X n)) 0
                     (poll_events loop) f;
            Some (set_poll_events loop evs)
          else None);
  if 0 <=? backend_fd loop then
    let '(k, _) := epoll_ctl X s.1 (backend_fd loop) EPOLL_CTL_DEL f 0 in
    Some (k, loop)
  else Some (s.1, loop).

(** [loop_polling] with the three events of its buffer: fd 1 readable,
    fd 9 readable, fd 1 writable. *)
Definition loop_events : uv_loop_t :=
  set_poll_events loop_polling
    [Build_event POLLIN 1; Build_event POLLIN 9; Build_event POLLOUT 1].

(** What the flush of uv__io_poll asserts of the watchers it finds on
    watcher_queue: events to register and an fd inside the table, which
    itself stays below 2^31 slots. *)
Definition queue_ok (loop : uv_loop_t) : Prop :=
  table_wf loop ∧ nwatchers loop < 2 ^ 31 ∧
  ∀ w, w ∈ watcher_queue loop →
       pevents (io loop w) ≠ 0 ∧ 0 ≤ fd (io loop w) < nwatchers loop.

(** A kernel on which every epoll_ctl succeeds. *)
Definition epoll_ctl_succeeds (X : externals) : Prop :=
  ∀ k epfd op f evs, (epoll_ctl X k epfd op f evs).2 = 0.

(** ** uv_fileno (core.c) *)

Definition UV_EINVAL : Z := -22.
Definition UV_EBADF : Z := -9.

(** uv_fileno: the value returned and, when it is 0, the value stored in
    [*fd].  [io_watcher h] is the address of the io_watcher field of the
    stream, udp or poll handle [h]; uv__stream_fd (internal.h) reads the
    fd of that field, as the udp and poll cases do. *)
Definition uv_fileno (io_watcher : Z → Z) (loop : uv_loop_t) (h : Z)
  : Z * option Z :=
  let fd_out :=
    match type (handles loop h) with
    | UV_TCP | UV_NAMED_PIPE | UV_TTY | UV_UDP | UV_POLL =>
        Some (fd (io loop (io_watcher h)))
    | _ => None
    end in
  match fd_out with
  | None => (UV_EINVAL, None)
  | Some f =>
      if uv__is_closing (handles loop h) || (f =? -1) then (UV_EBADF, None)
      else (0, Some f)
  end.

(** The kinds of handle that uv_fileno finds a descriptor for. *)
Definition has_descriptor (t : uv_handle_type) : bool :=
  match t with
  | UV_TCP | UV_NAMED_PIPE | UV_TTY | UV_UDP | UV_POLL => true
  | _ => false
  end.

(** A loop with an open TCP handle at address 300 whose io_watcher, at
    address 308, holds fd 12. *)
Definition loop_tcp : uv_loop_t :=
  write_handle (write_io loop0 308 (Build_io 7 12 0 0))
    300 (Build_handle UV_TCP 0 0 NULL).

(** ** Queries of the environment (core.c)

    A C string is the list of its bytes before the terminating NUL.  A
    pointer argument that may be null is an [option]: [buffer] holds the
    string that the caller's buffer contains, [size] the value of [*size]. *)

Definition UV_ENOENT : Z := -2.
Definition UV_ENOBUFS : Z := -105.

(** Conversion to [size_t], which on Linux is as wide as [long]. *)
Definition size_t_of {X : externals} (z : Z) : Z :=
  z mod 2 ^ (if long_is_int32 X then 32 else 64).

(** strlen; the length of a string in memory fits [size_t]. *)
Definition strlen (s : list Z) : Z := Z.of_nat (length s).

(** What a query leaves behind: the value returned, the string in the
    caller's buffer and the value of [*size]. *)
Record os_result := {
  os_rc : Z;
  os_buffer : option (list Z);
  os_size : option Z
}.

(** uv_os_getenv, over the environment [getenv]. *)
Definition uv_os_getenv {X : externals} (getenv : list Z → option (list Z))
    (name : option (list Z)) (buffer : option (list Z)) (size : option Z)
  : os_result :=
  match name, buffer, size with
  | Some name, Some _, Some sz =>
      if sz =? 0 then Build_os_result UV_EINVAL buffer size
      else
        match getenv name with
        | None => Build_os_result UV_ENOENT buffer size
        | Some var =>
            let len := strlen var in
            if sz <=? len
            then Build_os_result UV_ENOBUFS buffer
                   (Some (@size_t_of X (len + 1)))
            else Build_os_result 0 (Some var) (Some len)
        end
  | _, _, _ => Build_os_result UV_EINVAL buffer size
  end.

(** The names "TMPDIR", "TMP", "TEMP" and "TEMPDIR", the string "/tmp" and
    the character '/'. *)
Definition TMPDIR : list Z := [84; 77; 80; 68; 73; 82].
Definition TMP : list Z := [84; 77; 80].
Definition TEMP : list Z := [84; 69; 77; 80].
Definition TEMPDIR : list Z := [84; 69; 77; 80; 68; 73; 82].
Definition slash_tmp : list Z := [47; 116; 109; 112].
Definition slash : Z := 47.

(** uv_os_tmpdir, over the environment [getenv], as compiled for Linux
    other than Android. *)
Definition uv_os_tmpdir {X : externals} (getenv : list Z → option (list Z))
    (buffer : option (list Z)) (size : option Z) : os_result :=
  match buffer, size with
  | Some _, Some sz =>
      if sz =? 0 then Build_os_result UV_EINVAL buffer size
      else
        let buf :=
          match getenv TMPDIR with
          | Some b => b
          | None =>
              match getenv TMP with
              | Some b => b
              | None =>
                  match getenv TEMP with
                  | Some b => b
                  | None =>
                      match getenv TEMPDIR with
                      | Some b => b
                      | None => slash_tmp
                      end
                  end
              end
          end in
        let len := strlen buf in
        if sz <=? len
        then Build_os_result UV_ENOBUFS buffer (Some (@size_t_of X (len + 1)))
        else
          let len :=
            if (1 <? len) && bool_decide (buf !! Z.to_nat (len - 1) = Some slash)
            then len - 1 else len in
          Build_os_result 0 (Some (take (Z.to_nat len) buf)) (Some len)
  | _, _ => Build_os_result UV_EINVAL buffer size
  end.

(** The directory that uv_os_tmpdir reports: the first of the four
    variables that is set, "/tmp" if none is. *)
Definition tmpdir_of (getenv : list Z → option (list Z)) (dir : list Z)
  : Prop :=
  getenv TMPDIR = Some dir ∨
  getenv TMPDIR = None ∧
  (getenv TMP = Some dir ∨
   getenv TMP = None ∧
   (getenv TEMP = Some dir ∨
    getenv TEMP = None ∧
    (getenv TEMPDIR = Some dir ∨
     getenv TEMPDIR = None ∧ dir = slash_tmp))).

(** [out] is [dir] without one trailing slash, where [dir] has one and is
    longer than the slash itself. *)
Definition one_slash_off (dir out : list Z) : Prop :=
  (dir = out ++ [slash] ∧ out ≠ []) ∨
  (out = dir ∧ ((length dir ≤ 1)%nat ∨ list.last dir ≠ Some slash)).

(** An environment in which TMP is "/var/tmp/" and TEMP is "/t". *)
Definition env_tmp (name : list Z) : option (list Z) :=
  if bool_decide (name = TMP)
  then Some [47; 118; 97; 114; 47; 116; 109; 112; 47]
  else if bool_decide (name = TEMP) then Some [47; 116]
  else None.

(** A program whose io-watcher callbacks keep the fd table below 2^31
    slots, as uv__io_start and uv__io_stop do. *)
Definition keeps_table_bound {X : externals} (P : program X) : Prop :=
  ∀ c w ev s s', io_cb P c w ev s = Some s' →
                 nwatchers s.2 < 2 ^ 31 → nwatchers s'.2 < 2 ^ 31.

(** No event buffer is published: the table is below 2^31 slots and its
    trailing slots are null. *)
Definition unpublished (loop : uv_loop_t) : Prop :=
  nwatchers loop < 2 ^ 31 ∧ trailing loop = (NULL, NULL).

(** ** Calls on a watcher with polls in between *)

(** A call of uv__io_start or uv__io_stop on a watcher, or the flush of
    watcher_queue with which uv__io_poll begins. *)
Inductive watcher_op :=
  | Call (op : io_op)
  | Flush.

Definition is_flush (op : watcher_op) : bool :=
  match op with Flush => true | Call _ => false end.

Definition starts (op : watcher_op) : bool :=
  match op with Call op => is_start op | Flush => false end.

(** uv__io_poll up to its first epoll_pwait: the return when nfds is 0,
    the flush of watcher_queue otherwise. *)
Definition poll_flush {X : externals} (st : @state X) : outcome (@state X) :=
  if nfds (lp st) =? 0 then
    check (QUEUE_EMPTY (watcher_queue (lp st)));;
    Done st
  else flush_watcher_queue (length (watcher_queue (lp st))) st.

Definition apply_watcher_op {X : externals} (w : Z) (st : @state X)
    (op : watcher_op) : outcome (@state X) :=
  match op with
  | Call op => l ← of_option (apply_op w (lp st) op); Done (with_lp st l)
  | Flush => poll_flush st
  end.

Fixpoint run_watcher_ops {X : externals} (w : Z) (st : @state X)
    (ops : list watcher_op) : outcome (@state X) :=
  match ops with
  | [] => Done st
  | op :: ops => st' ← apply_watcher_op w st op; run_watcher_ops w st' ops
  end.

(** What holds of a watcher through calls and flushes.  [started] tells
    that uv__io_start has been called on it, [flushed] that a flush may
    have registered it with the backend. *)
Definition tracked (loop : uv_loop_t) (w : Z) (started flushed : bool)
  : Prop :=
  table_wf loop ∧ w ≠ NULL ∧ -1 ≤ fd (io loop w) ≤ INT_MAX ∧
  (w ∈ watcher_queue loop → pevents (io loop w) ≠ 0) ∧
  (w ∉ watcher_queue loop → pevents (io loop w) = events (io loop w)) ∧
  (pevents (io loop w) ≠ 0 →
     0 ≤ fd (io loop w) < nwatchers loop ∧
     ∃ v, slot loop (fd (io loop w)) = Some v ∧ v ≠ NULL) ∧
  (started = true →
     0 ≤ fd (io loop w) < nwatchers loop ∧
     (pevents (io loop w) = 0 → slot loop (fd (io loop w)) = Some NULL)) ∧
  (flushed = false → events (io loop w) = 0).

(** ** The list of closing handles through the closing phase *)

(** Code that changes the list of closing handles only by closing further
    handles: after it the list is the old one with, in front, handles that
    now await their close and did not before. *)
Definition pushes_closing {X : externals}
    (f : K X * uv_loop_t → option (K X * uv_loop_t)) : Prop :=
  ∀ s s' hs, f s = Some s' →
    closing_chain s.2 (closing_handles s.2) hs →
    (∀ h, h ∈ hs → awaiting_close s.2 h) →
    ∃ new, closing_chain s'.2 (closing_handles s'.2) (new ++ hs) ∧
           ∀ h, h ∈ new → awaiting_close s'.2 h ∧ ¬ awaiting_close s.2 h.

(** What is assumed, for the list of closing handles, of the code outside
    the two files during the closing phase: the destroy hooks and the
    close callbacks touch the list only by closing further handles, and
    uv__handle_unref leaves the list, its links and the closing flags
    alone. *)
Definition closing_list_discipline {X : externals} (P : program X) : Prop :=
  (∀ h, pushes_closing (uv__stream_destroy X h)) ∧
  (∀ h, pushes_closing (uv__udp_finish_close X h)) ∧
  (∀ h l, closing_handles (uv__handle_unref X h l) = closing_handles l ∧
          ∀ h', next_closing (handles (uv__handle_unref X h l) h')
                = next_closing (handles l h') ∧
                (awaiting_close l h' →
                 awaiting_close (uv__handle_unref X h l) h')) ∧
  (∀ c h, pushes_closing (close_cb_code P c h)).

(** A program whose close callback at address 9 closes the handle at
    address 300, with the close callback at address 10. *)
Definition reclosing_program : program scripted := {|
  io_cb := λ _ _ _ s, Some s;
  close_cb_code := λ c _ s, if c =? 9 then uv_close scripted s 300 10 else Some s
|}.

(** [loop_closing] with a second, open handle at address 300. *)
Definition loop_two : uv_loop_t :=
  write_handle loop_closing 300 (Build_handle UV_TCP 0 0 NULL).

(** The handles [hs] still to be finished await their close, and what is
    on closing_handles is a list of other handles that await theirs. *)
Definition relisted (l : uv_loop_t) (hs : list Z) : Prop :=
  (∀ h, h ∈ hs → awaiting_close l h) ∧
  ∃ new, closing_chain l (closing_handles l) new ∧
         (∀ h, h ∈ new → awaiting_close l h) ∧
         (∀ h, h ∈ new → h ∉ hs).

(** ** The calls that a batch of ready events is answered with *)

(** A program whose io-watcher callbacks leave the fd table, the watchers
    and the event buffer of the poll as they are. *)
Definition keeps_watchers {X : externals} (P : program X) : Prop :=
  ∀ c w ev s s', io_cb P c w ev s = Some s' →
    watchers s'.2 = watchers s.2 ∧ nwatchers s'.2 = nwatchers s.2 ∧
    io s'.2 = io s.2 ∧ poll_events s'.2 = poll_events s.2.

(** The watcher that the event [pe] is for, with the mask it is ready
    with, if the event is not invalidated, its fd is in the table and the
    mask is not empty. *)
Definition ready_watcher (l : uv_loop_t) (pe : epoll_event) : option (Z * Z) :=
  if ev_fd pe =? -1 then None
  else
    tbl ← watchers l;
    w ← load tbl (ev_fd pe);
    if w =? NULL then None
    else
      let e := ready_mask (ev_events pe) (pevents (io l w)) in
      if e =? 0 then None else Some (w, e).

(** The call that answers the event [pe] inside the dispatch loop: the
    callback of its watcher with its mask, unless the watcher is the
    signal io-watcher [sig]. *)
Definition event_calls (l : uv_loop_t) (sig : Z) (pe : epoll_event)
  : list call :=
  match ready_watcher l pe with
  | Some (w, e) => if w =? sig then [] else [CallIo (cb (io l w)) w e]
  | None => []
  end.

(** The event [pe] is for the signal io-watcher [sig]. *)
Definition event_signals (l : uv_loop_t) (sig : Z) (pe : epoll_event) : bool :=
  match ready_watcher l pe with
  | Some (w, _) => w =? sig
  | None => false
  end.

(** The calls that answer a batch inside the dispatch loop, in the order
    of the batch, and whether the batch has an event for [sig]. *)
Definition batch_calls (l : uv_loop_t) (sig : Z) (batch : list epoll_event)
  : list call :=
  flat_map (event_calls l sig) batch.

Definition batch_signals (l : uv_loop_t) (sig : Z) (batch : list epoll_event)
  : bool :=
  existsb (event_signals l sig) batch.

(** The loop [l] has the table and the watchers of [l0], and its event
    buffer is that of [l0] from index [i] on. *)
Definition same_watchers (l0 l : uv_loop_t) (i : nat) : Prop :=
  watchers l = watchers l0 ∧ nwatchers l = nwatchers l0 ∧ io l = io l0 ∧
  ∀ j, (i ≤ j)%nat → poll_events l !! j = poll_events l0 !! j.

(** * Properties *)

(** ** next_power_of_two *)

Lemma smeared_init x : smeared 1 x x.
Proof.
  intros i Hi; split.
  - intros H; exists i; split; [lia | done].
  - intros (j & Hj & H). by replace i with j by lia.
Qed.

Lemma smeared_step m y x :
  0 < m → smeared m y x → smeared (2 * m) (Z.lor y (Z.shiftr y m)) x.
Proof.
  intros Hm Hy i Hi.
  rewrite Z.lor_spec, Z.shiftr_spec, orb_true_iff by lia.
  rewrite (Hy i) by lia. rewrite (Hy (i + m)) by lia. split.
  - intros [(j & Hj & H) | (j & Hj & H)]; exists j; split; (lia || done).
  - intros (j & Hj & H). destruct (decide (j < i + m)).
    + left; exists j; split; (lia || done).
    + right; exists j; split; (lia || done).
Qed.

Lemma smear_smeared x : smeared 32 (smear x) x.
Proof.
  unfold smear; cbv zeta.
  apply (smeared_step 16); [lia |].
  apply (smeared_step 8); [lia |].
  apply (smeared_step 4); [lia |].
  apply (smeared_step 2); [lia |].
  apply (smeared_step 1); [lia |].
  apply smeared_init.
Qed.

Lemma smear_0 : smear 0 = 0.
Proof. reflexivity. Qed.

Lemma smear_ones x : 0 < x < 2 ^ 32 → smear x = Z.ones (Z.log2 x + 1).
Proof.
  intros Hx.
  assert (Hlog : 0 ≤ Z.log2 x < 32).
  { split; [apply Z.log2_nonneg |]. apply Z.log2_lt_pow2; lia. }
  apply Z.bits_inj'; intros i Hi.
  destruct (decide (i ≤ Z.log2 x)) as [Hle | Hgt].
  - rewrite Z.ones_spec_low by lia.
    apply (smear_smeared x i Hi). exists (Z.log2 x); split; [lia |].
    apply Z.bit_log2; lia.
  - rewrite Z.ones_spec_high by lia.
    apply not_true_is_false; intros H.
    apply (smear_smeared x i Hi) in H as (j & Hj & H).
    rewrite Z.bits_above_log2 in H by lia. done.
Qed.

Lemma next_power_of_two_smear val :
  next_power_of_two val = wrap32 (smear (wrap32 (val - 1)) + 1).
Proof. reflexivity. Qed.

Lemma next_power_of_two_log2 val :
  2 ≤ val ≤ 2 ^ 31 → next_power_of_two val = 2 ^ (Z.log2 (val - 1) + 1).
Proof.
  intros Hv. rewrite next_power_of_two_smear.
  unfold wrap32. rewrite (Z.mod_small (val - 1)) by lia.
  rewrite smear_ones by lia.
  assert (Hlog : 0 ≤ Z.log2 (val - 1) < 31).
  { split; [apply Z.log2_nonneg |]. apply Z.log2_lt_pow2; lia. }
  rewrite Z.ones_equiv.
  replace (Z.pred (2 ^ (Z.log2 (val - 1) + 1)) + 1)
    with (2 ^ (Z.log2 (val - 1) + 1)) by lia.
  apply Z.mod_small. split; [lia |].
  apply Z.pow_lt_mono_r; lia.
Qed.

Lemma next_power_of_two_least val :
  1 ≤ val ≤ 2 ^ 31 → least_pow2_ge val (next_power_of_two val).
Proof.
  intros Hv. destruct (decide (val = 1)) as [-> | Hne].
  - change (next_power_of_two 1) with 1. split; [by exists 0 |].
    split; [lia |]. intros q (k & Hk & ->) _.
    change 1 with (2 ^ 0). apply Z.pow_le_mono_r; lia.
  - rewrite next_power_of_two_log2 by lia.
    pose proof (Z.log2_nonneg (val - 1)) as Hnn.
    pose proof (Z.log2_spec (val - 1) ltac:(lia)) as [Hlo Hhi].
    replace (Z.succ (Z.log2 (val - 1))) with (Z.log2 (val - 1) + 1) in Hhi by lia.
    split; [exists (Z.log2 (val - 1) + 1); split; [lia | done] |].
    split; [lia |]. intros q (k & Hk & ->) Hq.
    apply Z.pow_le_mono_r; [lia |].
    destruct (decide (Z.log2 (val - 1) + 1 ≤ k)) as [|Hlt]; [done |].
    assert (2 ^ k ≤ 2 ^ Z.log2 (val - 1)) by (apply Z.pow_le_mono_r; lia).
    lia.
Qed.

Lemma next_power_of_two_overflow val :
  (val = 0 ∨ 2 ^ 31 < val < 2 ^ 32) → next_power_of_two val = 0.
Proof.
  intros Hv. rewrite next_power_of_two_smear.
  assert (Hx : 2 ^ 31 ≤ wrap32 (val - 1) < 2 ^ 32).
  { unfold wrap32. destruct Hv as [-> | Hv].
    - change ((0 - 1) mod 2 ^ 32) with (2 ^ 32 - 1). lia.
    - rewrite Z.mod_small; lia. }
  rewrite smear_ones by lia.
  assert (Z.log2 (wrap32 (val - 1)) = 31) as ->.
  { apply Z.log2_unique; [lia |]. change (Z.succ 31) with 32. lia. }
  reflexivity.
Qed.

(** ** Checked accesses to the fd table *)

Lemma store_Some tbl i v tbl' :
  store tbl i v = Some tbl' ↔
  (0 ≤ i < Z.of_nat (length tbl)) ∧ tbl' = <[Z.to_nat i := v]> tbl.
Proof.
  unfold store.
  destruct (0 <=? i) eqn:H0, (i <? Z.of_nat (length tbl)) eqn:H1; simpl;
    split; try (intros [? ?]; lia); try done.
  - intros [= <-]. split; [lia | done].
  - intros [_ ->]. done.
Qed.

Lemma load_lookup tbl i : 0 ≤ i → load tbl i = tbl !! Z.to_nat i.
Proof. intros Hi. unfold load. destruct (0 <=? i) eqn:H; [done | lia]. Qed.

Lemma load_Some_bound tbl i v :
  load tbl i = Some v → 0 ≤ i < Z.of_nat (length tbl).
Proof.
  unfold load. destruct (0 <=? i) eqn:H; [| done].
  intros Hl%lookup_lt_Some. lia.
Qed.

Lemma load_in_bounds tbl i :
  0 ≤ i < Z.of_nat (length tbl) → is_Some (load tbl i).
Proof.
  intros Hi. rewrite load_lookup by lia. apply lookup_lt_is_Some. lia.
Qed.

Lemma load_insert_eq tbl i v :
  0 ≤ i < Z.of_nat (length tbl) → load (<[Z.to_nat i := v]> tbl) i = Some v.
Proof.
  intros Hi. rewrite load_lookup by lia. apply list_lookup_insert_eq. lia.
Qed.

Lemma load_insert_ne tbl i j v :
  0 ≤ i → i ≠ j → load (<[Z.to_nat i := v]> tbl) j = load tbl j.
Proof.
  intros Hi Hne. unfold load. destruct (0 <=? j) eqn:Hj; [| done].
  apply list_lookup_insert_ne. lia.
Qed.

Lemma clear_slots_spec n : ∀ tbl i,
  0 ≤ i → i + Z.of_nat n ≤ Z.of_nat (length tbl) →
  ∃ tbl', clear_slots tbl i n = Some tbl' ∧ length tbl' = length tbl ∧
    ∀ j, load tbl' j =
         if decide (i ≤ j < i + Z.of_nat n) then Some NULL else load tbl j.
Proof.
  induction n as [| n IH]; intros tbl i Hi Hlen; simpl.
  - exists tbl. split; [done |]. split; [done |]. intros j.
    destruct (decide _); [lia | done].
  - assert (Hst : store tbl i NULL = Some (<[Z.to_nat i := NULL]> tbl)).
    { apply store_Some. split; [lia | done]. }
    rewrite Hst; simpl.
    destruct (IH (<[Z.to_nat i := NULL]> tbl) (i + 1)) as (tbl' & Hc & Hl & Hj).
    { lia. } { rewrite length_insert. lia. }
    exists tbl'. split; [done |]. split; [by rewrite Hl, length_insert |].
    intros j. rewrite Hj.
    destruct (decide (i + 1 ≤ j < i + 1 + Z.of_nat n)),
             (decide (i ≤ j < i + Z.of_nat (S n))); try lia; try done.
    + destruct (decide (i = j)) as [<- | Hne].
      * apply load_insert_eq. lia.
      * lia.
    + apply load_insert_ne; lia.
Qed.

Lemma clear_slots_bound n : ∀ tbl i tbl',
  clear_slots tbl i n = Some tbl' → n ≠ O →
  0 ≤ i ∧ i + Z.of_nat n ≤ Z.of_nat (length tbl).
Proof.
  induction n as [| n IH]; intros tbl i tbl' H Hn; [done |].
  simpl in H. apply bind_Some in H as (t1 & Hst & H).
  apply store_Some in Hst as [Hi ->].
  destruct n as [| n]; [lia |].
  apply IH in H as [_ H]; [| done]. rewrite length_insert in H. lia.
Qed.

(** ** maybe_resize *)

Lemma least_pow2_ge_bounds len p :
  1 ≤ len → len + 2 ≤ 2 ^ 31 → least_pow2_ge (len + 2) p →
  len + 2 ≤ p ≤ 2 ^ 31.
Proof.
  intros Hl Hu (Hp & Hge & Hleast). split; [done |].
  apply Hleast; [| done]. exists 31. split; [lia | done].
Qed.

Lemma bind_Some_eq {A B} (f : A → option B) (x : A) : Some x ≫= f = f x.
Proof. reflexivity. Qed.

Lemma uv__realloc_zero old : uv__realloc old 0 = None.
Proof. reflexivity. Qed.

Lemma uv__realloc_pos old n :
  n ≠ 0 → uv__realloc old n = Some (resize (Z.to_nat n) POISON (default [] old)).
Proof.
  intros Hn. unfold uv__realloc. destruct (n =? 0) eqn:E; [lia | done].
Qed.

Lemma fake_watchers_trailing loop :
  table_wf loop → nwatchers loop + 1 < 2 ^ 32 →
  match watchers loop with
  | Some tbl =>
      a ← load tbl (nwatchers loop);
      b ← load tbl (wrap32 (nwatchers loop + 1));
      Some (a, b)
  | None => Some (NULL, NULL)
  end = Some (trailing loop).
Proof.
  intros [Hnw Hwf] Hlt. unfold trailing.
  assert (Hw : wrap32 (nwatchers loop + 1) = nwatchers loop + 1)
    by (apply Z.mod_small; lia).
  rewrite Hw. destruct (watchers loop) as [tbl |]; [| done].
  destruct (load_in_bounds tbl (nwatchers loop)) as [a ->]; [lia |].
  destruct (load_in_bounds tbl (nwatchers loop + 1)) as [b ->]; [lia |].
  done.
Qed.

Lemma maybe_resize_grow loop len :
  table_wf loop → nwatchers loop < len → len + 2 ≤ 2 ^ 31 →
  let nw := next_power_of_two (len + 2) - 2 in
  ∃ tbl,
    maybe_resize loop len
      = Some (set_nwatchers (set_watchers loop (Some tbl)) nw) ∧
    Z.of_nat (length tbl) = nw + 2 ∧
    ∀ j, load tbl j =
      if decide (0 ≤ j < nwatchers loop) then slot loop j
      else if decide (nwatchers loop ≤ j < nw) then Some NULL
      else if decide (j = nw) then Some (trailing loop).1
      else if decide (j = nw + 1) then Some (trailing loop).2
      else None.
Proof.
  intros Hwf0 Hlt Hle. pose proof Hwf0 as [Hnw Hwf].
  pose proof (next_power_of_two_least (len + 2) ltac:(lia)) as Hleast.
  pose proof (least_pow2_ge_bounds len _ ltac:(lia) Hle Hleast) as Hp.
  cbv zeta. unfold maybe_resize.
  rewrite (proj2 (Z.leb_gt _ _)) by lia.
  rewrite fake_watchers_trailing by (done || lia).
  assert (Hw1 : wrap32 (len + 2) = len + 2) by (apply Z.mod_small; lia).
  rewrite Hw1.
  remember (next_power_of_two (len + 2) - 2) as nw eqn:Hnwdef.
  assert (Hnwr : len ≤ nw ≤ 2 ^ 31 - 2) by lia.
  clear Hnwdef Hleast Hp.
  assert (Hw2 : wrap32 nw = nw) by (apply Z.mod_small; lia).
  assert (Hw3 : wrap32 (nw + 2) = nw + 2) by (apply Z.mod_small; lia).
  assert (Hw4 : wrap32 (nw + 1) = nw + 1) by (apply Z.mod_small; lia).
  rewrite bind_Some_eq. destruct (trailing loop) as [fl fc].
  cbv beta iota. rewrite Hw2, Hw3, Hw4.
  rewrite uv__realloc_pos by lia. rewrite bind_Some_eq.
  set (old := default [] (watchers loop)).
  assert (Hold : ∀ j, 0 ≤ j < nwatchers loop →
                 load old j = slot loop j ∧ j < Z.of_nat (length old)).
  { unfold old, slot. destruct (watchers loop) as [tbl |].
    - intros j Hj. split; [done | simpl; lia].
    - intros; lia. }
  set (t0 := resize (Z.to_nat (nw + 2)) POISON old).
  assert (Ht0len : Z.of_nat (length t0) = nw + 2).
  { unfold t0. rewrite length_resize. lia. }
  assert (Ht0 : ∀ j, 0 ≤ j < nwatchers loop → load t0 j = slot loop j).
  { intros j Hj. destruct (Hold j Hj) as [<- Hjl].
    rewrite !load_lookup by lia. unfold t0. apply lookup_resize; lia. }
  clearbody t0. clear Hold. clearbody old.
  destruct (clear_slots_spec (Z.to_nat (nw - nwatchers loop)) t0
              (nwatchers loop)) as (t1 & -> & Ht1len & Ht1); [lia | lia |].
  rewrite bind_Some_eq.
  assert (Hs1 : store t1 nw fl = Some (<[Z.to_nat nw := fl]> t1)).
  { apply store_Some. split; [lia | done]. }
  rewrite Hs1, bind_Some_eq.
  assert (Hs2 : store (<[Z.to_nat nw := fl]> t1) (nw + 1) fc
                = Some (<[Z.to_nat (nw + 1) := fc]> (<[Z.to_nat nw := fl]> t1))).
  { apply store_Some. rewrite length_insert. split; [lia | done]. }
  rewrite Hs2, bind_Some_eq.
  eexists. split; [reflexivity |]. split; [rewrite !length_insert; lia |].
  intros j. cbn [fst snd].
  destruct (decide (j = nw + 1)) as [-> | Hn1].
  { rewrite load_insert_eq by (rewrite length_insert; lia).
    repeat (destruct (decide _); try lia). done. }
  rewrite load_insert_ne by lia.
  destruct (decide (j = nw)) as [-> | Hn0].
  { rewrite load_insert_eq by lia.
    repeat (destruct (decide _); try lia). done. }
  rewrite load_insert_ne by lia. rewrite Ht1.
  destruct (decide (nwatchers loop ≤ j < nwatchers loop + _)) as [Hin | Hout].
  { repeat (destruct (decide _); try lia). done. }
  destruct (decide (0 ≤ j < nwatchers loop)) as [Hj | Hj]; [by apply Ht0 |].
  destruct (decide (nwatchers loop ≤ j < nw)); [lia |].
  unfold load. destruct (0 <=? j) eqn:Hj0; [| done].
  apply lookup_ge_None. lia.
Qed.

Lemma maybe_resize_overflow loop len :
  table_wf loop → 0 ≤ len < 2 ^ 32 → nwatchers loop < len →
  2 ^ 31 < len + 2 → maybe_resize loop len = None.
Proof.
  intros [Hnw Hwf] Hlen Hlt Hbig. unfold maybe_resize.
  rewrite (proj2 (Z.leb_gt _ _)) by lia.
  apply bind_None.
  set (fake := match watchers loop with Some _ => _ | None => _ end).
  destruct fake as [[fl fc] |]; [right | by left].
  exists (fl, fc). split; [done |]. cbv beta iota.
  destruct (decide (len = 2 ^ 32 - 1)) as [-> | Hne].
  - assert (Ha : wrap32 (next_power_of_two (wrap32 (2 ^ 32 - 1 + 2)) - 2)
                 = 2 ^ 32 - 1) by (vm_compute; reflexivity).
    rewrite Ha.
    assert (Hb : wrap32 (2 ^ 32 - 1 + 2) = 1) by (vm_compute; reflexivity).
    rewrite Hb. rewrite uv__realloc_pos by lia. rewrite bind_Some_eq.
    apply bind_None.
    destruct (clear_slots _ _ _) as [t1 |] eqn:Hc; [exfalso | by left].
    apply clear_slots_bound in Hc as [_ Hc]; [| lia].
    rewrite length_resize in Hc. lia.
  - assert (Hz : wrap32 (wrap32 (next_power_of_two (wrap32 (len + 2)) - 2) + 2)
                 = 0).
    { rewrite next_power_of_two_overflow; [reflexivity |].
      unfold wrap32. destruct (decide (len + 2 = 2 ^ 32)) as [-> | Hne'].
      - left. reflexivity.
      - right. rewrite Z.mod_small; lia. }
    rewrite Hz. apply bind_None. left. apply uv__realloc_zero.
Qed.

Lemma maybe_resize_returns loop len loop' :
  table_wf loop → 0 ≤ len < 2 ^ 32 → nwatchers loop < len →
  maybe_resize loop len = Some loop' →
  nwatchers loop' = next_power_of_two (len + 2) - 2 ∧
  least_pow2_ge (len + 2) (next_power_of_two (len + 2)) ∧
  table_wf loop' ∧
  (∀ i, 0 ≤ i < nwatchers loop → slot loop' i = slot loop i) ∧
  (∀ i, nwatchers loop ≤ i < nwatchers loop' → slot loop' i = Some NULL) ∧
  slot loop' (nwatchers loop') = Some (trailing loop).1 ∧
  slot loop' (nwatchers loop' + 1) = Some (trailing loop).2 ∧
  io loop' = io loop ∧ watcher_queue loop' = watcher_queue loop ∧
  pending_queue loop' = pending_queue loop ∧ nfds loop' = nfds loop.
Proof.
  intros Hwf Hlen Hlt Hret.
  destruct (decide (len + 2 ≤ 2 ^ 31)) as [Hle | Hbig].
  2: { rewrite maybe_resize_overflow in Hret by (done || lia). done. }
  destruct (maybe_resize_grow loop len Hwf Hlt Hle) as (tbl & Heq & Hl & Hj).
  rewrite Heq in Hret. injection Hret as <-.
  pose proof (next_power_of_two_least (len + 2) ltac:(destruct Hwf; lia))
    as Hleast.
  pose proof (least_pow2_ge_bounds len _ ltac:(destruct Hwf; lia) Hle Hleast).
  destruct Hwf as [Hnw Hwf]. simpl. unfold slot; simpl.
  split; [done |]. split; [done |].
  split; [split; simpl; [lia | done] |].
  repeat split.
  - intros i Hi. rewrite Hj. destruct (decide _); [done | lia].
  - intros i Hi. rewrite Hj. repeat (destruct (decide _); try lia). done.
  - rewrite Hj. repeat (destruct (decide _); try lia). done.
  - rewrite Hj. repeat (destruct (decide _); try lia). done.
Qed.

(** What maybe_resize leaves alone, whether or not it reallocates. *)
Lemma maybe_resize_frame loop len loop' :
  table_wf loop → 0 ≤ len < 2 ^ 32 → maybe_resize loop len = Some loop' →
  table_wf loop' ∧ len ≤ nwatchers loop' ∧
  (∀ i, 0 ≤ i < nwatchers loop → slot loop' i = slot loop i) ∧
  (∀ i, nwatchers loop ≤ i < nwatchers loop' → slot loop' i = Some NULL) ∧
  io loop' = io loop ∧ watcher_queue loop' = watcher_queue loop ∧
  pending_queue loop' = pending_queue loop ∧ nfds loop' = nfds loop.
Proof.
  intros Hwf Hlen Hret.
  destruct (decide (len ≤ nwatchers loop)) as [Hle | Hgt].
  - unfold maybe_resize in Hret.
    destruct (len <=? nwatchers loop) eqn:Hcmp; [| lia].
    injection Hret as <-. repeat split; try done; try apply Hwf. lia.
  - destruct (maybe_resize_returns loop len loop' Hwf Hlen ltac:(lia) Hret)
      as (Hnw & (_ & Hge & _) & Hwf' & Hold & Hnew & _ & _ & ? & ? & ? & ?).
    repeat split; try done; try apply Hwf'. lia.
Qed.

(** C7.  For every requested length [len] above [nwatchers], a
    maybe_resize that returns leaves [nwatchers = next_pow2(len + 2) - 2],
    where next_pow2(len + 2), computed by next_power_of_two, is the least
    power of two that is at least [len + 2]; the old slots keep their
    contents, the slots added are null, and the two trailing slots carry
    over the contents of the old trailing slots.  It does return whenever
    such a power of two fits 32 bits ([len + 2 ≤ 2^31]).  next_power_of_two
    is the least power of two above its argument on all of [1, 2^31], and
    maps 1, 2, 3, 513, 2^31 to 1, 2, 4, 1024, 2^31. *)
Theorem maybe_resize_spec loop len :
  table_wf loop → 0 ≤ len < 2 ^ 32 → nwatchers loop < len →
  (len + 2 ≤ 2 ^ 31 → is_Some (maybe_resize loop len)) ∧
  (∀ loop', maybe_resize loop len = Some loop' →
     nwatchers loop' = next_power_of_two (len + 2) - 2 ∧
     least_pow2_ge (len + 2) (next_power_of_two (len + 2)) ∧
     table_wf loop' ∧
     (∀ i, 0 ≤ i < nwatchers loop → slot loop' i = slot loop i) ∧
     (∀ i, nwatchers loop ≤ i < nwatchers loop' → slot loop' i = Some NULL) ∧
     slot loop' (nwatchers loop') = Some (trailing loop).1 ∧
     slot loop' (nwatchers loop' + 1) = Some (trailing loop).2) ∧
  (∀ val, 1 ≤ val ≤ 2 ^ 31 → least_pow2_ge val (next_power_of_two val)) ∧
  map next_power_of_two [1; 2; 3; 513; 2 ^ 31] = [1; 2; 4; 1024; 2 ^ 31].
Proof.
  intros Hwf Hlen Hlt. split; [| split; [| split]].
  - intros Hle.
    destruct (maybe_resize_grow loop len Hwf Hlt Hle) as (tbl & -> & _). done.
  - intros loop' Hret.
    destruct (maybe_resize_returns loop len loop' Hwf Hlen Hlt Hret)
      as (? & ? & ? & ? & ? & ? & ? & _).
    done.
  - apply next_power_of_two_least.
  - vm_compute. reflexivity.
Qed.

(** ** uv__io_start and uv__io_stop *)

Lemma assert_Some b u : assert b = Some u → b = true.
Proof. by destruct b. Qed.

Ltac passed H :=
  apply bind_Some in H as ([] & ?%assert_Some & H).

Lemma upd_eq {A} (m : Z → A) a x : upd m a x a = x.
Proof. unfold upd. by rewrite Z.eqb_refl. Qed.

Lemma upd_ne {A} (m : Z → A) a b x : b ≠ a → upd m a x b = m b.
Proof. unfold upd. intros H. destruct (b =? a) eqn:E; [lia | done]. Qed.

Lemma on_queue_true x q : on_queue x q = true ↔ x ∈ q.
Proof. unfold on_queue. apply bool_decide_eq_true. Qed.

Lemma on_queue_false x q : on_queue x q = false ↔ x ∉ q.
Proof. unfold on_queue. apply bool_decide_eq_false. Qed.

Lemma elem_of_QUEUE_REMOVE x y q : x ∈ QUEUE_REMOVE y q ↔ x ≠ y ∧ x ∈ q.
Proof. unfold QUEUE_REMOVE. by rewrite list_elem_of_filter. Qed.

Lemma elem_of_QUEUE_INSERT_TAIL x y q :
  x ∈ QUEUE_INSERT_TAIL q y ↔ x ∈ q ∨ x = y.
Proof.
  unfold QUEUE_INSERT_TAIL. rewrite elem_of_app.
  by rewrite (list_elem_of_singleton x y).
Qed.

Lemma slot_store loop tbl i v tbl' j :
  store tbl i v = Some tbl' →
  slot (set_watchers loop (Some tbl')) j
  = if decide (j = i) then Some v else load tbl j.
Proof.
  intros [Hi ->]%store_Some. unfold slot; simpl.
  destruct (decide (j = i)) as [-> | Hne].
  - by apply load_insert_eq.
  - apply load_insert_ne; lia.
Qed.

Lemma table_wf_store loop tbl i v tbl' :
  table_wf loop → watchers loop = Some tbl → store tbl i v = Some tbl' →
  table_wf (set_watchers loop (Some tbl')).
Proof.
  intros [Hnw Hwf] Htbl [Hi ->]%store_Some. rewrite Htbl in Hwf.
  split; simpl; [done |]. by rewrite length_insert.
Qed.

Lemma uv__io_start_effect loop w evs b l' :
  unflushed loop w b → uv__io_start loop w evs = Some l' →
  unflushed l' w true ∧
  fd (io l' w) = fd (io loop w) ∧
  pevents (io l' w) = Z.lor (pevents (io loop w)) evs ∧
  pending_queue l' = pending_queue loop ∧
  (slot loop (fd (io loop w)) = Some NULL ∨ nwatchers loop ≤ fd (io loop w) →
   slot l' (fd (io loop w)) = Some w ∧ nfds l' = wrap32 (nfds loop + 1)).
Proof.
  intros (Hwf & Hw & Hfd & Hev & Hq & Hp & Hs) H.
  unfold uv__io_start in H. passed H. passed H. passed H. passed H.
  set (p' := Z.lor (pevents (io loop w)) evs) in *.
  set (l0 := write_io loop w (set_pevents (io loop w) p')) in *.
  assert (Hio0 : io l0 w = set_pevents (io loop w) p') by apply upd_eq.
  assert (Hp' : p' ≠ 0).
  { unfold p'. intros [_ ?]%Z.lor_eq_0_iff. lia. }
  rewrite !Hio0 in H. simpl in H.
  assert (Hwrap : wrap32 (fd (io loop w) + 1) = fd (io loop w) + 1).
  { apply Z.mod_small. unfold INT_MAX in *. lia. }
  rewrite Hwrap in H.
  apply bind_Some in H as (l1 & Hres & H).
  apply maybe_resize_frame in Hres
    as (Hwf1 & Hlen1 & Hold1 & Hnew1 & Hio1 & Hwq1 & Hpq1 & Hnfds1);
    [| done | unfold INT_MAX in *; lia].
  rewrite !Hio1, !Hio0 in H. simpl in H. rewrite Hev in H.
  destruct (0 =? p') eqn:E; [lia | clear E].
  set (l2 := if on_queue w (watcher_queue l1) then l1
             else set_watcher_queue l1 (QUEUE_INSERT_TAIL (watcher_queue l1) w))
    in *.
  assert (Hl2 : watchers l2 = watchers l1 ∧ io l2 = io l1 ∧
                nwatchers l2 = nwatchers l1 ∧ w ∈ watcher_queue l2 ∧
                pending_queue l2 = pending_queue l1 ∧ nfds l2 = nfds l1).
  { unfold l2. destruct (on_queue w (watcher_queue l1)) eqn:E; simpl.
    - by apply on_queue_true in E.
    - repeat split. apply elem_of_QUEUE_INSERT_TAIL. by right. }
  destruct Hl2 as (Hw2 & Hio2 & Hnw2 & Hin2 & Hpq2 & Hnf2).
  assert (Hwf2 : table_wf l2).
  { destruct Hwf1 as [? Hwf1]. split; [by rewrite Hnw2 |].
    by rewrite Hw2, Hnw2. }
  assert (Hfd2 : fd (io l2 w) = fd (io loop w)).
  { by rewrite Hio2, Hio1, Hio0. }
  assert (Hpe2 : pevents (io l2 w) = p') by (by rewrite Hio2, Hio1, Hio0).
  assert (Hev2 : events (io l2 w) = 0) by (by rewrite Hio2, Hio1, Hio0).
  rewrite !Hfd2 in H.
  apply bind_Some in H as (tbl & Htbl & H).
  apply bind_Some in H as (v & Hv & H).
  destruct (v =? NULL) eqn:Ev.
  - apply bind_Some in H as (tbl' & Hst & H). injection H as <-.
    pose proof (table_wf_store l2 tbl _ _ _ Hwf2 Htbl Hst) as Hwf3.
    pose proof (λ j, slot_store l2 tbl _ _ _ j Hst) as Hslot.
    set (l3 := set_nfds (set_watchers l2 (Some tbl')) (wrap32 (nfds l2 + 1))).
    assert (Hio3 : io l3 = io l2) by done.
    assert (Hwq3 : watcher_queue l3 = watcher_queue l2) by done.
    assert (Hnw3 : nwatchers l3 = nwatchers l2) by done.
    assert (Hpq3 : pending_queue l3 = pending_queue l2) by done.
    assert (Hnf3 : nfds l3 = wrap32 (nfds l2 + 1)) by done.
    assert (Hsl3 : slot l3 = slot (set_watchers l2 (Some tbl'))) by done.
    assert (Hwf4 : table_wf l3) by exact Hwf3.
    clearbody l3. unfold unflushed.
    rewrite Hio3, Hwq3, Hnw3, Hpq3, Hnf3, Hsl3, Hfd2, Hpe2, Hev2, Hnw2,
      Hpq2, Hpq1, Hnf2, Hnfds1, !Hslot.
    destruct (decide (fd (io loop w) = fd (io loop w))); [| done].
    split; [split; [exact Hwf4 |] |]; repeat split; try done; try lia.
    exists w. done.
  - injection H as <-.
    assert (Hv2 : slot l1 (fd (io loop w)) = Some v).
    { unfold slot. rewrite <- Hw2, Htbl. done. }
    split; [| split; [done | split; [done | split; [by rewrite Hpq2, Hpq1 |]]]].
    2: { intros Hfree. exfalso.
         destruct (decide (fd (io loop w) < nwatchers loop)) as [Hin | Hout].
         - rewrite Hold1 in Hv2 by (simpl; lia).
           change (slot l0) with (slot loop) in Hv2.
           destruct Hfree as [Hfree | ?]; [| lia].
           rewrite Hfree in Hv2. injection Hv2 as <-. done.
         - rewrite Hnew1 in Hv2 by (simpl; lia).
           injection Hv2 as <-. done. }
    unfold unflushed. rewrite Hfd2, Hpe2, Hev2, Hnw2.
    split; [done |]. split; [done |]. split; [done |]. split; [done |].
    split; [done |].
    split; intros _; (split; [lia |]).
    + exists v. unfold slot. rewrite Htbl; simpl.
      split; [done | unfold NULL in *; lia].
    + done.
Qed.

Lemma uv__io_stop_effect loop w evs b l' :
  unflushed loop w b → uv__io_stop loop w evs = Some l' →
  unflushed l' w b ∧
  fd (io l' w) = fd (io loop w) ∧
  pending_queue l' = pending_queue loop ∧
  (0 ≤ fd (io loop w) < nwatchers loop →
   pevents (io l' w) = Z.land (pevents (io loop w)) (not32 evs)).
Proof.
  intros Hun H. pose proof Hun as (Hwf & Hw & Hfd & Hev & Hq & Hp & Hs).
  unfold uv__io_stop in H. passed H. passed H.
  destruct (fd (io loop w) =? -1) eqn:Em1.
  { injection H as <-. split; [done |]. split; [done |]. split; [done |]. lia. }
  passed H.
  assert (Hwrap : wrap32 (fd (io loop w)) = fd (io loop w)).
  { apply Z.mod_small. unfold INT_MAX in *. lia. }
  rewrite Hwrap in H.
  destruct (nwatchers loop <=? fd (io loop w)) eqn:Enw.
  { injection H as <-. split; [done |]. split; [done |]. split; [done |]. lia. }
  set (p' := Z.land (pevents (io loop w)) (not32 evs)) in *.
  set (l0 := write_io loop w (set_pevents (io loop w) p')) in *.
  assert (Hio0 : io l0 w = set_pevents (io loop w) p') by apply upd_eq.
  assert (Hrange : 0 ≤ fd (io loop w) < nwatchers loop) by lia.
  rewrite !Hio0 in H. simpl in H. rewrite !upd_eq in H. simpl in H.
  destruct (p' =? 0) eqn:Ep.
  - apply bind_Some in H as (tbl & Htbl & H).
    apply bind_Some in H as (v & Hv & H).
    pose proof Hwf as [Hnw Hlen]. rewrite Htbl in Hlen.
    destruct (v =? NULL) eqn:Ev; simpl in H.
    + injection H as <-. unfold unflushed, table_wf, slot; simpl.
      rewrite upd_eq; simpl. rewrite Htbl; simpl.
      split; [| done].
      split; [done |]. split; [done |]. split; [done |]. split; [done |].
      split. { rewrite elem_of_QUEUE_REMOVE. split; [tauto | lia]. }
      split; [lia |]. intros _. split; [done |]. intros _.
      rewrite Hv. f_equal. lia.
    + passed H. passed H. apply bind_Some in H as (tbl0 & Hst & H).
      injection H as <-.
      pose proof Hst as [Hi ->]%store_Some.
      unfold unflushed, table_wf, slot; simpl.
      rewrite upd_eq; simpl. rewrite length_insert.
      split; [| done].
      split; [done |]. split; [done |]. split; [done |]. split; [done |].
      split. { rewrite elem_of_QUEUE_REMOVE. split; [tauto | lia]. }
      split; [lia |]. intros _. split; [done |]. intros _.
      by apply load_insert_eq.
  - assert (Hpne : pevents (io loop w) ≠ 0).
    { intros Hz. unfold p' in Ep. rewrite Hz, Z.land_0_l in Ep. done. }
    assert (Hl0 : unflushed l0 w b).
    { unfold unflushed, table_wf, slot; simpl. rewrite upd_eq; simpl.
      split; [done |]. split; [done |]. split; [done |]. split; [done |].
      split. { split; [lia | intros _; by apply Hq]. }
      split; [intros _; by apply Hp |].
      intros _. split; [done | lia]. }
    destruct (on_queue w (watcher_queue loop)) eqn:Eq.
    + injection H as <-. split; [done |]. simpl. by rewrite upd_eq.
    + apply on_queue_false in Eq. exfalso. apply Eq, Hq, Hpne.
Qed.

Lemma apply_op_unflushed loop w op b loop' :
  unflushed loop w b → apply_op w loop op = Some loop' →
  unflushed loop' w (b || is_start op).
Proof.
  intros Hun H. destruct op as [evs | evs]; simpl in *.
  - rewrite orb_true_r. by eapply uv__io_start_effect.
  - rewrite orb_false_r. by eapply uv__io_stop_effect.
Qed.

Lemma run_ops_unflushed ops : ∀ loop w b loop',
  unflushed loop w b → run_ops w loop ops = Some loop' →
  unflushed loop' w (b || existsb is_start ops).
Proof.
  induction ops as [| op ops IH]; intros loop w b loop' Hun H; simpl in *.
  - injection H as <-. by rewrite orb_false_r.
  - apply bind_Some in H as (l1 & Hop & H).
    rewrite orb_assoc. eapply IH; [| exact H].
    by eapply apply_op_unflushed.
Qed.

Lemma fresh_unflushed loop w :
  table_wf loop → fresh loop w → unflushed loop w false.
Proof.
  intros Hwf (Hw & Hfd & Hp & He & Hq).
  split; [done |]. split; [done |]. split; [done |]. split; [done |].
  split; [split; [done | by rewrite Hp] |].
  split; [by rewrite Hp | done].
Qed.

Lemma unflushed_io_invariant loop w :
  unflushed loop w true → io_invariant loop w.
Proof.
  intros (Hwf & Hw & Hfd & Hev & Hq & Hp & Hs).
  destruct (Hs eq_refl) as [Hrange Hnull]. split.
  - split; [done |]. intros Hslot.
    destruct (decide (pevents (io loop w) = 0)) as [| Hne]; [done |].
    destruct (Hp Hne) as (_ & v & Hv & Hvn). congruence.
  - rewrite Hev. split.
    + intros Hz Hin. by apply Hq in Hin.
    + intros Hout.
      destruct (decide (pevents (io loop w) = 0)) as [| Hne]; [done |].
      exfalso. by apply Hout, Hq.
Qed.

(** With a whole uv__io_poll between the calls: start(POLLIN), a poll,
    then stop(POLLOUT) leaves pevents == events with the watcher on
    watcher_queue. *)
Lemma io_invariant_fails_after_flush :
  ∃ l2, flushed_then_stopped = Some l2 ∧
    pevents (io l2 100) = POLLIN ∧ events (io l2 100) = POLLIN ∧
    100 ∈ watcher_queue l2 ∧ ¬ io_invariant l2 100.
Proof.
  assert (Hc : (λ l, (pevents (io l 100), events (io l 100), watcher_queue l))
               <$> flushed_then_stopped = Some (POLLIN, POLLIN, [100]))
    by (vm_compute; reflexivity).
  destruct flushed_then_stopped as [l2 |]; [| discriminate].
  injection Hc as Hp He Hq. exists l2. split; [reflexivity |].
  split; [done |]. split; [done |].
  assert (Hin : 100 ∈ watcher_queue l2) by (rewrite Hq; apply list_elem_of_here).
  split; [done |].
  intros [_ [Hout _]]. apply Hout; [congruence | done].
Qed.

Lemma land_not32_self evs : Z.land evs (not32 evs) = 0.
Proof.
  unfold not32, wrap32. apply Z.bits_inj'; intros i Hi.
  rewrite Z.land_spec, Z.bits_0.
  destruct (decide (i < 32)).
  - rewrite Z.mod_pow2_bits_low, Z.lnot_spec by lia. apply andb_negb_r.
  - rewrite Z.mod_pow2_bits_high by lia. apply andb_false_r.
Qed.

Lemma assert_true b : b = true → assert b = Some ().
Proof. by intros ->. Qed.

Lemma uv__io_start_returns loop w evs :
  table_wf loop → permitted evs →
  0 ≤ fd (io loop w) → fd (io loop w) + 3 ≤ 2 ^ 31 →
  is_Some (uv__io_start loop w evs).
Proof.
  intros Hwf [Hperm Hne] Hfd0 Hfd1. unfold uv__io_start.
  set (p' := Z.lor (pevents (io loop w)) evs).
  set (l0 := write_io loop w (set_pevents (io loop w) p')).
  rewrite (assert_true (Z.land evs (not32 IO_MASK) =? 0)) by lia.
  rewrite (assert_true (negb (evs =? 0))) by (apply negb_true_iff; lia).
  rewrite (assert_true (0 <=? fd (io loop w))) by lia.
  rewrite (assert_true (fd (io loop w) <? INT_MAX)) by (unfold INT_MAX; lia).
  simpl.
  assert (Hio0 : io l0 w = set_pevents (io loop w) p') by apply upd_eq.
  rewrite !upd_eq; simpl.
  assert (Hwrap : wrap32 (fd (io loop w) + 1) = fd (io loop w) + 1)
    by (apply Z.mod_small; lia).
  rewrite Hwrap.
  assert (Hres : is_Some (maybe_resize l0 (fd (io loop w) + 1))).
  { destruct (decide (fd (io loop w) + 1 ≤ nwatchers l0)) as [Hle | Hgt].
    - unfold maybe_resize.
      destruct (fd (io loop w) + 1 <=? nwatchers l0) eqn:E; [done | lia].
    - destruct (maybe_resize_grow l0 (fd (io loop w) + 1)) as (tbl & -> & _);
        [exact Hwf | lia | lia | done]. }
  destruct Hres as [l1 Hres]. rewrite Hres; simpl.
  apply maybe_resize_frame in Hres
    as (Hwf1 & Hlen1 & _ & _ & Hio1 & _); [| exact Hwf | lia].
  rewrite !Hio1, !Hio0; simpl.
  destruct (events (io loop w) =? p'); [done |].
  set (l2 := if on_queue w (watcher_queue l1) then l1
             else set_watcher_queue l1 (QUEUE_INSERT_TAIL (watcher_queue l1) w)).
  assert (Hl2 : watchers l2 = watchers l1 ∧ io l2 = io l1).
  { unfold l2. by destruct (on_queue w (watcher_queue l1)). }
  destruct Hl2 as [Hw2 Hio2]. rewrite Hw2, !Hio2, !Hio1, !Hio0; simpl.
  destruct Hwf1 as [Hnw1 Hwf1].
  destruct (watchers l1) as [tbl |] eqn:Htbl; [simpl | lia].
  destruct (load_in_bounds tbl (fd (io loop w))) as [v ->]; [lia |]. simpl.
  destruct (v =? NULL); [| done].
  assert (Hst : store tbl (fd (io loop w)) w
                = Some (<[Z.to_nat (fd (io loop w)) := w]> tbl)).
  { apply store_Some. split; [lia | done]. }
  rewrite Hst. done.
Qed.

Lemma uv__io_stop_returns loop w evs :
  unflushed loop w true → permitted evs →
  Z.land (pevents (io loop w)) (not32 evs) = 0 →
  slot loop (fd (io loop w)) = Some w → 0 < nfds loop →
  is_Some (uv__io_stop loop w evs).
Proof.
  intros (Hwf & Hw & Hfd & Hev & Hq & Hp & Hs) [Hperm Hne] Hz Hslot Hnfds.
  destruct (Hs eq_refl) as [Hrange _]. unfold uv__io_stop.
  rewrite (assert_true (Z.land evs (not32 IO_MASK) =? 0)) by lia.
  rewrite (assert_true (negb (evs =? 0))) by (apply negb_true_iff; lia).
  simpl. destruct (fd (io loop w) =? -1) eqn:E1; [done |].
  rewrite (assert_true (0 <=? fd (io loop w))) by lia. simpl.
  assert (Hwrap : wrap32 (fd (io loop w)) = fd (io loop w)).
  { apply Z.mod_small. unfold INT_MAX in *. lia. }
  rewrite Hwrap.
  destruct (nwatchers loop <=? fd (io loop w)) eqn:E2; [lia |].
  rewrite Hz. simpl. rewrite !upd_eq. simpl.
  unfold slot in Hslot.
  destruct (watchers loop) as [tbl |] eqn:Htbl; [simpl in * | done].
  rewrite Hslot; simpl.
  destruct (w =? NULL) eqn:E3; [unfold NULL in *; lia |]. simpl.
  rewrite Z.eqb_refl; simpl.
  rewrite (assert_true (0 <? nfds loop)) by lia. simpl.
  apply load_Some_bound in Hslot.
  assert (Hst : store tbl (fd (io loop w)) NULL
                = Some (<[Z.to_nat (fd (io loop w)) := NULL]> tbl)).
  { apply store_Some. split; [lia | done]. }
  rewrite Hst. done.
Qed.

Lemma idle_unflushed loop w :
  table_wf loop → idle loop w → unflushed loop w false.
Proof.
  intros Hwf (Hw & Hfd & Hp & He & Hq & _ & _).
  apply fresh_unflushed; [done |]. unfold fresh. tauto.
Qed.

(** C6.  From the idle state, uv__io_start(loop, w, M) followed by
    uv__io_stop(loop, w, M), for a non-empty permitted mask M, leaves the
    watcher idle again: pevents == 0, events == 0, on neither
    watcher_queue nor pending_queue, and watchers[fd] == NULL.  Both calls
    return when the fd is valid, the table for it can be allocated and the
    fd counter does not wrap. *)
Theorem uv__io_start_stop_idle loop w evs :
  table_wf loop → idle loop w → permitted evs →
  (0 ≤ fd (io loop w) → fd (io loop w) + 3 ≤ 2 ^ 31 →
   0 ≤ nfds loop < 2 ^ 32 - 1 →
   ∃ l1 l2, uv__io_start loop w evs = Some l1 ∧
            uv__io_stop l1 w evs = Some l2) ∧
  (∀ l1 l2,
     uv__io_start loop w evs = Some l1 → uv__io_stop l1 w evs = Some l2 →
     pevents (io l2 w) = 0 ∧ events (io l2 w) = 0 ∧
     (w ∉ watcher_queue l2) ∧ (w ∉ pending_queue l2) ∧
     slot l2 (fd (io l2 w)) = Some NULL ∧
     fd (io l2 w) = fd (io loop w)).
Proof.
  intros Hwf Hidle Hperm.
  pose proof (idle_unflushed loop w Hwf Hidle) as Hun.
  destruct Hidle as (Hw & Hfd & Hp & He & Hq & Hpq & Hslot).
  assert (Hstart : ∀ l1, uv__io_start loop w evs = Some l1 →
            unflushed l1 w true ∧ fd (io l1 w) = fd (io loop w) ∧
            pevents (io l1 w) = evs ∧
            pending_queue l1 = pending_queue loop ∧
            slot l1 (fd (io loop w)) = Some w ∧
            nfds l1 = wrap32 (nfds loop + 1)).
  { intros l1 H1.
    assert (Hfd0 : 0 ≤ fd (io loop w)).
    { unfold uv__io_start in H1. passed H1. passed H1. passed H1. lia. }
    destruct (uv__io_start_effect loop w evs false l1 Hun H1)
      as (Hun1 & Hfd1 & Hp1 & Hpq1 & Hfree).
    rewrite Hp, Z.lor_0_l in Hp1.
    destruct Hfree as [Hs1 Hn1]; [| done].
    destruct (decide (fd (io loop w) < nwatchers loop)); [left | right; lia].
    apply Hslot. lia. }
  split.
  - intros Hfd0 Hfd1 Hnfds.
    destruct (uv__io_start_returns loop w evs Hwf Hperm Hfd0 Hfd1)
      as [l1 H1].
    destruct (Hstart l1 H1) as (Hun1 & Hfd1' & Hp1 & _ & Hs1 & Hn1).
    destruct (uv__io_stop_returns l1 w evs) as [l2 H2]; try done.
    + rewrite Hp1. apply land_not32_self.
    + by rewrite Hfd1'.
    + rewrite Hn1. unfold wrap32. rewrite Z.mod_small; lia.
    + by exists l1, l2.
  - intros l1 l2 H1 H2.
    destruct (Hstart l1 H1) as (Hun1 & Hfd1 & Hp1 & Hpq1 & _).
    destruct (uv__io_stop_effect l1 w evs true l2 Hun1 H2)
      as (Hun2 & Hfd2 & Hpq2 & Hp2).
    destruct Hun1 as (_ & _ & _ & _ & _ & _ & Hs1).
    rewrite Hp2, Hp1 by (by apply Hs1).
    destruct Hun2 as (_ & _ & _ & Hev2 & Hq2 & _ & Hs2).
    assert (Hz : pevents (io l2 w) = 0).
    { rewrite Hp2, Hp1 by (by apply Hs1). apply land_not32_self. }
    split; [apply land_not32_self |]. split; [done |].
    split; [intros Hin; by apply Hq2 in Hin |].
    split; [by rewrite Hpq2, Hpq1 |].
    split; [by apply Hs2 | by rewrite Hfd2].
Qed.

Lemma uv__io_start_stop_idle_witness :
  ∃ l1 l2,
    uv__io_start loop_w5 100 POLLIN = Some l1 ∧
    uv__io_stop l1 100 POLLIN = Some l2 ∧
    pevents (io l2 100) = 0 ∧ slot l2 5 = Some NULL.
Proof.
  assert (Hwf : table_wf loop_w5) by (split; simpl; [lia | done]).
  assert (Hidle : idle loop_w5 100).
  { unfold idle, INT_MAX; simpl.
    repeat split; try done; try lia; apply not_elem_of_nil. }
  assert (Hperm : permitted POLLIN) by done.
  destruct (uv__io_start_stop_idle loop_w5 100 POLLIN Hwf Hidle Hperm)
    as [Hex Hall].
  destruct Hex as (l1 & l2 & H1 & H2); [simpl; lia .. |].
  exists l1, l2. destruct (Hall l1 l2 H1 H2) as (Hp & _ & _ & _ & Hs & Hf).
  rewrite Hf in Hs.
  split; [exact H1 |]. split; [exact H2 |]. split; [exact Hp | exact Hs].
Defined.

(** C10.  uv__io_stop with a non-empty permitted mask, on a watcher whose
    fd is -1 or lies at or beyond nwatchers, returns and leaves the watcher
    and the loop exactly as they were. *)
Theorem uv__io_stop_never_started loop w evs :
  permitted evs → 0 ≤ nwatchers loop → fd (io loop w) ≤ INT_MAX →
  fd (io loop w) = -1 ∨ nwatchers loop ≤ fd (io loop w) →
  uv__io_stop loop w evs = Some loop.
Proof.
  intros [Hperm Hne] Hnw Hint Hfd. unfold uv__io_stop.
  rewrite (assert_true (Z.land evs (not32 IO_MASK) =? 0)) by lia.
  rewrite (assert_true (negb (evs =? 0))) by (apply negb_true_iff; lia).
  simpl. destruct (fd (io loop w) =? -1) eqn:E1; [done |].
  rewrite (assert_true (0 <=? fd (io loop w))) by lia. simpl.
  assert (Hwrap : wrap32 (fd (io loop w)) = fd (io loop w)).
  { apply Z.mod_small. unfold INT_MAX in *. lia. }
  rewrite Hwrap.
  destruct (nwatchers loop <=? fd (io loop w)) eqn:E2; [done | lia].
Qed.

Lemma uv__io_stop_never_started_witness :
  uv__io_stop loop_w5 100 POLLOUT = Some loop_w5 ∧
  uv__io_stop (write_io loop0 100 (Build_io 7 (-1) 0 0)) 100 POLLIN
  = Some (write_io loop0 100 (Build_io 7 (-1) 0 0)).
Proof.
  split.
  - apply (uv__io_stop_never_started loop_w5 100 POLLOUT);
      [done | simpl; lia | unfold INT_MAX; simpl; lia | right; simpl; lia].
  - apply (uv__io_stop_never_started
             (write_io loop0 100 (Build_io 7 (-1) 0 0)) 100 POLLIN);
      [done | simpl; lia | unfold INT_MAX; simpl; lia | left; reflexivity].
Defined.

Lemma maybe_resize_spec_witness :
  ∃ loop', maybe_resize loop_small 6 = Some loop' ∧ nwatchers loop' = 6 ∧
           slot loop' 1 = Some 100 ∧ slot loop' 5 = Some NULL ∧
           slot loop' 6 = Some 4096 ∧ slot loop' 7 = Some 3.
Proof.
  assert (Hwf : table_wf loop_small) by (split; [cbn; lia | reflexivity]).
  destruct (maybe_resize_spec loop_small 6 Hwf) as (Hsome & Hret & _);
    [lia | cbn; lia |].
  destruct Hsome as [l' Hl']; [lia |]. exists l'.
  destruct (Hret l' Hl') as (Hn & _ & _ & Hold & Hnew & Ht1 & Ht2).
  change (next_power_of_two (6 + 2) - 2) with 6 in Hn.
  rewrite Hn in Hnew, Ht1, Ht2.
  split; [exact Hl' |]. split; [exact Hn |].
  split; [apply (Hold 1); cbn; lia |].
  split; [apply (Hnew 5); cbn; lia |].
  split; [exact Ht1 | exact Ht2].
Defined.

(** ** uv_backend_timeout *)

Lemma heap_min_None h : heap_min h = None ↔ h = [].
Proof.
  destruct h as [| t h]; [done |]. simpl.
  destruct (heap_min h); split; intros; discriminate.
Qed.

Lemma timer_le_refl t : timer_le t t = true.
Proof. unfold timer_le. lia. Qed.

Lemma heap_min_least h m :
  heap_min h = Some m → m ∈ h ∧ ∀ u, u ∈ h → timer_le m u = true.
Proof.
  revert m. induction h as [| t h IH]; intros m H; [done |].
  simpl in H. destruct (heap_min h) as [m' |] eqn:Hm.
  - destruct (IH m' eq_refl) as [Hin Hle].
    destruct (timer_le t m') eqn:Ht; injection H as <-.
    + split; [apply list_elem_of_here |].
      intros u Hu. apply elem_of_cons in Hu as [-> | Hu].
      * apply timer_le_refl.
      * specialize (Hle u Hu). unfold timer_le in *. lia.
    + split; [by apply list_elem_of_further |].
      intros u Hu. apply elem_of_cons in Hu as [-> | Hu]; [| by apply Hle].
      unfold timer_le in *. lia.
  - injection H as <-. apply heap_min_None in Hm as ->.
    split; [apply list_elem_of_here |].
    intros u Hu. apply list_elem_of_singleton in Hu as ->.
    apply timer_le_refl.
Qed.

Lemma heap_min_earliest h m t :
  heap_min h = Some m → earliest h t → t.1 = m.1.
Proof.
  intros [Hin Hle]%heap_min_least [Ht Hmin].
  specialize (Hle t Ht). specialize (Hmin m Hin).
  unfold timer_le in Hle. lia.
Qed.

(** C1.  uv_backend_timeout returns 0 when stop_flag is set, or there are
    neither active handles nor active requests, or the idle queue or the
    pending queue is non-empty, or closing_handles is non-null.  Otherwise
    it returns -1 (block without limit) when there is no timer, and else
    the time from [time] to the earliest deadline, or 0 if that deadline
    has passed; this value is never negative. *)
Theorem uv_backend_timeout_spec loop :
  (stop_flag loop ≠ 0 ∨
   (uv__has_active_handles loop = false ∧ uv__has_active_reqs loop = false) ∨
   idle_handles loop ≠ [] ∨ pending_queue loop ≠ [] ∨
   closing_handles loop ≠ NULL →
   uv_backend_timeout loop = 0) ∧
  (stop_flag loop = 0 →
   uv__has_active_handles loop = true ∨ uv__has_active_reqs loop = true →
   idle_handles loop = [] → pending_queue loop = [] →
   closing_handles loop = NULL →
   (timer_heap loop = [] → uv_backend_timeout loop = -1) ∧
   (∀ t, earliest (timer_heap loop) t →
      uv_backend_timeout loop = Z.max 0 (t.1 - time loop) ∧
      0 ≤ uv_backend_timeout loop)).
Proof.
  unfold uv_backend_timeout. split.
  - intros H. destruct (stop_flag loop =? 0) eqn:Es; [| done]. cbn [negb].
    destruct (uv__has_active_handles loop) eqn:Eh,
             (uv__has_active_reqs loop) eqn:Er; cbn [negb andb]; try done;
    (destruct (idle_handles loop) as [| ? ?] eqn:Ei; cbn [QUEUE_EMPTY negb];
       [| done];
     destruct (pending_queue loop) as [| ? ?] eqn:Ep; cbn [QUEUE_EMPTY negb];
       [| done];
     destruct (closing_handles loop =? NULL) eqn:Ec; cbn [negb]; [| done];
     exfalso; destruct H as [H | [[H1 H2] | [H | [H | H]]]];
       try done; try lia).
  - intros Hs Ha Hi Hp Hc. rewrite Hs, Hi, Hp, Hc. cbn.
    assert (Hact : negb (uv__has_active_handles loop)
                   && negb (uv__has_active_reqs loop) = false).
    { destruct Ha as [-> | ->]; [done | apply andb_false_r]. }
    rewrite Hact. unfold uv__next_timeout. split.
    + intros ->. done.
    + intros t Ht. destruct (heap_min (timer_heap loop)) as [m |] eqn:Hm.
      * rewrite (heap_min_earliest _ _ _ Hm Ht). lia.
      * apply heap_min_None in Hm. destruct Ht as [Ht _].
        rewrite Hm in Ht. by apply elem_of_nil in Ht.
Qed.

Lemma uv_backend_timeout_spec_witness :
  uv_backend_timeout loop_timers = 6 ∧
  uv_backend_timeout (set_stop_flag loop_timers 1) = 0.
Proof.
  split.
  - destruct (uv_backend_timeout_spec loop_timers) as [_ H].
    destruct H as [_ H]; [reflexivity | by left | reflexivity ..|].
    destruct (H (10, 2)) as [Heq _]; [| rewrite Heq; reflexivity].
    split; [apply list_elem_of_further, list_elem_of_here |].
    intros u Hu. apply elem_of_cons in Hu as [-> | Hu]; [cbn; lia |].
    apply list_elem_of_singleton in Hu as ->. cbn; lia.
  - apply (proj1 (uv_backend_timeout_spec _)). left. cbn. lia.
Defined.

(** ** Outcomes *)

Lemma outcome_bind_Done {A B} (m : outcome A) (f : A → outcome B) b :
  m ≫= f = Done b → ∃ a, m = Done a ∧ f a = Done b.
Proof. destruct m as [a | |]; [by exists a | done | done]. Qed.

Lemma outcome_bind_Done_eq {A B} (f : A → outcome B) a : Done a ≫= f = f a.
Proof. reflexivity. Qed.

Lemma check_Done b u : check b = Done u → b = true.
Proof. by destruct b. Qed.

Lemma check_true b : b = true → check b = Done ().
Proof. by intros ->. Qed.

Lemma of_option_Done {A} (o : option A) a : of_option o = Done a → o = Some a.
Proof. destruct o; [by intros [= ->] | done]. Qed.

Section PhaseProperties.

Context {X : externals} (P : program X).

Lemma extern_Done f (st st' : @state X) :
  extern f st = Done st' →
  ∃ s, f (os st, lp st) = Some s ∧ st' = with_sys st s.
Proof.
  unfold extern. intros (s & Hs%of_option_Done & [= <-])%outcome_bind_Done.
  by exists s.
Qed.

Lemma extern_tr f (st st' : @state X) : extern f st = Done st' → tr st' = tr st.
Proof. by intros (s & _ & ->)%extern_Done. Qed.

Lemma call_io_tr (st st' : @state X) w ev :
  call_io P st w ev = Done st' →
  tr st' = tr st ++ [CallIo (cb (io (lp st) w)) w ev].
Proof. unfold call_io. by intros ->%extern_tr. Qed.

Lemma publish_tr (st st' : @state X) a b :
  publish st a b = Done st' → tr st' = tr st.
Proof.
  unfold publish.
  intros (t0 & _ & (t1 & _ & (t2 & _ & [= <-])%outcome_bind_Done)
            %outcome_bind_Done)%outcome_bind_Done.
  done.
Qed.

(** ** uv__io_poll *)

(** C9.  When [nfds] is 0, uv__io_poll returns at once for every timeout:
    no wait, no callback, and kernel, loop (so also [time]) and call trace
    are exactly as before.  It returns provided watcher_queue is empty,
    which the code asserts. *)
Theorem uv__io_poll_no_fds fuel (st : @state X) timeout :
  nfds (lp st) = 0 →
  (watcher_queue (lp st) = [] → uv__io_poll P fuel st timeout = Done st) ∧
  (∀ st', uv__io_poll P fuel st timeout = Done st' → st' = st) ∧
  uv__io_poll P fuel st timeout ≠ OutOfFuel.
Proof.
  intros Hn. unfold uv__io_poll. rewrite Hn. cbn [Z.eqb].
  destruct (watcher_queue (lp st)) as [| w q]; cbn.
  - split; [done |]. split; [by intros st' [= <-] | done].
  - split; [done |]. split; done.
Qed.

End PhaseProperties.

Lemma uv__io_poll_no_fds_witness :
  uv__io_poll closing_program 0 (@Build_state scripted [[]] loop_w5 []) (-1)
  = Done (@Build_state scripted [[]] loop_w5 []).
Proof.
  apply (uv__io_poll_no_fds closing_program 0
           (@Build_state scripted [[]] loop_w5 []) (-1));
    reflexivity.
Defined.

(** ** The mask a callback is called with *)

Lemma ready_mask_within returned pev :
  Z.land (ready_mask returned pev) (Z.lor (Z.lor pev POLLERR) POLLHUP)
  = ready_mask returned pev.
Proof.
  unfold ready_mask.
  set (x := Z.lor (Z.lor pev POLLERR) POLLHUP).
  assert (H1 : Z.land (Z.land returned x) x = Z.land returned x).
  { by rewrite <- Z.land_assoc, Z.land_diag. }
  destruct ((Z.land returned x =? POLLERR) || (Z.land returned x =? POLLHUP));
    [| exact H1].
  rewrite Z.land_lor_distr_l, H1. f_equal.
  apply Z.bits_inj'; intros i Hi. unfold x.
  rewrite !Z.land_spec, !Z.lor_spec.
  destruct (Z.testbit pev i), (Z.testbit IO_MASK i); reflexivity.
Qed.

Section Dispatch.

Context {X : externals} (P : program X).

(** C2, as amended.  For a ready event of an ordinary watcher (not the
    signal io-watcher) with desired mask [M = pevents], whose returned
    events masked with [M | POLLERR | POLLHUP] are not zero, the callback
    is called, and with this mask: the masked events themselves, unless
    they are exactly POLLERR or exactly POLLHUP, in which case the
    watcher's bits [M & (POLLIN | POLLOUT | UV__POLLRDHUP | UV__POLLPRI)]
    are or-ed in.  Either way the callback sees no bit outside
    [M | POLLERR | POLLHUP]. *)
Theorem dispatch_event_delivers (st : @state X) i have_signals nevents pe tbl w :
  poll_events (lp st) !! Z.to_nat i = Some pe →
  0 ≤ ev_fd pe < nwatchers (lp st) → ev_fd pe < 2 ^ 32 →
  watchers (lp st) = Some tbl → load tbl (ev_fd pe) = Some w →
  w ≠ NULL → w ≠ signal_io_watcher X →
  let M := pevents (io (lp st) w) in
  let masked := Z.land (ev_events pe) (Z.lor (Z.lor M POLLERR) POLLHUP) in
  masked ≠ 0 →
  ∃ delivered,
    dispatch_event P st i have_signals nevents
    = (st' ← call_io P
               (with_lp st
                  (set_poll_events (lp st)
                     (<[Z.to_nat i := Build_event delivered (ev_fd pe)]>
                        (poll_events (lp st)))))
               w delivered;
       Done (st', have_signals, nevents + 1)) ∧
    (masked = POLLERR ∨ masked = POLLHUP →
     delivered = Z.lor masked (Z.land M IO_MASK)) ∧
    (masked ≠ POLLERR → masked ≠ POLLHUP → delivered = masked) ∧
    Z.land delivered (Z.lor (Z.lor M POLLERR) POLLHUP) = delivered.
Proof.
  intros Hpe Hfd Hfd32 Htbl Hw Hnull Hsig M masked Hmasked.
  exists (ready_mask (ev_events pe) M).
  assert (Hrm : ready_mask (ev_events pe) M ≠ 0).
  { unfold ready_mask. fold masked.
    destruct ((masked =? POLLERR) || (masked =? POLLHUP)); [| done].
    intros [? _]%Z.lor_eq_0_iff. done. }
  split; [| split; [| split]].
  - unfold dispatch_event. rewrite Hpe. cbn [of_option].
    rewrite outcome_bind_Done_eq.
    destruct (ev_fd pe =? -1) eqn:E1; [lia |].
    rewrite (check_true (0 <=? ev_fd pe)) by lia.
    rewrite outcome_bind_Done_eq.
    assert (Hwrap : wrap32 (ev_fd pe) = ev_fd pe) by (apply Z.mod_small; lia).
    rewrite Hwrap. rewrite (check_true (ev_fd pe <? nwatchers (lp st))) by lia.
    rewrite outcome_bind_Done_eq, Htbl. cbn [of_option].
    rewrite outcome_bind_Done_eq, Hw. cbn [of_option].
    rewrite outcome_bind_Done_eq.
    destruct (w =? NULL) eqn:E2; [lia |].
    fold M. destruct (ready_mask (ev_events pe) M =? 0) eqn:E3; [lia |].
    destruct (w =? signal_io_watcher X) eqn:E4; [lia |].
    reflexivity.
  - intros Hor. unfold ready_mask. fold masked.
    destruct Hor as [-> | ->]; [reflexivity |].
    by rewrite Z.eqb_refl, orb_true_r.
  - intros H1 H2. unfold ready_mask. fold masked.
    destruct (masked =? POLLERR) eqn:E1; [lia |].
    destruct (masked =? POLLHUP) eqn:E2; [lia | reflexivity].
  - apply ready_mask_within.
Qed.

End Dispatch.

(** C2, the claim as stated fails: when the masked result is
    POLLERR | POLLHUP, error and hangup bits only, a watcher waiting for
    POLLIN gets its callback with POLLERR | POLLHUP and without POLLIN. *)
Lemma err_and_hup_not_promoted :
  match poll_err_hup with
  | Done st => tr st = [Wait 0; CallIo 7 100 (Z.lor POLLERR POLLHUP)]
  | _ => False
  end ∧
  pevents (io started_w5 100) = POLLIN ∧
  Z.land (Z.lor POLLERR POLLHUP) (Z.lnot (Z.lor POLLERR POLLHUP)) = 0 ∧
  Z.land (Z.lor POLLERR POLLHUP) POLLIN = 0.
Proof. vm_compute. repeat split. Qed.

Lemma dispatch_event_delivers_witness :
  ∃ delivered,
    dispatch_event closing_program
      (@Build_state scripted [] (set_poll_events started_w5 [Build_event POLLHUP 5]) [])
      0 false 0
    = (st' ← call_io closing_program
               (@Build_state scripted []
                  (set_poll_events started_w5 [Build_event delivered 5]) [])
               100 delivered;
       Done (st', false, 1)) ∧
    delivered = Z.lor POLLHUP POLLIN.
Proof.
  destruct (dispatch_event_delivers closing_program
              (@Build_state scripted []
                 (set_poll_events started_w5 [Build_event POLLHUP 5]) [])
              0 false 0 (Build_event POLLHUP 5)
              [0; 0; 0; 0; 0; 100; 0; 0] 100)
    as (delivered & Heq & Hprom & _).
  - reflexivity.
  - vm_compute. split; [discriminate | reflexivity].
  - vm_compute. reflexivity.
  - vm_compute. reflexivity.
  - vm_compute. reflexivity.
  - vm_compute. discriminate.
  - vm_compute. discriminate.
  - vm_compute. discriminate.
  - exists delivered. split; [exact Heq |]. apply Hprom. right. reflexivity.
Defined.

Section SignalLast.

Context {X : externals} (P : program X).

Lemma dispatch_event_tr (st : @state X) i hs nev st' hs' nev' :
  dispatch_event P st i hs nev = Done (st', hs', nev') →
  (∃ t, tr st' = tr st ++ t ∧ Forall (ordinary (signal_io_watcher X)) t) ∧
  (hs = true → hs' = true).
Proof.
  unfold dispatch_event. intros H.
  apply outcome_bind_Done in H as (pe & _ & H).
  destruct (ev_fd pe =? -1).
  { injection H as <- <- <-. split; [| done].
    exists []. by rewrite app_nil_r. }
  apply outcome_bind_Done in H as ([] & _ & H).
  apply outcome_bind_Done in H as ([] & _ & H).
  apply outcome_bind_Done in H as (tbl & _ & H).
  apply outcome_bind_Done in H as (w & _ & H).
  destruct (w =? NULL).
  { destruct (epoll_ctl X _ _ _ _ _) as [k e].
    injection H as <- <- <-. split; [| done].
    exists []. by rewrite app_nil_r. }
  destruct (ready_mask _ _ =? 0).
  { injection H as <- <- <-. split; [| done].
    exists []. by rewrite app_nil_r. }
  destruct (w =? signal_io_watcher X) eqn:Esig.
  { injection H as <- <- <-. split; [| done].
    exists []. by rewrite app_nil_r. }
  apply outcome_bind_Done in H as (st2 & Hcall & H).
  injection H as <- <- <-. split; [| done].
  apply call_io_tr in Hcall. eexists. split; [exact Hcall |].
  apply Forall_singleton. simpl. lia.
Qed.

(** An event of the signal io-watcher raises have_signals and calls
    nothing. *)
Lemma dispatch_event_signal (st : @state X) i hs nev pe tbl :
  poll_events (lp st) !! Z.to_nat i = Some pe →
  0 ≤ ev_fd pe < nwatchers (lp st) → ev_fd pe < 2 ^ 32 →
  watchers (lp st) = Some tbl →
  load tbl (ev_fd pe) = Some (signal_io_watcher X) →
  signal_io_watcher X ≠ NULL →
  ready_mask (ev_events pe) (pevents (io (lp st) (signal_io_watcher X))) ≠ 0 →
  ∃ st', dispatch_event P st i hs nev = Done (st', true, nev + 1) ∧
         tr st' = tr st ∧ os st' = os st.
Proof.
  intros Hpe Hfd Hfd32 Htbl Hw Hnull Hmask.
  unfold dispatch_event. rewrite Hpe. cbn [of_option].
  rewrite outcome_bind_Done_eq.
  destruct (ev_fd pe =? -1) eqn:E1; [lia |].
  rewrite (check_true (0 <=? ev_fd pe)) by lia.
  rewrite outcome_bind_Done_eq.
  assert (Hwrap : wrap32 (ev_fd pe) = ev_fd pe) by (apply Z.mod_small; lia).
  rewrite Hwrap. rewrite (check_true (ev_fd pe <? nwatchers (lp st))) by lia.
  rewrite outcome_bind_Done_eq, Htbl. cbn [of_option].
  rewrite outcome_bind_Done_eq, Hw. cbn [of_option].
  rewrite outcome_bind_Done_eq.
  destruct (signal_io_watcher X =? NULL) eqn:E2; [lia |].
  destruct (ready_mask _ _ =? 0) eqn:E3; [lia |].
  rewrite Z.eqb_refl. eexists. split; [reflexivity |]. done.
Qed.

Lemma dispatch_tr n : ∀ i (st : @state X) hs nev st' hs' nev',
  dispatch P n i st hs nev = Done (st', hs', nev') →
  (∃ t, tr st' = tr st ++ t ∧ Forall (ordinary (signal_io_watcher X)) t) ∧
  (hs = true → hs' = true).
Proof.
  induction n as [| n IH]; intros i st hs nev st' hs' nev' H; simpl in H.
  - injection H as <- <- <-. split; [| done].
    exists []. by rewrite app_nil_r.
  - apply outcome_bind_Done in H as ([[st1 hs1] nev1] & H1 & H).
    apply dispatch_event_tr in H1 as [(t1 & Ht1 & Ho1) Hm1].
    apply IH in H as [(t2 & Ht2 & Ho2) Hm2].
    split; [| tauto].
    exists (t1 ++ t2). split; [by rewrite Ht2, Ht1, app_assoc |].
    by apply Forall_app.
Qed.

Lemma wait_step_tr (st : @state X) psigset timeout stw n errno :
  wait_step st psigset timeout = (stw, n, errno) →
  tr stw = tr st ++ [Wait timeout].
Proof.
  unfold wait_step, uv__update_time. cbn [os lp tr log].
  destruct (epoll_pwait X _ _ _ _ _) as [k [[nfds evs] e]].
  cbn [os lp tr]. destruct (uv__hrtime X k) as [k' ns].
  by intros [= <- _ _].
Qed.

Lemma outcome_bind_Done_r {A} (m : outcome A) : m ≫= Done = m.
Proof. by destruct m. Qed.

(** Whatever the callbacks do: in a round of the poll loop whose dispatch
    loop ends with have_signals set, the calls made are the one wait, then
    callbacks of ordinary watchers only, then, after the dispatch loop,
    the callback of the signal io-watcher, once and with POLLIN; after it
    uv__io_poll returns, with no further wait. *)
Lemma poll_round_signal_last fuel (st : @state X) psigset timeout
    real_timeout base count stw n errno stp std nev :
  wait_step st psigset (@cap_timeout X timeout) = (stw, n, errno) →
  n ≠ 0 → n ≠ -1 → is_Some (watchers (lp stw)) →
  publish stw (events_addr X) n = Done stp →
  dispatch P (Z.to_nat n) 0 stp false 0 = Done (std, true, nev) →
  let sig := signal_io_watcher X in
  let c := cb (io (lp std) sig) in
  (∃ t, tr std = tr st ++ Wait (@cap_timeout X timeout) :: t ∧
        Forall (ordinary sig) t) ∧
  poll_loop P (S fuel) st psigset timeout real_timeout base count
  = (st2 ← call_signal P std; publish st2 NULL NULL) ∧
  (∀ st', poll_loop P (S fuel) st psigset timeout real_timeout base count
          = Done st' →
     ∃ t, tr st' = tr st ++ Wait (@cap_timeout X timeout) :: t
                     ++ [CallIo c sig POLLIN] ∧
          Forall (ordinary sig) t).
Proof.
  intros Hwait Hn0 Hn1 Hsome Hpub Hdisp sig c.
  assert (Htr : ∃ t, tr std = tr st ++ Wait (@cap_timeout X timeout) :: t ∧
                     Forall (ordinary sig) t).
  { apply dispatch_tr in Hdisp as [(t & Ht & Ho) _].
    apply publish_tr in Hpub. apply wait_step_tr in Hwait.
    exists t. split; [| done].
    by rewrite Ht, Hpub, Hwait, <- app_assoc. }
  assert (Heq : poll_loop P (S fuel) st psigset timeout real_timeout base count
                = (st2 ← call_signal P std; publish st2 NULL NULL)).
  { cbn [poll_loop]. unfold poll_round. rewrite Hwait.
    destruct (n =? 0) eqn:E0; [lia |]. destruct (n =? -1) eqn:E1; [lia |].
    rewrite (check_true (bool_decide (is_Some (watchers (lp stw)))))
      by (by apply bool_decide_eq_true).
    rewrite outcome_bind_Done_eq, Hpub, outcome_bind_Done_eq, Hdisp.
    rewrite outcome_bind_Done_eq.
    destruct (call_signal P std) as [st2 | |]; [| done | done].
    rewrite !outcome_bind_Done_eq.
    destruct (publish st2 NULL NULL) as [st3 | |]; done. }
  split; [exact Htr |]. split; [exact Heq |].
  intros st' Hdone. rewrite Heq in Hdone.
  apply outcome_bind_Done in Hdone as (st2 & Hsig & Hpub2).
  apply publish_tr in Hpub2. unfold call_signal in Hsig.
  apply extern_tr in Hsig. cbn [tr log] in Hsig.
  destruct Htr as (t & Ht & Ho). exists t. split; [| done].
  rewrite Hpub2, Hsig, Ht, <- app_assoc. reflexivity.
Qed.

End SignalLast.

(** The same poll, call by call: the data watcher's callback runs before
    the signal watcher's although the kernel reported the signal fd
    first. *)
Example sig_poll_trace :
  tr (done_or sig_poll_start
        (poll_loop closing_program 1 sig_poll_start false (-1) (-1) 0 48))
  = [Wait (-1); CallIo 7 100 POLLIN; CallIo 11 1000 POLLIN].
Proof. vm_compute. reflexivity. Qed.

Section Run.

Context {X : externals} (P : program X).

Lemma uv__update_time_stop_flag (st : @state X) :
  stop_flag (lp (uv__update_time st)) = stop_flag (lp st).
Proof.
  unfold uv__update_time. by destruct (uv__hrtime X (os st)) as [k ns].
Qed.

Lemma uv__update_time_alive (st : @state X) :
  uv__loop_alive (lp (uv__update_time st)) = uv__loop_alive (lp st).
Proof.
  unfold uv__update_time. by destruct (uv__hrtime X (os st)) as [k ns].
Qed.

Lemma run_loop_not_entered fuel gas (st : @state X) mode r :
  r = false ∨ stop_flag (lp st) ≠ 0 →
  run_loop P fuel gas st mode r = Done (st, r).
Proof.
  intros H. destruct fuel; simpl.
  - destruct H as [-> | H]; [done |].
    destruct (stop_flag (lp st) =? 0) eqn:E; [lia |]. by rewrite andb_false_r.
  - destruct H as [-> | H]; [done |].
    destruct (stop_flag (lp st) =? 0) eqn:E; [lia |]. by rewrite andb_false_r.
Qed.

(** C8.  Whenever uv_run returns, for every state, mode and value of
    stop_flag at entry, stop_flag is 0.  It does return, without entering
    its loop, when the loop is not alive or stop_flag is set at entry. *)
Theorem uv_run_clears_stop_flag fuel gas (st : @state X) mode :
  (∀ st' r, uv_run P fuel gas st mode = Done (st', r) →
            stop_flag (lp st') = 0) ∧
  (uv__loop_alive (lp st) = false ∨ stop_flag (lp st) ≠ 0 →
   ∃ st' r, uv_run P fuel gas st mode = Done (st', r) ∧
            stop_flag (lp st') = 0).
Proof.
  assert (Hclear : ∀ (s : @state X),
            stop_flag (lp (if negb (stop_flag (lp s) =? 0)
                           then with_lp s (set_stop_flag (lp s) 0) else s)) = 0).
  { intros s. destruct (stop_flag (lp s) =? 0) eqn:E; simpl; [lia | done]. }
  split.
  - intros st' r. unfold uv_run.
    intros ([s1 r1] & _ & [= <- _])%outcome_bind_Done. apply Hclear.
  - intros H. unfold uv_run.
    set (s0 := if uv__loop_alive (lp st) then st else uv__update_time st).
    assert (Hs0 : uv__loop_alive (lp st) = false ∨ stop_flag (lp s0) ≠ 0).
    { destruct H as [H | H]; [by left |]. unfold s0.
      destruct (uv__loop_alive (lp st)); [by right | by left]. }
    rewrite run_loop_not_entered by exact Hs0.
    rewrite outcome_bind_Done_eq. eexists _, _. split; [reflexivity |].
    apply Hclear.
Qed.

End Run.

Lemma uv_run_clears_stop_flag_witness :
  ∃ st' r,
    uv_run closing_program 1 10 (@Build_state scripted [] loop_close [])
      UV_RUN_NOWAIT = Done (st', r) ∧
    stop_flag (lp st') = 0.
Proof.
  destruct (uv_run closing_program 1 10 (@Build_state scripted [] loop_close [])
              UV_RUN_NOWAIT) as [[st' r] | |] eqn:Hrun;
    [| vm_compute in Hrun; discriminate ..].
  exists st', r. split; [reflexivity |].
  apply (proj1 (uv_run_clears_stop_flag closing_program 1 10
                  (@Build_state scripted [] loop_close []) UV_RUN_NOWAIT)
               st' r).
  exact Hrun.
Defined.

(** ** The closing phase *)

Lemma closing_chain_ext l l' p hs :
  closing_chain l p hs → (∀ h, h ∈ hs → handles l' h = handles l h) →
  closing_chain l' p hs.
Proof.
  induction 1 as [| h hs Hh Hc IH]; intros Hext; [constructor |].
  constructor; [done |].
  rewrite (Hext h) by apply list_elem_of_here.
  apply IH. intros h' Hh'. apply Hext. by apply list_elem_of_further.
Qed.

Lemma closing_chain_functional l p hs1 :
  closing_chain l p hs1 → ∀ hs2, closing_chain l p hs2 → hs1 = hs2.
Proof.
  induction 1 as [| h hs Hh Hc IH]; intros hs2 H2.
  - inversion H2 as [| h' hs' Hh' Hc' Heq]; [done | by subst].
  - inversion H2 as [Heq | h' hs' Hh' Hc' Heq]; [by subst | subst].
    f_equal. by apply IH.
Qed.

Lemma closing_chain_suffix l p hs :
  closing_chain l p hs → ∀ h, h ∈ hs →
  ∃ hs1 hs2, hs = hs1 ++ h :: hs2 ∧ closing_chain l h (h :: hs2).
Proof.
  induction 1 as [| h0 hs Hh Hc IH]; intros h Hin.
  - by apply elem_of_nil in Hin.
  - apply elem_of_cons in Hin as [-> | Hin].
    + exists [], hs. split; [done |]. by constructor.
    + destruct (IH h Hin) as (hs1 & hs2 & -> & Hch).
      exists (h0 :: hs1), hs2. done.
Qed.

Lemma closing_chain_NoDup l p hs : closing_chain l p hs → NoDup hs.
Proof.
  induction 1 as [| h hs Hh Hc IH]; [constructor |].
  constructor; [| done]. intros Hin.
  destruct (closing_chain_suffix _ _ _ Hc h Hin) as (hs1 & hs2 & -> & Hch).
  pose proof (closing_chain_functional _ _ _ Hch _
                (chain_link l h _ Hh Hc)) as Heq.
  apply (f_equal length) in Heq. simpl in Heq.
  rewrite length_app in Heq. simpl in Heq. lia.
Qed.

Lemma close_calls_ext l l' hs :
  (∀ h, h ∈ hs → handles l' h = handles l h) →
  close_calls l' hs = close_calls l hs.
Proof.
  induction hs as [| h hs IH]; intros Hext; [done |].
  unfold close_calls in *. simpl.
  rewrite (Hext h) by apply list_elem_of_here. f_equal.
  apply IH. intros h' Hh'. apply Hext. by apply list_elem_of_further.
Qed.

Lemma close_calls_only l hs c h :
  CallClose c h ∈ close_calls l hs → h ∈ hs.
Proof.
  unfold close_calls. intros (h' & Hh' & Hin)%list_elem_of_In%in_flat_map.
  destruct (close_cb (handles l h') =? NULL); [done |].
  destruct Hin as [[= _ <-] | []]. by apply list_elem_of_In.
Qed.

Section Closing.

Context {X : externals} (P : program X).

Lemma extern_fuel f (st : @state X) : extern f st ≠ OutOfFuel.
Proof. unfold extern. by destruct (f (os st, lp st)). Qed.

Lemma uv__finish_close_fuel (st : @state X) h :
  uv__finish_close P st h ≠ OutOfFuel.
Proof.
  unfold uv__finish_close, check.
  destruct (has_flag _ UV_HANDLE_CLOSING); [| discriminate].
  rewrite outcome_bind_Done_eq.
  destruct (negb _); [| discriminate].
  rewrite outcome_bind_Done_eq.
  match goal with |- (?m ≫= _) ≠ _ =>
    assert (Hm : m ≠ OutOfFuel);
    [| destruct m as [s | |]; [| discriminate | done]] end.
  { destruct (type _); try discriminate; apply extern_fuel. }
  rewrite outcome_bind_Done_eq. cbv zeta.
  destruct (_ =? NULL); [discriminate | apply extern_fuel].
Qed.

Lemma uv__finish_close_spec (st st' : @state X) h :
  closing_discipline P → awaiting_close (lp st) h →
  uv__finish_close P st h = Done st' →
  tr st' = tr st ++ close_calls (lp st) [h] ∧
  ∀ h', h' ≠ h → awaiting_close (lp st) h' →
        handles (lp st') h' = handles (lp st) h'.
Proof.
  intros (Hsd & Hud & Hun & Hcb) [Hcl Hnc] H. unfold uv__finish_close in H.
  apply outcome_bind_Done in H as ([] & _ & H).
  apply outcome_bind_Done in H as ([] & _ & H).
  set (la := write_handle (lp st) h
               (set_flags (handles (lp st) h)
                  (Z.lor (flags (handles (lp st) h)) UV_HANDLE_CLOSED))) in *.
  assert (Hla : ∀ h', h' ≠ h → handles la h' = handles (lp st) h').
  { intros h' Hne. by apply upd_ne. }
  assert (Hlac : close_cb (handles la h) = close_cb (handles (lp st) h)).
  { unfold la, write_handle. cbn [handles set_handles]. by rewrite upd_eq. }
  apply outcome_bind_Done in H as (sb & Hb & H).
  assert (Hsb : tr sb = tr st ∧
                (∀ h', h' ≠ h → awaiting_close (lp st) h' →
                       handles (lp sb) h' = handles (lp st) h') ∧
                close_cb (handles (lp sb) h) = close_cb (handles (lp st) h)).
  { assert (Hext : ∀ f, spares_closing f ∧ keeps_close_cb f →
              extern f (with_lp st la) = Done sb →
              tr sb = tr st ∧
              (∀ h', h' ≠ h → awaiting_close (lp st) h' →
                     handles (lp sb) h' = handles (lp st) h') ∧
              close_cb (handles (lp sb) h) = close_cb (handles (lp st) h)).
    { intros f [Hsp Hk] (s & Hs & ->)%extern_Done. split; [done |]. split.
      - intros h' Hne Haw. cbn [lp with_sys].
        rewrite (Hsp _ _ h' Hs); cbn [snd lp with_lp]; [by apply Hla |].
        unfold awaiting_close. by rewrite Hla.
      - cbn [lp with_sys]. by rewrite (Hk _ _ h Hs). }
    assert (Hid : Done (with_lp st la) = Done sb →
              tr sb = tr st ∧
              (∀ h', h' ≠ h → awaiting_close (lp st) h' →
                     handles (lp sb) h' = handles (lp st) h') ∧
              close_cb (handles (lp sb) h) = close_cb (handles (lp st) h)).
    { intros [= <-]. split; [done |]. split; [| done].
      intros h' Hne _. by apply Hla. }
    destruct (type (handles (lp (with_lp st la)) h));
      try (by apply Hid); try done.
    - by apply (Hext _ (Hsd h)).
    - by apply (Hext _ (Hsd h)).
    - by apply (Hext _ (Hsd h)).
    - by apply (Hext _ (Hud h)). }
  destruct Hsb as (Htrb & Hfrb & Hcbb). cbv zeta in H.
  set (sd := with_lp
               (with_lp sb (uv__handle_unref X h (lp sb)))
               (set_handle_queue (lp (with_lp sb (uv__handle_unref X h (lp sb))))
                  (QUEUE_REMOVE h
                     (handle_queue
                        (lp (with_lp sb (uv__handle_unref X h (lp sb)))))))) in *.
  assert (Hsd' : tr sd = tr st ∧
                 (∀ h', h' ≠ h → awaiting_close (lp st) h' →
                        handles (lp sd) h' = handles (lp st) h') ∧
                 close_cb (handles (lp sd) h) = close_cb (handles (lp st) h)).
  { unfold sd. cbn [tr lp with_lp handles set_handle_queue].
    split; [done |]. split.
    - intros h' Hne Haw. rewrite (proj1 (Hun h (lp sb) h')) by done.
      by apply Hfrb.
    - rewrite (proj2 (Hun h (lp sb) h)). done. }
  clearbody sd. destruct Hsd' as (Htrd & Hfrd & Hcbd).
  unfold close_calls. cbn [flat_map]. rewrite app_nil_r, <- Hcbd.
  destruct (close_cb (handles (lp sd) h) =? NULL).
  - injection H as <-. rewrite app_nil_r. done.
  - apply extern_Done in H as (s & Hs & ->). cbn [tr with_sys log lp].
    split; [by rewrite Htrd |].
    intros h' Hne Haw. rewrite (Hcb _ _ _ _ _ Hs); cbn [snd lp log].
    + by apply Hfrd.
    + unfold awaiting_close. by rewrite Hfrd.
Qed.

Lemma closing_loop_spec hs : ∀ fuel (st : @state X) p,
  closing_discipline P →
  closing_chain (lp st) p hs →
  (∀ h, h ∈ hs → awaiting_close (lp st) h) →
  ((length hs < fuel)%nat → closing_loop P fuel st p ≠ OutOfFuel) ∧
  (∀ st', closing_loop P fuel st p = Done st' →
          tr st' = tr st ++ close_calls (lp st) hs).
Proof.
  induction hs as [| h hs IH]; intros fuel st p Hd Hch Haw.
  - inversion Hch; subst. destruct fuel; simpl.
    + split; [lia |]. intros st' [= <-]. by rewrite app_nil_r.
    + split; [done |]. intros st' [= <-]. by rewrite app_nil_r.
  - pose proof (closing_chain_NoDup _ _ _ Hch) as Hnd.
    inversion Hch as [| h0 hs0 Hh Hc]; subst.
    inversion Hnd as [| ? ? Hnin Hnd']; subst.
    destruct fuel as [| fuel].
    { split; [simpl; lia |]. simpl.
      destruct (h =? NULL) eqn:E; [lia | done]. }
    cbn [closing_loop]. destruct (h =? NULL) eqn:E; [lia |].
    pose proof (uv__finish_close_fuel st h) as Hfuel.
    destruct (uv__finish_close P st h) as [st1 | |] eqn:Hfin;
      [| split; done | done].
    rewrite outcome_bind_Done_eq.
    destruct (uv__finish_close_spec st st1 h Hd
                (Haw h (list_elem_of_here _ _)) Hfin) as [Htr1 Hfr1].
    assert (Hext : ∀ h', h' ∈ hs → handles (lp st1) h' = handles (lp st) h').
    { intros h' Hin. apply Hfr1.
      - intros ->. done.
      - apply Haw. by apply list_elem_of_further. }
    destruct (IH fuel st1 (next_closing (handles (lp st) h)) Hd) as [IHf IHd].
    { by apply (closing_chain_ext (lp st)). }
    { intros h' Hin. unfold awaiting_close. rewrite Hext by done.
      apply Haw. by apply list_elem_of_further. }
    split.
    + intros Hlen. apply IHf. simpl in Hlen. lia.
    + intros st' Hdone. rewrite (IHd st' Hdone), Htr1.
      rewrite (close_calls_ext (lp st) (lp st1)) by done.
      unfold close_calls. cbn [flat_map]. rewrite app_nil_r.
      by rewrite <- app_assoc.
Qed.

End Closing.

(** uv_close, when it returns for a handle that is not a signal handle,
    has put the handle at the head of closing_handles, marked as closing
    and not closed. *)
Lemma uv_close_enqueues (X : externals) s h c s' :
  uv_close X s h c = Some s' →
  type (handles s.2 h) ≠ UV_SIGNAL →
  closing_handles s'.2 = h ∧ awaiting_close s'.2 h.
Proof.
  unfold uv_close. intros H Hns.
  apply bind_Some in H as ([] & _ & H). cbv zeta in H.
  assert (Hty : type (handles
            (write_handle
               (write_handle s.2 h
                  (set_flags (handles s.2 h)
                     (Z.lor (flags (handles s.2 h)) UV_HANDLE_CLOSING)))
               h
               (set_close_cb
                  (handles
                     (write_handle s.2 h
                        (set_flags (handles s.2 h)
                           (Z.lor (flags (handles s.2 h)) UV_HANDLE_CLOSING)))
                     h) c)) h) = type (handles s.2 h)).
  { unfold write_handle. cbn [handles set_handles]. by rewrite !upd_eq. }
  rewrite Hty in H.
  assert (Hpend : ∀ l l', uv__make_close_pending l h = Some l' →
                          closing_handles l' = h ∧ awaiting_close l' h).
  { intros l l' Hp. unfold uv__make_close_pending in Hp.
    apply bind_Some in Hp as ([] & Hc1%assert_Some & Hp).
    apply bind_Some in Hp as ([] & Hc2%assert_Some & Hp).
    injection Hp as <-. split; [reflexivity |].
    unfold awaiting_close, write_handle, has_flag.
    cbn [handles set_handles closing_handles set_closing_handles].
    rewrite upd_eq. cbn [flags set_next_closing].
    split; [exact Hc1 | by apply negb_true_iff in Hc2]. }
  destruct (type (handles s.2 h)); try done;
    apply bind_Some in H as (s1 & _ & H);
    apply bind_Some in H as (l' & Hp & H);
    injection H as <-; by apply (Hpend s1.2).
Qed.

Lemma closing_discipline_closing_program : closing_discipline closing_program.
Proof.
  assert (Hsp : spares_closing (X:=scripted) Some).
  { intros s s' h [= <-] _. reflexivity. }
  assert (Hk : keeps_close_cb (X:=scripted) Some).
  { intros s s' h [= <-]. reflexivity. }
  split; [intros h; split; [exact Hsp | exact Hk] |].
  split; [intros h; split; [exact Hsp | exact Hk] |].
  split; [intros h l h'; split; reflexivity |].
  intros c h. exact Hsp.
Qed.


(** ** The fd table under uv__io_start and uv__io_stop *)

Lemma fd_upd (m : Z → uv__io_t) w x w' :
  fd x = fd (m w) → fd (upd m w x w') = fd (m w').
Proof.
  intros Hx. unfold upd. destruct (w' =? w) eqn:E; [| done].
  apply Z.eqb_eq in E. by subst.
Qed.

(** What uv__io_start does to the table and to [nfds]. *)
Lemma uv__io_start_table loop w evs l' :
  table_wf loop → uv__io_start loop w evs = Some l' →
  0 ≤ fd (io loop w) < INT_MAX ∧
  ∃ l1,
    maybe_resize
      (write_io loop w
         (set_pevents (io loop w) (Z.lor (pevents (io loop w)) evs)))
      (fd (io loop w) + 1) = Some l1 ∧
    nwatchers l' = nwatchers l1 ∧ io l' = io l1 ∧
    ((watchers l' = watchers l1 ∧ nfds l' = nfds l1 ∧
      (events (io loop w) = Z.lor (pevents (io loop w)) evs ∨
       ∃ v, slot l1 (fd (io loop w)) = Some v ∧ v ≠ NULL)) ∨
     (∃ tbl, watchers l1 = Some tbl ∧ load tbl (fd (io loop w)) = Some NULL ∧
             watchers l' = Some (<[Z.to_nat (fd (io loop w)) := w]> tbl) ∧
             nfds l' = wrap32 (nfds l1 + 1))).
Proof.
  intros Hwf H. unfold uv__io_start in H.
  passed H. passed H. passed H. passed H. cbv zeta in H.
  set (l0 := write_io loop w
               (set_pevents (io loop w) (Z.lor (pevents (io loop w)) evs))) in *.
  assert (Hfd0 : fd (io l0 w) = fd (io loop w)).
  { unfold l0, write_io. cbn [io set_io]. by rewrite upd_eq. }
  rewrite Hfd0 in H.
  assert (Hwrap : wrap32 (fd (io loop w) + 1) = fd (io loop w) + 1).
  { apply Z.mod_small. unfold INT_MAX in *. lia. }
  rewrite Hwrap in H. split; [lia |].
  apply bind_Some in H as (l1 & Hres & H). exists l1. split; [exact Hres |].
  assert (Hio1 : io l1 = io l0).
  { apply maybe_resize_frame in Hres as (_ & _ & _ & _ & Hio1 & _);
      [done | exact Hwf | unfold INT_MAX in *; lia]. }
  assert (Hev0 : events (io l0 w) = events (io loop w) ∧
                 pevents (io l0 w) = Z.lor (pevents (io loop w)) evs).
  { unfold l0, write_io. cbn [io set_io]. by rewrite upd_eq. }
  destruct Hev0 as [Hev0 Hpev0].
  rewrite Hio1, Hev0, Hpev0 in H.
  destruct (events (io loop w) =? Z.lor (pevents (io loop w)) evs) eqn:Eev.
  { injection H as <-. split; [done |]. split; [done |]. left.
    split; [done |]. split; [done |]. left. lia. }
  set (l2 := if on_queue w (watcher_queue l1) then l1
             else set_watcher_queue l1 (QUEUE_INSERT_TAIL (watcher_queue l1) w))
    in *.
  assert (Hl2 : watchers l2 = watchers l1 ∧ io l2 = io l1 ∧
                nwatchers l2 = nwatchers l1 ∧ nfds l2 = nfds l1).
  { unfold l2. by destruct (on_queue w (watcher_queue l1)). }
  destruct Hl2 as (Hw2 & Hio2 & Hnw2 & Hnf2).
  rewrite Hw2, Hio2, Hio1, Hfd0 in H.
  apply bind_Some in H as (tbl & Htbl & H).
  apply bind_Some in H as (v & Hv & H).
  destruct (v =? NULL) eqn:Ev.
  - apply bind_Some in H as (tbl' & Hst & H). injection H as <-.
    apply store_Some in Hst as [_ ->].
    split; [exact Hnw2 |]. split; [exact Hio2 |]. right. exists tbl.
    assert (v = NULL) as -> by lia.
    split; [done |]. split; [done |]. split; [done |].
    cbn [nfds set_nfds]. by rewrite Hnf2.
  - injection H as <-. split; [exact Hnw2 |]. split; [exact Hio2 |]. left.
    split; [done |]. split; [done |]. right. exists v.
    unfold slot. rewrite Htbl. simpl. split; [done |]. unfold NULL in *. lia.
Qed.

(** What uv__io_stop does to the table and to [nfds]. *)
Lemma uv__io_stop_table loop w evs l' :
  uv__io_stop loop w evs = Some l' →
  nwatchers l' = nwatchers loop ∧
  (∀ w', fd (io l' w') = fd (io loop w')) ∧
  (0 ≤ fd (io loop w) → wrap32 (fd (io loop w)) < nwatchers loop →
   pevents (io l' w) = Z.land (pevents (io loop w)) (not32 evs)) ∧
  ((watchers l' = watchers loop ∧ nfds l' = nfds loop ∧
    (fd (io loop w) = -1 ∨ nwatchers loop ≤ wrap32 (fd (io loop w)) ∨
     Z.land (pevents (io loop w)) (not32 evs) ≠ 0 ∨
     slot loop (fd (io loop w)) = Some NULL)) ∨
   (∃ tbl, watchers loop = Some tbl ∧
           0 ≤ fd (io loop w) ∧ wrap32 (fd (io loop w)) < nwatchers loop ∧
           load tbl (fd (io loop w)) = Some w ∧ w ≠ NULL ∧ 0 < nfds loop ∧
           watchers l' = Some (<[Z.to_nat (fd (io loop w)) := NULL]> tbl) ∧
           nfds l' = nfds loop - 1)).
Proof.
  intros H. unfold uv__io_stop in H. passed H. passed H.
  destruct (fd (io loop w) =? -1) eqn:Efd.
  { injection H as <-. split; [done |]. split; [done |].
    split; [intros; lia |]. left. split; [done |]. split; [done |].
    left. lia. }
  passed H.
  destruct (nwatchers loop <=? wrap32 (fd (io loop w))) eqn:Enw.
  { injection H as <-. split; [done |]. split; [done |].
    split; [intros; lia |]. left. split; [done |]. split; [done |].
    right. left. lia. }
  cbv zeta in H.
  set (l0 := write_io loop w
               (set_pevents (io loop w)
                  (Z.land (pevents (io loop w)) (not32 evs)))) in *.
  assert (Hfd0 : fd (io l0 w) = fd (io loop w) ∧
                 pevents (io l0 w) = Z.land (pevents (io loop w)) (not32 evs)).
  { unfold l0, write_io. cbn [io set_io]. by rewrite upd_eq. }
  destruct Hfd0 as [Hfd0 Hpev0]. rewrite Hpev0 in H.
  assert (Hfds : ∀ w', fd (io l0 w') = fd (io loop w')).
  { intros w'. unfold l0, write_io. cbn [io set_io]. by apply fd_upd. }
  destruct (Z.land (pevents (io loop w)) (not32 evs) =? 0) eqn:Epev.
  - set (l1 := set_watcher_queue l0 (QUEUE_REMOVE w (watcher_queue l0))) in *.
    change (watchers l1) with (watchers loop) in H.
    change (io l1) with (io l0) in H. rewrite Hfd0 in H.
    apply bind_Some in H as (tbl & Htbl & H).
    apply bind_Some in H as (v & Hv & H).
    destruct (v =? NULL) eqn:Ev; cbn [negb] in H.
    + injection H as <-. split; [done |]. split; [exact Hfds |].
      split; [intros; exact Hpev0 |]. left. split; [done |]. split; [done |].
      right. right. right. unfold slot. rewrite Htbl. simpl.
      rewrite Hv. f_equal. lia.
    + apply bind_Some in H as ([] & Hvw%assert_Some & H).
      apply bind_Some in H as ([] & Hnf%assert_Some & H).
      apply bind_Some in H as (tbl' & Hst & H). injection H as <-.
      apply store_Some in Hst as [_ ->].
      assert (v = w) as -> by lia.
      split; [done |].
      split.
      { intros w'. unfold write_io. cbn [io set_io].
        change (io l1) with (io l0). rewrite fd_upd by done. apply Hfds. }
      split; [intros; unfold write_io; cbn [io set_io]; by rewrite upd_eq |].
      right. exists tbl.
      change (nfds l1) with (nfds loop) in Hnf. unfold NULL in *.
      split; [done |]. split; [lia |]. split; [lia |]. split; [done |].
      split; [lia |]. split; [lia |]. by split.
  - assert (∀ l2, watchers l2 = watchers l0 → nfds l2 = nfds l0 →
              nwatchers l2 = nwatchers l0 → io l2 = io l0 → Some l2 = Some l' →
              nwatchers l' = nwatchers loop ∧
              (∀ w', fd (io l' w') = fd (io loop w')) ∧
              (0 ≤ fd (io loop w) → wrap32 (fd (io loop w)) < nwatchers loop →
               pevents (io l' w) = Z.land (pevents (io loop w)) (not32 evs)) ∧
              watchers l' = watchers loop ∧ nfds l' = nfds loop) as Hcase.
    { intros l2 E1 E2 E3 E4 [= <-]. rewrite E1, E2, E3, E4.
      split; [done |]. split; [exact Hfds |]. split; [intros; exact Hpev0 |].
      by split. }
    destruct (on_queue w (watcher_queue l0));
      apply Hcase in H as (? & ? & ? & ? & ?); try done;
      (split; [done |]; split; [done |]; split; [done |]; left;
       split; [done |]; split; [done |]; right; right; left; lia).
Qed.

Lemma length_filter_insert {A} (P : A → Prop) `{∀ x, Decision (P x)}
    (l : list A) (i : nat) (x old : A) :
  l !! i = Some old →
  (length (filter P (<[i:=x]> l)) + (if decide (P old) then 1 else 0)
   = length (filter P l) + (if decide (P x) then 1 else 0))%nat.
Proof.
  intros Hi. pose proof (lookup_lt_Some _ _ _ Hi) as Hlt.
  rewrite insert_take_drop by done.
  rewrite <- (take_drop_middle l i old Hi) at 3.
  rewrite !list.filter_app, !list.filter_cons, !length_app.
  destruct (decide (P x)), (decide (P old)); simpl; lia.
Qed.

Lemma filter_replicate_NULL n :
  filter (λ x : Z, x ≠ NULL) (replicate n NULL) = [].
Proof.
  induction n as [| n IH]; [done |]. simpl.
  rewrite list.filter_cons. destruct (decide (NULL ≠ NULL)); [done | exact IH].
Qed.

Lemma occupied_bound loop : table_wf loop → 0 ≤ occupied loop ≤ nwatchers loop.
Proof.
  intros [Hnw Hwf]. unfold occupied.
  destruct (watchers loop) as [tbl |]; [| lia].
  pose proof (list.length_filter (λ x, x ≠ NULL) (take (Z.to_nat (nwatchers loop)) tbl)).
  rewrite length_take in H. lia.
Qed.

Lemma occupied_maybe_resize loop len l1 :
  table_wf loop → 0 ≤ len < 2 ^ 32 → maybe_resize loop len = Some l1 →
  occupied l1 = occupied loop.
Proof.
  intros Hwf Hlen Hres.
  destruct (decide (len ≤ nwatchers loop)) as [Hle | Hgt].
  { unfold maybe_resize in Hres.
    rewrite (proj2 (Z.leb_le _ _)) in Hres by lia. by injection Hres as <-. }
  destruct (maybe_resize_returns loop len l1 Hwf Hlen ltac:(lia) Hres)
    as (Hnw' & (_ & Hge & _) & [Hr1 Hwf1] & Hold & Hnew & _).
  destruct Hwf as [Hr Hwf]. unfold occupied.
  destruct (watchers l1) as [tbl1 |] eqn:Ht1; [| lia].
  assert (Hgrow : nwatchers loop < nwatchers l1) by lia.
  set (old := default [] (watchers loop)).
  assert (Hsplit : take (Z.to_nat (nwatchers l1)) tbl1
                   = take (Z.to_nat (nwatchers loop)) old
                     ++ replicate (Z.to_nat (nwatchers l1 - nwatchers loop)) NULL).
  { apply list_eq. intros i.
    destruct (decide (i < Z.to_nat (nwatchers loop))%nat) as [Hi | Hi].
    - rewrite lookup_take_lt by lia. rewrite lookup_app_l.
      2: { rewrite length_take. unfold old.
           destruct (watchers loop) as [tbl |]; simpl; lia. }
      rewrite lookup_take_lt by lia.
      specialize (Hold (Z.of_nat i) ltac:(lia)). unfold slot in Hold.
      rewrite Ht1 in Hold. simpl in Hold. rewrite load_lookup in Hold by lia.
      rewrite Nat2Z.id in Hold. rewrite Hold. unfold old.
      destruct (watchers loop) as [tbl |]; simpl; [| lia].
      rewrite load_lookup by lia. by rewrite Nat2Z.id.
    - assert (Hlo : length (take (Z.to_nat (nwatchers loop)) old)
                    = Z.to_nat (nwatchers loop)).
      { rewrite length_take. unfold old.
        destruct (watchers loop) as [tbl |]; simpl; lia. }
      rewrite lookup_app_r by lia. rewrite Hlo.
      destruct (decide (i < Z.to_nat (nwatchers l1))%nat) as [Hi1 | Hi1].
      + rewrite lookup_take_lt by lia. rewrite lookup_replicate_2 by lia.
        specialize (Hnew (Z.of_nat i) ltac:(lia)). unfold slot in Hnew.
        rewrite Ht1 in Hnew. simpl in Hnew. rewrite load_lookup in Hnew by lia.
        by rewrite Nat2Z.id in Hnew.
      + rewrite lookup_take_ge by lia. symmetry.
        apply lookup_replicate_None. lia. }
  rewrite Hsplit, list.filter_app, filter_replicate_NULL, app_nil_r.
  unfold old. destruct (watchers loop) as [tbl |]; simpl; [done |].
  by rewrite take_nil.
Qed.

Lemma occupied_insert loop tbl f x old :
  table_wf loop → watchers loop = Some tbl →
  0 ≤ f < nwatchers loop → load tbl f = Some old →
  occupied (set_watchers loop (Some (<[Z.to_nat f := x]> tbl)))
  + (if decide (old ≠ NULL) then 1 else 0)
  = occupied loop + (if decide (x ≠ NULL) then 1 else 0).
Proof.
  intros [Hnw Hwf] Htbl Hf Hold. unfold occupied.
  cbn [watchers nwatchers set_watchers]. rewrite Htbl.
  rewrite take_insert_lt by lia.
  rewrite load_lookup in Hold by lia.
  pose proof (length_filter_insert (λ x, x ≠ NULL)
                (take (Z.to_nat (nwatchers loop)) tbl) (Z.to_nat f) x old) as H.
  rewrite lookup_take_lt in H by lia. specialize (H Hold).
  destruct (decide (old ≠ NULL)), (decide (x ≠ NULL)); lia.
Qed.

Lemma occupied_ext a b :
  watchers a = watchers b → nwatchers a = nwatchers b →
  occupied a = occupied b.
Proof. unfold occupied. by intros -> ->. Qed.

Lemma trailing_maybe_resize loop len l1 :
  table_wf loop → 0 ≤ len < 2 ^ 32 → maybe_resize loop len = Some l1 →
  trailing l1 = trailing loop.
Proof.
  intros Hwf Hlen Hres.
  destruct (decide (len ≤ nwatchers loop)) as [Hle | Hgt].
  { unfold maybe_resize in Hres.
    rewrite (proj2 (Z.leb_le _ _)) in Hres by lia. by injection Hres as <-. }
  destruct (maybe_resize_returns loop len l1 Hwf Hlen ltac:(lia) Hres)
    as (_ & _ & _ & _ & _ & H1 & H2 & _).
  unfold slot in H1, H2. unfold trailing at 1.
  destruct (watchers l1) as [tbl1 |]; [| done]. simpl in H1, H2.
  rewrite H1, H2. simpl. by destruct (trailing loop).
Qed.

Lemma trailing_insert loop tbl f x :
  watchers loop = Some tbl → 0 ≤ f < nwatchers loop →
  trailing (set_watchers loop (Some (<[Z.to_nat f := x]> tbl))) = trailing loop.
Proof.
  intros Htbl Hf. unfold trailing. cbn [watchers nwatchers set_watchers].
  rewrite Htbl. by rewrite !load_insert_ne by lia.
Qed.

Lemma trailing_ext a b :
  watchers a = watchers b → nwatchers a = nwatchers b →
  trailing a = trailing b.
Proof. unfold trailing. by intros -> ->. Qed.

Lemma table_wf_ext a b :
  watchers a = watchers b → nwatchers a = nwatchers b →
  table_wf b → table_wf a.
Proof. unfold table_wf. by intros -> ->. Qed.

Lemma table_wf_insert loop tbl i x :
  table_wf loop → watchers loop = Some tbl →
  table_wf (set_watchers loop (Some (<[i := x]> tbl))).
Proof.
  unfold table_wf. cbn [watchers nwatchers set_watchers].
  intros [? H] Htbl. rewrite Htbl in H. by rewrite length_insert.
Qed.

(** One call of uv__io_start or uv__io_stop on the table. *)
Lemma apply_op_table w loop op l' :
  w ≠ NULL → nfds_exact loop → apply_op w loop op = Some l' →
  nfds_exact l' ∧ trailing l' = trailing loop.
Proof.
  intros Hw (Hwf & Hint & Hn) H. destruct op as [evs | evs]; simpl in H.
  - destruct (uv__io_start_table _ _ _ _ Hwf H)
      as (Hfd & l1 & Hres & Hnw & Hio & Hcase).
    set (l0 := write_io loop w _) in Hres.
    assert (Hwf0 : table_wf l0) by exact Hwf.
    assert (Hlen : 0 ≤ fd (io loop w) + 1 < 2 ^ 32)
      by (unfold INT_MAX in *; lia).
    pose proof (occupied_maybe_resize _ _ _ Hwf0 Hlen Hres) as Hocc.
    pose proof (trailing_maybe_resize _ _ _ Hwf0 Hlen Hres) as Htr.
    destruct (maybe_resize_frame _ _ _ Hwf0 Hlen Hres)
      as (Hwf1 & Hge & _ & _ & Hio1 & _ & _ & Hnf1).
    change (occupied l0) with (occupied loop) in Hocc.
    change (trailing l0) with (trailing loop) in Htr.
    change (nfds l0) with (nfds loop) in Hnf1.
    assert (Hint' : ∀ w', fd (io l' w') ≤ INT_MAX).
    { intros w'. rewrite Hio, Hio1. unfold l0, write_io. cbn [io set_io].
      rewrite fd_upd by done. apply Hint. }
    destruct Hcase as [(Hwt & Hnf & _) | (tbl & Htbl & Hld & Hwt & Hnf)].
    + split; [split; [| split] |].
      * by apply (table_wf_ext _ l1).
      * exact Hint'.
      * rewrite Hnf, Hnf1, Hn, <- Hocc. symmetry. by apply occupied_ext.
      * rewrite <- Htr. by apply trailing_ext.
    + assert (Hext : watchers l'
                     = watchers (set_watchers l1
                         (Some (<[Z.to_nat (fd (io loop w)) := w]> tbl)))) by done.
      assert (Hwf' : table_wf l').
      { eapply table_wf_ext; [exact Hext | exact Hnw |].
        by apply table_wf_insert. }
      pose proof (occupied_insert l1 tbl (fd (io loop w)) w NULL Hwf1 Htbl
                    ltac:(lia) Hld) as Hins.
      rewrite <- (occupied_ext l' _ Hext Hnw) in Hins.
      destruct (decide (NULL ≠ NULL)) as [Hn0 | _]; [by destruct Hn0 |].
      destruct (decide (w ≠ NULL)) as [_ | Hn0]; [| by destruct Hn0].
      pose proof (occupied_bound l' Hwf') as Hb. pose proof Hwf' as [Hr' _].
      split; [split; [| split] |].
      * exact Hwf'.
      * exact Hint'.
      * rewrite Hnf, Hnf1, Hn, <- Hocc. unfold wrap32.
        rewrite Z.mod_small by lia. lia.
      * rewrite <- Htr, (trailing_ext l' _ Hext Hnw).
        apply trailing_insert; [done | lia].
  - destruct (uv__io_stop_table _ _ _ _ H) as (Hnw & Hfds & _ & Hcase).
    assert (Hint' : ∀ w', fd (io l' w') ≤ INT_MAX).
    { intros w'. rewrite Hfds. apply Hint. }
    destruct Hcase as [(Hwt & Hnf & _) |
      (tbl & Htbl & Hfd & Hlt & Hld & _ & Hpos & Hwt & Hnf)].
    + split; [split; [| split] |].
      * by apply (table_wf_ext _ loop).
      * exact Hint'.
      * rewrite Hnf, Hn. symmetry. by apply occupied_ext.
      * by apply trailing_ext.
    + assert (Hf : fd (io loop w) < nwatchers loop).
      { specialize (Hint w). unfold wrap32, INT_MAX in *.
        rewrite Z.mod_small in Hlt by lia. lia. }
      assert (Hext : watchers l'
                     = watchers (set_watchers loop
                         (Some (<[Z.to_nat (fd (io loop w)) := NULL]> tbl))))
        by done.
      pose proof (occupied_insert loop tbl (fd (io loop w)) NULL w Hwf Htbl
                    ltac:(lia) Hld) as Hins.
      rewrite <- (occupied_ext l' _ Hext Hnw) in Hins.
      destruct (decide (NULL ≠ NULL)) as [Hn0 | _]; [by destruct Hn0 |].
      destruct (decide (w ≠ NULL)) as [_ | Hn0]; [| by destruct Hn0].
      split; [split; [| split] |].
      * eapply table_wf_ext; [exact Hext | exact Hnw |].
        by apply table_wf_insert.
      * exact Hint'.
      * rewrite Hnf, Hn. lia.
      * rewrite (trailing_ext l' _ Hext Hnw).
        apply trailing_insert; [done | lia].
Qed.

(** X1: after any sequence of uv__io_start and uv__io_stop calls that
    return, on watchers at non-null addresses and from a loop whose [nfds]
    is the number of occupied slots of the fd table, [nfds] is again the
    number of occupied slots, and so lies between 0 and [nwatchers]. *)
Theorem run_calls_nfds loop calls l' :
  nfds_exact loop → Forall (λ c, c.1 ≠ NULL) calls →
  run_calls loop calls = Some l' →
  nfds l' = occupied l' ∧ 0 ≤ nfds l' ≤ nwatchers l'.
Proof.
  intros Hex Hall. revert loop Hex.
  induction Hall as [| [w op] calls Hw _ IH]; intros loop Hex H; simpl in H.
  - injection H as <-. destruct Hex as (Hwf & _ & Hn). split; [done |].
    rewrite Hn. by apply occupied_bound.
  - apply bind_Some in H as (l1 & H1 & H).
    apply (IH l1); [| done]. by apply (apply_op_table w loop op).
Qed.

(** X2: uv__io_start, with the growth of the table it may cause, and
    uv__io_stop leave the two trailing slots of the fd table, where
    uv__io_poll publishes its event buffer, as they were. *)
Theorem run_calls_trailing loop calls l' :
  nfds_exact loop → Forall (λ c, c.1 ≠ NULL) calls →
  run_calls loop calls = Some l' →
  trailing l' = trailing loop.
Proof.
  intros Hex Hall. revert loop Hex.
  induction Hall as [| [w op] calls Hw _ IH]; intros loop Hex H; simpl in H.
  - by injection H as <-.
  - apply bind_Some in H as (l1 & H1 & H).
    destruct (apply_op_table w loop op l1 Hw Hex H1) as [Hex1 Htr].
    rewrite <- Htr. by apply IH.
Qed.

Lemma nfds_exact_loop_w5 : nfds_exact loop_w5.
Proof.
  split; [split; [cbn; lia | reflexivity] |]. split; [| reflexivity].
  intros w. unfold loop_w5, write_io, upd, INT_MAX. cbn.
  destruct (w =? 100); simpl; lia.
Qed.

Lemma nfds_exact_loop_polling : nfds_exact loop_polling.
Proof.
  split; [split; [cbn; lia | reflexivity] |]. split; [| reflexivity].
  intros w. unfold loop_polling, write_io, upd, INT_MAX. cbn.
  destruct (w =? 101); [simpl; lia |]. destruct (w =? 100); simpl; lia.
Qed.

Lemma run_calls_nfds_witness :
  ∃ l', run_calls loop_w5
          [(100, Start POLLIN); (100, Start POLLOUT); (100, Stop POLLIN)]
        = Some l' ∧
        nfds l' = occupied l' ∧ 0 ≤ nfds l' ≤ nwatchers l'.
Proof.
  destruct (run_calls loop_w5
              [(100, Start POLLIN); (100, Start POLLOUT); (100, Stop POLLIN)])
    as [l' |] eqn:Hrun; [| vm_compute in Hrun; discriminate].
  exists l'. split; [reflexivity |].
  apply (run_calls_nfds loop_w5
           [(100, Start POLLIN); (100, Start POLLOUT); (100, Stop POLLIN)]).
  - exact nfds_exact_loop_w5.
  - repeat constructor; unfold NULL; simpl; lia.
  - exact Hrun.
Defined.

Lemma run_calls_trailing_witness :
  ∃ l', run_calls loop_polling [(101, Start POLLOUT); (100, Stop POLLIN)]
        = Some l' ∧
        trailing l' = (4096, 3).
Proof.
  destruct (run_calls loop_polling [(101, Start POLLOUT); (100, Stop POLLIN)])
    as [l' |] eqn:Hrun; [| vm_compute in Hrun; discriminate].
  exists l'. split; [reflexivity |].
  apply (run_calls_trailing loop_polling
           [(101, Start POLLOUT); (100, Stop POLLIN)]).
  - exact nfds_exact_loop_polling.
  - repeat constructor; unfold NULL; simpl; lia.
  - exact Hrun.
Defined.

(** ** uv__io_active and uv__fd_exists *)

Lemma land_lor_self p e : Z.land (Z.lor p e) e = e.
Proof.
  apply Z.bits_inj'. intros n Hn.
  rewrite Z.land_spec, Z.lor_spec. by destruct (Z.testbit p n), (Z.testbit e n).
Qed.

Lemma uv__io_start_asserts loop w evs l' :
  uv__io_start loop w evs = Some l' →
  (Z.land evs (not32 IO_MASK) =? 0) = true ∧ negb (evs =? 0) = true.
Proof. intros H. unfold uv__io_start in H. passed H. passed H. done. Qed.

Lemma uv__io_stop_asserts loop w evs l' :
  uv__io_stop loop w evs = Some l' →
  (Z.land evs (not32 IO_MASK) =? 0) = true ∧ negb (evs =? 0) = true.
Proof. intros H. unfold uv__io_stop in H. passed H. passed H. done. Qed.

(** X3: after uv__io_start has returned, uv__io_active reports the watcher
    active for the events it was started with; and, unless the watcher
    already had exactly these events registered with the backend,
    uv__fd_exists reports its fd as present in the loop. *)
Theorem uv__io_start_registers loop w evs l' :
  table_wf loop → w ≠ NULL → uv__io_start loop w evs = Some l' →
  uv__io_active l' w evs = Some true ∧
  (events (io loop w) ≠ Z.lor (pevents (io loop w)) evs →
   uv__fd_exists l' (fd (io loop w)) = Some true).
Proof.
  intros Hwf Hw H.
  destruct (uv__io_start_asserts _ _ _ _ H) as [Ha1 Ha2].
  destruct (uv__io_start_table _ _ _ _ Hwf H)
    as (Hfd & l1 & Hres & Hnw & Hio & Hcase).
  set (l0 := write_io loop w _) in Hres.
  assert (Hlen : 0 ≤ fd (io loop w) + 1 < 2 ^ 32)
    by (unfold INT_MAX in *; lia).
  destruct (maybe_resize_frame l0 _ _ Hwf Hlen Hres)
    as (Hwf1 & Hge & _ & _ & Hio1 & _).
  split.
  - unfold uv__io_active.
    rewrite (assert_true _ Ha1), bind_Some_eq, (assert_true _ Ha2), bind_Some_eq.
    rewrite Hio, Hio1. unfold l0, write_io. cbn [io set_io].
    rewrite upd_eq. cbn [pevents set_pevents]. rewrite land_lor_self.
    by rewrite Ha2.
  - intros Hne. unfold uv__fd_exists.
    assert (Hwr : wrap32 (fd (io loop w)) = fd (io loop w)).
    { apply Z.mod_small. unfold INT_MAX in *. lia. }
    rewrite Hwr, Hnw. rewrite (proj2 (Z.ltb_lt _ _)) by lia.
    destruct Hcase as [(Hwt & _ & [He | (v & Hv & Hv0)]) |
                       (tbl & Htbl & Hld & Hwt & _)].
    + done.
    + rewrite Hwt. unfold slot in Hv.
      destruct (watchers l1) as [tbl |]; [| done]. simpl in Hv.
      rewrite bind_Some_eq, Hv, bind_Some_eq. f_equal.
      unfold NULL in *. apply negb_true_iff. lia.
    + rewrite Hwt, bind_Some_eq.
      rewrite load_insert_eq by (by eapply load_Some_bound).
      rewrite bind_Some_eq. f_equal. unfold NULL in *.
      apply negb_true_iff. lia.
Qed.

Lemma uv__io_start_registers_witness :
  ∃ l', uv__io_start loop_w5 100 POLLIN = Some l' ∧
        uv__io_active l' 100 POLLIN = Some true ∧
        uv__fd_exists l' 5 = Some true.
Proof.
  destruct (uv__io_start loop_w5 100 POLLIN) as [l' |] eqn:Hst;
    [| vm_compute in Hst; discriminate].
  exists l'. split; [reflexivity |].
  destruct (uv__io_start_registers loop_w5 100 POLLIN l') as [Hact Hex].
  - split; [cbn; lia | reflexivity].
  - unfold NULL. lia.
  - exact Hst.
  - split; [exact Hact |]. apply Hex. vm_compute. discriminate.
Defined.

(** X4: after uv__io_stop has returned for a watcher whose fd lies inside
    the table, uv__io_active reports the watcher inactive for the stopped
    events; and when no event is left, uv__fd_exists reports the fd as
    absent from the loop. *)
Theorem uv__io_stop_unregisters loop w evs l' :
  uv__io_stop loop w evs = Some l' →
  0 ≤ fd (io loop w) → wrap32 (fd (io loop w)) < nwatchers loop →
  uv__io_active l' w evs = Some false ∧
  (Z.land (pevents (io loop w)) (not32 evs) = 0 →
   uv__fd_exists l' (fd (io loop w)) = Some false).
Proof.
  intros H Hfd Hlt.
  destruct (uv__io_stop_asserts _ _ _ _ H) as [Ha1 Ha2].
  destruct (uv__io_stop_table _ _ _ _ H) as (Hnw & _ & Hpev & Hcase).
  split.
  - unfold uv__io_active.
    rewrite (assert_true _ Ha1), bind_Some_eq, (assert_true _ Ha2), bind_Some_eq.
    rewrite (Hpev Hfd Hlt), <- Z.land_assoc, (Z.land_comm (not32 evs)),
      land_not32_self, Z.land_0_r. done.
  - intros Hz. unfold uv__fd_exists. rewrite Hnw.
    rewrite (proj2 (Z.ltb_lt _ _)) by lia.
    destruct Hcase as [(Hwt & _ & [He | [He | [He | Hs]]]) |
                       (tbl & Htbl & _ & _ & Hld & _ & _ & Hwt & _)];
      [lia | lia | done | |].
    + rewrite Hwt. unfold slot in Hs.
      destruct (watchers loop) as [tbl |]; [| done]. simpl in Hs.
      by rewrite bind_Some_eq, Hs, bind_Some_eq.
    + rewrite Hwt, bind_Some_eq.
      rewrite load_insert_eq by (by eapply load_Some_bound).
      by rewrite bind_Some_eq.
Qed.

Lemma uv__io_stop_unregisters_witness :
  ∃ l', uv__io_stop started_w5 100 POLLIN = Some l' ∧
        uv__io_active l' 100 POLLIN = Some false ∧
        uv__fd_exists l' 5 = Some false.
Proof.
  destruct (uv__io_stop started_w5 100 POLLIN) as [l' |] eqn:Hst;
    [| vm_compute in Hst; discriminate].
  exists l'. split; [reflexivity |].
  destruct (uv__io_stop_unregisters started_w5 100 POLLIN l') as [Hact Hex].
  - exact Hst.
  - vm_compute. discriminate.
  - vm_compute. reflexivity.
  - split; [exact Hact |]. apply Hex. vm_compute. reflexivity.
Defined.

(** ** The flush of watcher_queue *)

Section Flush.

Context {X : externals}.

Lemma check_fuel b : check b ≠ OutOfFuel.
Proof. by destruct b. Qed.

Lemma flush_watcher_spec (st st' : @state X) w :
  flush_watcher st w = Done st' →
  watcher_queue (lp st') = QUEUE_REMOVE w (watcher_queue (lp st)) ∧
  events (io (lp st') w) = pevents (io (lp st) w) ∧
  pevents (io (lp st') w) = pevents (io (lp st) w) ∧
  pevents (io (lp st) w) ≠ 0 ∧
  (∀ w', w' ≠ w → io (lp st') w' = io (lp st) w') ∧
  tr st' = tr st.
Proof.
  unfold flush_watcher. cbv zeta. cbn [io set_watcher_queue].
  intros H.
  apply outcome_bind_Done in H as ([] & Hp%check_Done & H).
  apply outcome_bind_Done in H as ([] & _ & H).
  apply outcome_bind_Done in H as ([] & _ & H).
  destruct (epoll_ctl X _ _ _ _ _) as [k err].
  apply outcome_bind_Done in H as (k' & _ & H).
  injection H as <-. cbn [lp tr]. unfold write_io. cbn [io set_io watcher_queue].
  rewrite upd_eq. cbn [events pevents set_events].
  split; [done |]. split; [done |]. split; [done |].
  split; [lia |]. split; [| done].
  intros w' Hne. by rewrite upd_ne.
Qed.

Lemma flush_watcher_fuel (st : @state X) w : flush_watcher st w ≠ OutOfFuel.
Proof.
  unfold flush_watcher. cbv zeta.
  destruct (check (negb _)) as [[] | |]eqn:E1;
    [| done | by apply check_fuel in E1].
  rewrite outcome_bind_Done_eq.
  destruct (check (0 <=? _)) as [[] | |] eqn:E2;
    [| done | by apply check_fuel in E2].
  rewrite outcome_bind_Done_eq.
  destruct (check (_ <? _)) as [[] | |] eqn:E3;
    [| done | by apply check_fuel in E3].
  rewrite outcome_bind_Done_eq.
  destruct (epoll_ctl X _ _ _ _ _) as [k err].
  destruct (err =? 0); [done |].
  destruct (check (err =? EEXIST)) as [[] | |] eqn:E4;
    [| done | by apply check_fuel in E4].
  rewrite outcome_bind_Done_eq.
  destruct (check (_ =? EPOLL_CTL_ADD)) as [[] | |] eqn:E5;
    [| done | by apply check_fuel in E5].
  rewrite outcome_bind_Done_eq.
  destruct (epoll_ctl X _ _ _ _ _) as [k2 err2].
  destruct (check (err2 =? 0)) as [[] | |] eqn:E6;
    [done | done | by apply check_fuel in E6].
Qed.

Lemma length_QUEUE_REMOVE_head w q :
  (length (QUEUE_REMOVE w (w :: q)) ≤ length q)%nat.
Proof.
  unfold QUEUE_REMOVE. rewrite list.filter_cons.
  destruct (decide (w ≠ w)) as [Hn | _]; [by destruct Hn |].
  apply list.length_filter.
Qed.

(** The flush loop, by induction on its rounds. *)
Lemma flush_watcher_queue_inv n (st : @state X) :
  (length (watcher_queue (lp st)) ≤ n)%nat →
  flush_watcher_queue n st ≠ OutOfFuel ∧
  ∀ st', flush_watcher_queue n st = Done st' →
    watcher_queue (lp st') = [] ∧
    (∀ w, w ∈ watcher_queue (lp st) →
       events (io (lp st') w) = pevents (io (lp st') w) ∧
       pevents (io (lp st') w) = pevents (io (lp st) w) ∧
       pevents (io (lp st) w) ≠ 0) ∧
    (∀ w, w ∉ watcher_queue (lp st) → io (lp st') w = io (lp st) w) ∧
    tr st' = tr st.
Proof.
  revert st. induction n as [| n IH]; intros st Hlen.
  - destruct (watcher_queue (lp st)) as [| w q] eqn:Eq; [| simpl in Hlen; lia].
    simpl. rewrite Eq. split; [done |]. intros st' [= <-].
    split; [done |]. split; [| done]. intros w Hw. by apply elem_of_nil in Hw.
  - simpl. destruct (watcher_queue (lp st)) as [| w q] eqn:Eq.
    { split; [done |]. intros st' [= <-]. split; [done |].
      split; [| done]. intros w Hw. by apply elem_of_nil in Hw. }
    destruct (flush_watcher st w) as [st1 | |] eqn:E1.
    + rewrite outcome_bind_Done_eq.
      destruct (flush_watcher_spec _ _ _ E1)
        as (Hq1 & Hev1 & Hpev1 & Hnz & Hother & Htr1).
      rewrite Eq in Hq1.
      assert (Hlen1 : (length (watcher_queue (lp st1)) ≤ n)%nat).
      { rewrite Hq1. pose proof (length_QUEUE_REMOVE_head w q).
        simpl in Hlen. lia. }
      destruct (IH st1 Hlen1) as [Hfuel Hdone]. split; [exact Hfuel |].
      intros st' Hst'. destruct (Hdone st' Hst') as (Hq' & Hin & Hout & Htr').
      split; [exact Hq' |]. split; [| split].
      * intros u Hu.
        destruct (decide (u ∈ watcher_queue (lp st1))) as [Hu1 | Hu1].
        -- destruct (Hin u Hu1) as (Ha & Hb & Hc).
           destruct (decide (u = w)) as [-> | Hne].
           ++ rewrite Hq1 in Hu1. apply elem_of_QUEUE_REMOVE in Hu1.
              destruct Hu1 as [Hu1 _]. by destruct Hu1.
           ++ rewrite (Hother u Hne) in Hb, Hc. done.
        -- rewrite (Hout u Hu1).
           destruct (decide (u = w)) as [-> | Hne].
           ++ by rewrite Hev1, Hpev1.
           ++ exfalso. apply Hu1. rewrite Hq1. apply elem_of_QUEUE_REMOVE.
              by split.
      * intros u Hu.
        assert (Hne : u ≠ w) by (intros ->; apply Hu, list_elem_of_here).
        rewrite Hout; [by apply Hother |].
        rewrite Hq1. intros Hu1%elem_of_QUEUE_REMOVE. by destruct Hu1.
      * by rewrite Htr', Htr1.
    + done.
    + by apply flush_watcher_fuel in E1.
Qed.

(** X5: the flush of watcher_queue that opens uv__io_poll ends within as
    many rounds as the queue is long; when it returns, watcher_queue is
    empty, every watcher that was queued has events == pevents with its
    pevents unchanged and non-zero, and the other watchers are untouched.
    It calls no callback. *)
Theorem flush_watcher_queue_spec n (st : @state X) :
  (length (watcher_queue (lp st)) ≤ n)%nat →
  flush_watcher_queue n st ≠ OutOfFuel ∧
  ∀ st', flush_watcher_queue n st = Done st' →
    watcher_queue (lp st') = [] ∧
    (∀ w, w ∈ watcher_queue (lp st) →
       events (io (lp st') w) = pevents (io (lp st') w) ∧
       pevents (io (lp st') w) = pevents (io (lp st) w) ∧
       pevents (io (lp st) w) ≠ 0) ∧
    (∀ w, w ∉ watcher_queue (lp st) → io (lp st') w = io (lp st) w) ∧
    tr st' = tr st.
Proof. exact (flush_watcher_queue_inv n st). Qed.

End Flush.

Lemma flush_watcher_queue_spec_witness :
  ∃ st', flush_watcher_queue 1 (@Build_state quiet () started_w5 []) = Done st' ∧
         watcher_queue (lp st') = [] ∧
         events (io (lp st') 100) = pevents (io (lp st') 100).
Proof.
  destruct (flush_watcher_queue_spec 1 (@Build_state quiet () started_w5 []))
    as [_ H]; [vm_compute; lia |].
  destruct (flush_watcher_queue 1 (@Build_state quiet () started_w5 []))
    as [st' | |] eqn:E; [| vm_compute in E; discriminate ..].
  exists st'. split; [reflexivity |].
  destruct (H st' eq_refl) as (Hq & Hin & _). split; [exact Hq |].
  apply Hin. vm_compute. apply list_elem_of_here.
Defined.

(** ** Traces of the phases *)

Lemma waits_app t u : waits (t ++ u) = (waits t + waits u)%nat.
Proof.
  induction t as [| c t IH]; [done |]. destruct c; simpl; by rewrite ?IH.
Qed.

Lemma waits_is_callback t : Forall is_callback t → waits t = 0%nat.
Proof. induction 1 as [| c t Hc _ IH]; [done |]. by destruct c. Qed.

Lemma is_io_is_callback c : is_io c → is_callback c.
Proof. by destruct c. Qed.

Lemma ordinary_is_io sig c : ordinary sig c → is_io c.
Proof. by destruct c. Qed.

Lemma is_callback_quick c : is_callback c → quick c.
Proof. by destruct c. Qed.

Section Traces.

Context {X : externals} (P : program X).

Lemma extends_refl Q (st st' : @state X) : tr st' = tr st → extends Q st st'.
Proof. intros H. exists []. by rewrite app_nil_r. Qed.

Lemma extends_trans Q (a b c : @state X) :
  extends Q a b → extends Q b c → extends Q a c.
Proof.
  intros (t & Ht & Hq) (u & Hu & Hq'). exists (t ++ u).
  split; [by rewrite Hu, Ht, app_assoc | by apply Forall_app].
Qed.

Lemma extends_impl (Q R : call → Prop) (a b : @state X) :
  (∀ c, Q c → R c) → extends Q a b → extends R a b.
Proof.
  intros HQR (t & Ht & Hq). exists t. split; [done |].
  by eapply Forall_impl.
Qed.

Lemma call_io_fuel (st : @state X) w ev : call_io P st w ev ≠ OutOfFuel.
Proof. unfold call_io. apply extern_fuel. Qed.

Lemma of_option_fuel {A} (o : option A) : of_option o ≠ OutOfFuel.
Proof. by destruct o. Qed.

Lemma publish_fuel (st : @state X) a b : publish st a b ≠ OutOfFuel.
Proof.
  unfold publish. destruct (watchers (lp st)) as [tbl |]; [| done].
  cbn [of_option]. rewrite outcome_bind_Done_eq.
  destruct (store tbl _ a) as [t1 |]; [| done].
  cbn [of_option]. rewrite outcome_bind_Done_eq.
  by destruct (store t1 _ b).
Qed.

Lemma dispatch_event_fuel (st : @state X) i hs nev :
  dispatch_event P st i hs nev ≠ OutOfFuel.
Proof.
  unfold dispatch_event.
  destruct (poll_events (lp st) !! Z.to_nat i) as [pe |]; [| done].
  cbn [of_option]. rewrite outcome_bind_Done_eq.
  destruct (ev_fd pe =? -1); [done |].
  destruct (0 <=? ev_fd pe); [| done]. cbn [check].
  rewrite outcome_bind_Done_eq.
  destruct (wrap32 (ev_fd pe) <? nwatchers (lp st)); [| done]. cbn [check].
  rewrite outcome_bind_Done_eq.
  destruct (watchers (lp st)) as [tbl |]; [| done]. cbn [of_option].
  rewrite outcome_bind_Done_eq.
  destruct (load tbl (ev_fd pe)) as [w |]; [| done]. cbn [of_option].
  rewrite outcome_bind_Done_eq.
  destruct (w =? NULL). { by destruct (epoll_ctl X _ _ _ _ _). }
  destruct (ready_mask _ _ =? 0); [done |].
  destruct (w =? signal_io_watcher X); [done |].
  destruct (call_io P _ w _) as [s | |] eqn:E; [done | done |].
  by apply call_io_fuel in E.
Qed.

Lemma dispatch_fuel n : ∀ i (st : @state X) hs nev,
  dispatch P n i st hs nev ≠ OutOfFuel.
Proof.
  induction n as [| n IH]; intros i st hs nev; [done |]. simpl.
  destruct (dispatch_event P st i hs nev) as [[[st1 hs1] nev1] | |] eqn:E;
    [| done | by apply dispatch_event_fuel in E].
  rewrite outcome_bind_Done_eq. apply IH.
Qed.

Lemma call_signal_tr (st st' : @state X) :
  call_signal P st = Done st' → extends is_io st st'.
Proof.
  unfold call_signal. intros H%extern_tr. cbn [log tr] in H.
  eexists. split; [exact H |]. by apply Forall_singleton.
Qed.

(** One round of the poll loop waits once, with the timeout it was given,
    and then calls io-watcher callbacks only; it goes round again only
    with timeout 0 and a smaller non-zero count, or with the timeout -1 it
    had. *)
Lemma poll_round_spec (st st' : @state X) psigset timeout count v :
  poll_round P st psigset timeout count = Done (st', v) →
  (∃ t, tr st' = tr st ++ Wait timeout :: t ∧ Forall is_io t) ∧
  match v with
  | Return => True
  | Continue t' c' =>
      (t' = 0 ∧ c' = count - 1 ∧ c' ≠ 0) ∨
      (t' = timeout ∧ c' = count ∧ timeout = -1)
  | UpdateTimeout => timeout ≠ 0 ∧ timeout ≠ -1
  end.
Proof.
  unfold poll_round.
  destruct (wait_step st psigset timeout) as [[stw n] errno] eqn:Ew.
  apply wait_step_tr in Ew.
  assert (Hnil : ∀ s : @state X, tr s = tr stw →
                 ∃ t, tr s = tr st ++ Wait timeout :: t ∧ Forall is_io t).
  { intros s Hs. exists []. split; [by rewrite Hs, Ew | done]. }
  intros H. destruct (n =? 0).
  { apply outcome_bind_Done in H as ([] & Hc%check_Done & H).
    destruct (timeout =? 0) eqn:E0; injection H as <- <-;
      (split; [by apply Hnil |]); [done | lia]. }
  destruct (n =? -1).
  { apply outcome_bind_Done in H as ([] & _ & H).
    destruct (timeout =? -1) eqn:E1; [| destruct (timeout =? 0) eqn:E0];
      injection H as <- <-; (split; [by apply Hnil |]); [| done |]; lia. }
  apply outcome_bind_Done in H as ([] & _ & H).
  apply outcome_bind_Done in H as (s1 & H1%publish_tr & H).
  apply outcome_bind_Done in H as ([[s2 hs] nev] & H2 & H).
  apply dispatch_tr in H2 as [(t2 & Ht2 & Ho2) _].
  apply outcome_bind_Done in H as (s3 & H3 & H).
  apply outcome_bind_Done in H as (s4 & H4%publish_tr & H).
  assert (Htr : ∃ t, tr s4 = tr st ++ Wait timeout :: t ∧ Forall is_io t).
  { destruct hs.
    - apply call_signal_tr in H3 as (t3 & Ht3 & Ho3).
      exists (t2 ++ t3). split.
      + rewrite H4, Ht3, Ht2, H1, Ew, <- !app_assoc. done.
      + apply Forall_app. split; [| done].
        eapply Forall_impl; [apply ordinary_is_io | exact Ho2].
    - injection H3 as <-. exists t2. split.
      + rewrite H4, Ht2, H1, Ew, <- !app_assoc. done.
      + eapply Forall_impl; [apply ordinary_is_io | exact Ho2]. }
  destruct hs. { by injection H as <- <-. }
  destruct (negb (nev =? 0)).
  { destruct ((n =? EVENTS_SIZE) && negb (count - 1 =? 0)) eqn:Ec;
      injection H as <- <-; (split; [done |]); [| done].
    left. apply andb_true_iff in Ec as [_ Ec]. lia. }
  destruct (timeout =? 0) eqn:E0. { by injection H as <- <-. }
  destruct (timeout =? -1) eqn:E1; injection H as <- <-;
    (split; [done |]); lia.
Qed.

Lemma poll_round_fuel (st : @state X) psigset timeout count :
  poll_round P st psigset timeout count ≠ OutOfFuel.
Proof.
  unfold poll_round.
  destruct (wait_step st psigset timeout) as [[stw n] errno].
  destruct (n =? 0).
  { destruct (negb (timeout =? -1)); cbn [check]; [| done].
    rewrite outcome_bind_Done_eq. by destruct (timeout =? 0). }
  destruct (n =? -1).
  { destruct (errno =? EINTR); cbn [check]; [| done].
    rewrite outcome_bind_Done_eq.
    destruct (timeout =? -1); [done |]. by destruct (timeout =? 0). }
  destruct (bool_decide _); cbn [check]; [| done].
  rewrite outcome_bind_Done_eq.
  destruct (publish stw _ n) as [s1 | |] eqn:E1;
    [| done | by apply publish_fuel in E1].
  rewrite outcome_bind_Done_eq.
  destruct (dispatch P _ 0 s1 false 0) as [[[s2 hs] nev] | |] eqn:E2;
    [| done | by apply dispatch_fuel in E2].
  rewrite outcome_bind_Done_eq. cbv beta iota.
  assert (H3 : (if hs then call_signal P s2 else Done s2) ≠ OutOfFuel).
  { destruct hs; [| done]. unfold call_signal. apply extern_fuel. }
  destruct (if hs then call_signal P s2 else Done s2) as [s3 | |];
    [| done | done].
  rewrite outcome_bind_Done_eq.
  destruct (publish s3 NULL NULL) as [s4 | |] eqn:E4;
    [| done | by apply publish_fuel in E4].
  rewrite outcome_bind_Done_eq.
  destruct hs; [done |]. destruct (negb (nev =? 0)).
  { by destruct ((n =? EVENTS_SIZE) && negb (count - 1 =? 0)). }
  destruct (timeout =? 0); [done |]. by destruct (timeout =? -1).
Qed.

Lemma cap_timeout_0 : @cap_timeout X 0 = 0.
Proof. unfold cap_timeout. by rewrite andb_false_r. Qed.

(** The poll loop with timeout 0. *)
Lemma poll_loop_nowait psigset rt base : ∀ fuel count (st : @state X),
  1 ≤ count → (Z.to_nat count ≤ fuel)%nat →
  poll_loop P fuel st psigset 0 rt base count ≠ OutOfFuel ∧
  ∀ st', poll_loop P fuel st psigset 0 rt base count = Done st' →
    ∃ t, tr st' = tr st ++ t ∧ Forall quick t ∧
         (waits t ≤ Z.to_nat count)%nat.
Proof.
  induction fuel as [| fuel IH]; intros count st Hc Hfuel; [lia |].
  simpl. rewrite cap_timeout_0.
  destruct (poll_round P st psigset 0 count) as [[s1 v] | |] eqn:E;
    [| done | by apply poll_round_fuel in E].
  rewrite outcome_bind_Done_eq.
  destruct (poll_round_spec _ _ _ _ _ _ E) as [(t1 & Ht1 & Hio1) Hv].
  assert (Hw1 : waits (Wait 0 :: t1) = 1%nat).
  { simpl. f_equal. apply waits_is_callback.
    eapply Forall_impl; [apply is_io_is_callback | exact Hio1]. }
  assert (Hq1 : Forall quick (Wait 0 :: t1)).
  { constructor; [done |]. eapply Forall_impl; [| exact Hio1].
    intros c Hcio. by apply is_callback_quick, is_io_is_callback. }
  destruct v as [| t' c' |].
  - split; [done |]. intros st' [= <-]. exists (Wait 0 :: t1).
    split; [done |]. split; [done |]. rewrite Hw1. lia.
  - destruct Hv as [(-> & -> & Hc') | (_ & _ & ?)]; [| lia].
    destruct (IH (count - 1) s1 ltac:(lia) ltac:(lia)) as [Hf Hd].
    split; [exact Hf |]. intros st' Hst'.
    destruct (Hd st' Hst') as (t2 & Ht2 & Hq2 & Hw2).
    exists ((Wait 0 :: t1) ++ t2).
    split; [by rewrite Ht2, Ht1, <- app_assoc |].
    split; [by apply Forall_app |]. rewrite waits_app, Hw1. lia.
  - lia.
Qed.

(** X6: a poll with timeout 0 does not block: uv__io_poll ends after at
    most 48 calls of epoll_pwait, each with timeout 0, and begins no
    iteration. *)
Theorem uv__io_poll_nowait fuel (st : @state X) :
  (48 ≤ fuel)%nat →
  uv__io_poll P fuel st 0 ≠ OutOfFuel ∧
  ∀ st', uv__io_poll P fuel st 0 = Done st' →
    ∃ t, tr st' = tr st ++ t ∧ Forall quick t ∧ (waits t ≤ 48)%nat.
Proof.
  intros Hfuel. unfold uv__io_poll. destruct (nfds (lp st) =? 0).
  { destruct (QUEUE_EMPTY _); cbn [check]; [| done].
    rewrite outcome_bind_Done_eq. split; [done |]. intros st' [= <-].
    exists []. rewrite app_nil_r. split; [done |]. split; [done |].
    simpl. lia. }
  destruct (flush_watcher_queue_inv (length (watcher_queue (lp st))) st
              ltac:(lia)) as [Hff Hfd].
  destruct (flush_watcher_queue _ st) as [s1 | |]; [| done | done].
  rewrite outcome_bind_Done_eq. cbn [check Z.leb Z.compare].
  rewrite outcome_bind_Done_eq.
  destruct (Hfd s1 eq_refl) as (_ & _ & _ & Htr1).
  destruct (poll_loop_nowait
              (negb (Z.land (loop_flags (lp s1)) UV_LOOP_BLOCK_SIGPROF =? 0))
              0 (time (lp s1)) fuel 48 s1 ltac:(lia) ltac:(lia)) as [Hf Hd].
  split; [exact Hf |]. intros st' Hst'.
  destruct (Hd st' Hst') as (t & Ht & Hq & Hw). exists t.
  split; [by rewrite Ht, Htr1 |]. split; [done |]. exact Hw.
Qed.

End Traces.

Lemma uv__io_poll_nowait_witness :
  ∃ st',
    uv__io_poll closing_program 48
      (@Build_state scripted [[Build_event POLLIN 5]] started_w5 []) 0
    = Done st' ∧
    ∃ t, tr st' = [] ++ t ∧ Forall quick t ∧ (waits t ≤ 48)%nat.
Proof.
  destruct (uv__io_poll_nowait closing_program 48
              (@Build_state scripted [[Build_event POLLIN 5]] started_w5 []))
    as [_ H]; [lia |].
  destruct (uv__io_poll closing_program 48
              (@Build_state scripted [[Build_event POLLIN 5]] started_w5 []) 0)
    as [st' | |] eqn:E; [| vm_compute in E; discriminate ..].
  exists st'. split; [reflexivity |]. exact (H st' eq_refl).
Defined.

(** ** Iterations of uv_run *)

Lemma is_callback_paced A c : is_callback c → paced A c.
Proof. by destruct c. Qed.

Lemma paced_impl (A B : Prop) c : (B → A) → paced A c → paced B c.
Proof. destruct c; simpl; auto. Qed.

Section RunTraces.

Context {X : externals} (P : program X).

Lemma extern_extends Q f (st st' : @state X) :
  extern f st = Done st' → extends Q st st'.
Proof. intros H%extern_tr. by apply extends_refl. Qed.

Lemma call_io_extends (st st' : @state X) w ev :
  call_io P st w ev = Done st' → extends is_callback st st'.
Proof.
  intros H%call_io_tr. eexists. split; [exact H |]. by apply Forall_singleton.
Qed.

Lemma run_pending_loop_tr : ∀ fuel (st st' : @state X),
  run_pending_loop P fuel st = Done st' → extends is_callback st st'.
Proof.
  induction fuel as [| fuel IH]; intros st st' H; simpl in H.
  - destruct (run_pq (lp st)); [| done]. injection H as <-.
    by apply extends_refl.
  - destruct (run_pq (lp st)) as [| w q].
    { injection H as <-. by apply extends_refl. }
    apply outcome_bind_Done in H as (s1 & H1%call_io_extends & H).
    apply IH in H. eapply extends_trans; [| exact H]. exact H1.
Qed.

Lemma uv__run_pending_tr fuel (st st' : @state X) b :
  uv__run_pending P fuel st = Done (st', b) → extends is_callback st st'.
Proof.
  unfold uv__run_pending. destruct (QUEUE_EMPTY _).
  { intros [= <- _]. by apply extends_refl. }
  intros (s1 & H1%run_pending_loop_tr & [= <- _])%outcome_bind_Done.
  exact H1.
Qed.

Lemma uv__finish_close_tr (st st' : @state X) h :
  uv__finish_close P st h = Done st' → extends is_callback st st'.
Proof.
  unfold uv__finish_close. intros H.
  apply outcome_bind_Done in H as ([] & _ & H).
  apply outcome_bind_Done in H as ([] & _ & H).
  apply outcome_bind_Done in H as (s1 & H1 & H).
  assert (Htr1 : tr s1 = tr st).
  { cbn [lp with_lp] in H1.
    destruct (type _); try (by injection H1 as <-); try done;
      by apply extern_tr in H1. }
  cbv zeta in H. cbn [lp with_lp tr] in H.
  destruct (close_cb _ =? NULL).
  - injection H as <-. by apply extends_refl.
  - apply extern_tr in H. cbn [log tr with_lp] in H. eexists.
    split; [by rewrite H, Htr1 |]. by apply Forall_singleton.
Qed.

Lemma closing_loop_tr : ∀ fuel (st st' : @state X) p,
  closing_loop P fuel st p = Done st' → extends is_callback st st'.
Proof.
  induction fuel as [| fuel IH]; intros st st' p H; simpl in H.
  - destruct (p =? NULL); [| done]. injection H as <-. by apply extends_refl.
  - destruct (p =? NULL). { injection H as <-. by apply extends_refl. }
    apply outcome_bind_Done in H as (s1 & H1%uv__finish_close_tr & H).
    apply IH in H. by eapply extends_trans.
Qed.

Lemma uv__run_closing_handles_tr fuel (st st' : @state X) :
  uv__run_closing_handles P fuel st = Done st' → extends is_callback st st'.
Proof. unfold uv__run_closing_handles. by intros H%closing_loop_tr. Qed.

(** The poll loop begins no iteration, and waits with timeout 0 only if
    that is the timeout it was given. *)
Lemma poll_loop_tr psigset base : ∀ fuel timeout rt count (st st' : @state X),
  poll_loop P fuel st psigset timeout rt base count = Done st' →
  extends (paced (timeout = 0)) st st'.
Proof.
  induction fuel as [| fuel IH]; intros timeout rt count st st' H; [done |].
  simpl in H.
  apply outcome_bind_Done in H as ([s1 v] & H1 & H).
  destruct (poll_round_spec P _ _ _ _ _ _ H1) as [(t1 & Ht1 & Hio1) Hv].
  assert (Hcap : timeout = 0 → @cap_timeout X timeout = 0).
  { intros ->. apply cap_timeout_0. }
  assert (Hcap' : @cap_timeout X timeout = 0 → timeout = 0).
  { unfold cap_timeout.
    destruct (long_is_int32 X && (max_safe_timeout <=? timeout)); [| done].
    unfold max_safe_timeout. lia. }
  assert (E1 : extends (paced (timeout = 0)) st s1).
  { exists (Wait (@cap_timeout X timeout) :: t1). split; [done |].
    constructor; [exact Hcap |]. eapply Forall_impl; [| exact Hio1].
    intros c Hc. by apply is_callback_paced, is_io_is_callback. }
  destruct v as [| t' c' |].
  - by injection H as <-.
  - apply IH in H. eapply extends_trans; [exact E1 |].
    eapply extends_impl; [| exact H]. intros c. apply paced_impl.
    intros Ht0. destruct Hv as [(-> & _) | (-> & _ & Hm)]; [done |].
    rewrite Hcap in Hm by done. lia.
  - apply outcome_bind_Done in H as ([] & _ & H).
    destruct (_ <=? 0). { by injection H as <-. }
    apply IH in H. eapply extends_trans; [exact E1 |].
    eapply extends_impl; [| exact H]. intros c. apply paced_impl.
    intros Ht0. destruct Hv as [Hv _]. by rewrite Hcap in Hv.
Qed.

Lemma uv__io_poll_tr fuel (st st' : @state X) timeout :
  uv__io_poll P fuel st timeout = Done st' →
  extends (paced (timeout = 0)) st st'.
Proof.
  unfold uv__io_poll. destruct (nfds (lp st) =? 0).
  { intros ([] & _ & [= <-])%outcome_bind_Done. by apply extends_refl. }
  intros H.
  apply outcome_bind_Done in H as (s1 & H1 & H).
  apply outcome_bind_Done in H as ([] & _ & H).
  destruct (flush_watcher_queue_inv _ st (le_n _)) as [_ Hf].
  destruct (Hf s1 H1) as (_ & _ & _ & Htr1).
  apply poll_loop_tr in H. eapply extends_trans; [| exact H].
  by apply extends_refl.
Qed.

Lemma uv__update_time_tr (st : @state X) : tr (uv__update_time st) = tr st.
Proof.
  unfold uv__update_time. by destruct (uv__hrtime X (os st)) as [k ns].
Qed.

(** One iteration of uv_run: it begins with [Iteration], goes on with
    callbacks and waits, and yields uv__loop_alive of the loop it leaves. *)
Lemma run_iteration_spec gas (st st' : @state X) mode r :
  run_iteration P gas st mode = Done (st', r) →
  (∃ t, tr st' = tr st ++ Iteration :: t ∧
        Forall (paced (mode = UV_RUN_NOWAIT)) t) ∧
  r = uv__loop_alive (lp st').
Proof.
  unfold run_iteration. cbv zeta. intros H.
  apply outcome_bind_Done in H as (s1 & H1 & H).
  apply outcome_bind_Done in H as ([s2 ran] & H2 & H).
  apply outcome_bind_Done in H as (s3 & H3 & H).
  apply outcome_bind_Done in H as (s4 & H4 & H).
  apply outcome_bind_Done in H as (s5 & H5 & H).
  apply outcome_bind_Done in H as (s6 & H6 & H).
  apply outcome_bind_Done in H as (s7 & H7 & H).
  apply outcome_bind_Done in H as (s8 & H8 & H).
  injection H as <- <-. split; [| done].
  apply extern_tr in H1. rewrite uv__update_time_tr in H1. cbn [log tr] in H1.
  apply uv__run_pending_tr in H2.
  apply extern_tr in H3. apply extern_tr in H4. apply uv__io_poll_tr in H5.
  apply extern_tr in H6. apply uv__run_closing_handles_tr in H7.
  assert (E8 : tr s8 = tr s7).
  { destruct mode; try (by injection H8 as <-).
    apply extern_tr in H8. by rewrite H8, uv__update_time_tr. }
  set (Q := paced (mode = UV_RUN_NOWAIT)).
  assert (Hcb : ∀ a b : @state X, extends is_callback a b → extends Q a b).
  { intros a b. apply extends_impl. intros c. apply is_callback_paced. }
  assert (E : extends Q s1 s8).
  { eapply extends_trans; [apply Hcb, H2 |].
    eapply extends_trans; [apply (extends_refl Q s2 s4); by rewrite H4, H3 |].
    eapply extends_trans; [| eapply extends_trans;
      [apply (extends_refl Q s5 s6 H6) | eapply extends_trans;
        [apply Hcb, H7 | apply (extends_refl Q s7 s8 E8)]]].
    eapply extends_impl; [| exact H5]. intros c. apply paced_impl.
    by intros ->. }
  destruct E as (t & Ht & Hq). exists t. split; [| done].
  by rewrite Ht, H1, <- app_assoc.
Qed.

(** X7: uv_run in the modes UV_RUN_ONCE and UV_RUN_NOWAIT makes at most one
    iteration, and in the mode UV_RUN_NOWAIT every call of epoll_pwait it
    makes has timeout 0. *)
Theorem uv_run_single_iteration fuel gas (st st' : @state X) mode r :
  mode ≠ UV_RUN_DEFAULT →
  uv_run P fuel gas st mode = Done (st', r) →
  ∃ t, tr st' = tr st ++ t ∧
       (t = [] ∨
        ∃ t', t = Iteration :: t' ∧ Forall (paced (mode = UV_RUN_NOWAIT)) t').
Proof.
  intros Hmode. unfold uv_run. cbv zeta.
  set (s0 := if uv__loop_alive (lp st) then st else uv__update_time st).
  assert (Hs0 : tr s0 = tr st).
  { unfold s0. destruct (uv__loop_alive (lp st)); [done |].
    apply uv__update_time_tr. }
  intros ([s1 r1] & H1 & [= <- _])%outcome_bind_Done.
  assert (Hfin : ∀ s : @state X,
            tr (if negb (stop_flag (lp s) =? 0)
                then with_lp s (set_stop_flag (lp s) 0) else s) = tr s).
  { intros s. by destruct (negb _). }
  rewrite Hfin, <- Hs0. clear Hfin Hs0.
  destruct fuel as [| fuel]; simpl in H1.
  - destruct (_ && _); [done |]. injection H1 as <- _.
    exists []. rewrite app_nil_r. split; [done |]. by left.
  - destruct (_ && _).
    + apply outcome_bind_Done in H1 as ([s2 r2] & H2 & H1).
      apply run_iteration_spec in H2 as [(t & Ht & Hq) _].
      destruct mode; [done | |]; injection H1 as <- _;
        (exists (Iteration :: t); split; [done |]; right; by exists t).
    + injection H1 as <- _.
      exists []. rewrite app_nil_r. split; [done |]. by left.
Qed.

Lemma run_loop_result gas mode : ∀ fuel (st st' : @state X) r0 r,
  run_loop P fuel gas st mode r0 = Done (st', r) →
  (r0 = uv__loop_alive (lp st) → r = uv__loop_alive (lp st')) ∧
  (mode = UV_RUN_DEFAULT → r = false ∨ stop_flag (lp st') ≠ 0).
Proof.
  induction fuel as [| fuel IH]; intros st st' r0 r H; simpl in H.
  - destruct (r0 && _) eqn:E; [done |]. injection H as <- <-.
    split; [done |]. intros _. apply andb_false_iff in E as [E | E]; [by left |].
    right. lia.
  - destruct (r0 && _) eqn:E.
    + apply outcome_bind_Done in H as ([s1 r1] & H1 & H).
      apply run_iteration_spec in H1 as [_ Hr1].
      destruct mode.
      * apply IH in H as [Ha Hb]. split; [intros _; by apply Ha | done].
      * injection H as <- <-. by split.
      * injection H as <- <-. by split.
    + injection H as <- <-.
      split; [done |]. intros _.
      apply andb_false_iff in E as [E | E]; [by left |]. right. lia.
Qed.

(** X8: the value uv_run returns is uv__loop_alive of the loop it leaves:
    1 if active handles, active requests or closing handles remain, 0
    otherwise. *)
Theorem uv_run_result fuel gas (st st' : @state X) mode r :
  uv_run P fuel gas st mode = Done (st', r) →
  r = Z.b2z (uv__loop_alive (lp st')).
Proof.
  unfold uv_run. cbv zeta.
  intros ([s1 r1] & H1 & [= <- <-])%outcome_bind_Done.
  apply run_loop_result in H1 as [H1 _].
  assert (Hfin : uv__loop_alive
                   (lp (if negb (stop_flag (lp s1) =? 0)
                        then with_lp s1 (set_stop_flag (lp s1) 0) else s1))
                 = uv__loop_alive (lp s1)).
  { by destruct (negb _). }
  rewrite Hfin. f_equal. apply H1.
  destruct (uv__loop_alive (lp st)) eqn:E; [done |].
  by rewrite uv__update_time_alive.
Qed.

(** X9: in the mode UV_RUN_DEFAULT the loop of uv_run is left only when
    the loop is no longer alive or stop_flag is set. *)
Theorem run_loop_default_exit fuel gas (st st' : @state X) r0 r :
  run_loop P fuel gas st UV_RUN_DEFAULT r0 = Done (st', r) →
  r = false ∨ stop_flag (lp st') ≠ 0.
Proof. intros H. by apply run_loop_result in H as [_ H]; apply H. Qed.

End RunTraces.

Lemma uv_run_single_iteration_witness :
  ∃ st' r,
    uv_run closing_program 1 10 (@Build_state scripted [] loop_close [])
      UV_RUN_ONCE = Done (st', r) ∧
    ∃ t, tr st' = [] ++ t ∧
         (t = [] ∨
          ∃ t', t = Iteration :: t' ∧
                Forall (paced (UV_RUN_ONCE = UV_RUN_NOWAIT)) t').
Proof.
  destruct (uv_run closing_program 1 10 (@Build_state scripted [] loop_close [])
              UV_RUN_ONCE) as [[st' r] | |] eqn:Hrun;
    [| vm_compute in Hrun; discriminate ..].
  exists st', r. split; [reflexivity |].
  apply (uv_run_single_iteration closing_program 1 10
           (@Build_state scripted [] loop_close []) st' UV_RUN_ONCE r).
  - discriminate.
  - exact Hrun.
Defined.

Lemma uv_run_result_witness :
  ∃ st' r,
    uv_run stopping_program 2 10 (@Build_state scripted [] loop_close [])
      UV_RUN_DEFAULT = Done (st', r) ∧
    r = Z.b2z (uv__loop_alive (lp st')).
Proof.
  destruct (uv_run stopping_program 2 10
              (@Build_state scripted [] loop_close []) UV_RUN_DEFAULT)
    as [[st' r] | |] eqn:Hrun; [| vm_compute in Hrun; discriminate ..].
  exists st', r. split; [reflexivity |].
  apply (uv_run_result stopping_program 2 10
           (@Build_state scripted [] loop_close []) st' UV_RUN_DEFAULT r).
  exact Hrun.
Defined.

Lemma run_loop_default_exit_witness :
  ∃ st' r,
    run_loop stopping_program 2 10 (@Build_state scripted [] loop_close [])
      UV_RUN_DEFAULT true = Done (st', r) ∧
    (r = false ∨ stop_flag (lp st') ≠ 0).
Proof.
  destruct (run_loop stopping_program 2 10
              (@Build_state scripted [] loop_close []) UV_RUN_DEFAULT true)
    as [[st' r] | |] eqn:Hrun; [| vm_compute in Hrun; discriminate ..].
  exists st', r. split; [reflexivity |].
  apply (run_loop_default_exit stopping_program 2 10
           (@Build_state scripted [] loop_close []) st' true r).
  exact Hrun.
Defined.

(** ** uv_close and uv__make_close_pending *)

Lemma has_flag_closing_is_closing h :
  has_flag h UV_HANDLE_CLOSING = true → uv__is_closing h = true.
Proof.
  unfold uv__is_closing, has_flag, UV_HANDLE_CLOSING, UV_HANDLE_CLOSED.
  intros H. apply negb_true_iff in H. apply negb_true_iff.
  apply Z.eqb_neq in H. apply Z.eqb_neq. intros H3. apply H.
  apply Z.bits_inj'. intros n Hn. rewrite Z.bits_0.
  apply (f_equal (λ z, Z.testbit z n)) in H3.
  rewrite Z.land_spec, Z.bits_0 in H3. rewrite Z.land_spec.
  destruct (decide (n = 0)) as [-> | Hn0].
  - change (Z.testbit (Z.lor 1 2) 0) with true in H3.
    by change (Z.testbit 1 0) with true.
  - replace (Z.testbit 1 n) with false; [by rewrite andb_false_r |].
    symmetry. change 1 with (2 ^ 0). rewrite Z.pow2_bits_eqb by lia.
    apply Z.eqb_neq. lia.
Qed.

(** X10: a handle cannot be closed twice: after uv_close has returned for
    a handle that is not a signal handle, a second uv_close of the same
    handle fails its assertion, whatever callback it is given. *)
Theorem uv_close_twice_aborts (X : externals) s h c s' c' :
  uv_close X s h c = Some s' →
  type (handles s.2 h) ≠ UV_SIGNAL →
  uv_close X s' h c' = None.
Proof.
  intros H Hns. apply uv_close_enqueues in H as [_ [Hcl _]]; [| done].
  apply has_flag_closing_is_closing in Hcl.
  unfold uv_close. by rewrite Hcl.
Qed.

Lemma uv_close_twice_aborts_witness :
  ∃ s', uv_close scripted ([], loop_close) 200 9 = Some s' ∧
        uv_close scripted s' 200 12 = None.
Proof.
  destruct (uv_close scripted ([], loop_close) 200 9) as [s' |] eqn:E;
    [| vm_compute in E; discriminate].
  exists s'. split; [reflexivity |].
  apply (uv_close_twice_aborts scripted ([], loop_close) 200 9 s' 12).
  - exact E.
  - vm_compute. discriminate.
Defined.

(** X11: uv__make_close_pending puts the handle in front of the handles
    that already await the closing phase, which keep their order: the list
    is last in, first out. *)
Theorem uv__make_close_pending_lifo loop h hs loop' :
  closing_chain loop (closing_handles loop) hs →
  h ≠ NULL → h ∉ hs →
  uv__make_close_pending loop h = Some loop' →
  closing_chain loop' (closing_handles loop') (h :: hs).
Proof.
  intros Hch Hh Hnin H. unfold uv__make_close_pending in H.
  apply bind_Some in H as ([] & _ & H).
  apply bind_Some in H as ([] & _ & H). injection H as <-.
  cbn [closing_handles set_closing_handles].
  constructor; [done |].
  unfold write_handle. cbn [handles set_handles set_closing_handles].
  rewrite upd_eq. cbn [next_closing set_next_closing].
  eapply closing_chain_ext; [exact Hch |].
  intros h' Hh'. unfold write_handle.
  cbn [handles set_handles set_closing_handles]. rewrite upd_ne; [done |].
  intros ->. by apply Hnin.
Qed.

Lemma uv__make_close_pending_lifo_witness :
  ∃ loop', uv__make_close_pending
             (write_handle loop_closing 300 (Build_handle UV_TCP 1 0 NULL)) 300
           = Some loop' ∧
           closing_chain loop' (closing_handles loop') [300; 200].
Proof.
  destruct (uv__make_close_pending
              (write_handle loop_closing 300 (Build_handle UV_TCP 1 0 NULL)) 300)
    as [loop' |] eqn:E; [| vm_compute in E; discriminate].
  exists loop'. split; [reflexivity |].
  apply (uv__make_close_pending_lifo
           (write_handle loop_closing 300 (Build_handle UV_TCP 1 0 NULL))
           300 [200]).
  - constructor; [vm_compute; discriminate |].
    replace (next_closing _) with NULL by (vm_compute; reflexivity).
    constructor.
  - unfold NULL. lia.
  - intros Hin. apply list_elem_of_singleton in Hin. lia.
  - exact E.
Defined.

(** ** uv__run_pending *)

Lemma QUEUE_REMOVE_head w q : w ∉ q → QUEUE_REMOVE w (w :: q) = q.
Proof.
  intros Hw. unfold QUEUE_REMOVE. rewrite list.filter_cons.
  destruct (decide (w ≠ w)) as [Hn | _]; [by destruct Hn |].
  induction q as [| x q IH]; [done |].
  rewrite list.filter_cons.
  destruct (decide (x ≠ w)) as [_ | Hn].
  - f_equal. apply IH. intros Hin. apply Hw. by apply list_elem_of_further.
  - exfalso. apply Hw. apply dec_stable in Hn. subst. apply list_elem_of_here.
Qed.

Section Pending.

Context {X : externals} (P : program X).

Hypothesis Hkeep : keeps_run_pq P.

Lemma run_pending_loop_spec : ∀ fuel (st : @state X),
  NoDup (run_pq (lp st)) → (length (run_pq (lp st)) ≤ fuel)%nat →
  run_pending_loop P fuel st ≠ OutOfFuel ∧
  ∀ st', run_pending_loop P fuel st = Done st' →
    run_pq (lp st') = [] ∧
    ∃ t, tr st' = tr st ++ t ∧ Forall2 pending_call t (run_pq (lp st)).
Proof.
  induction fuel as [| fuel IH]; intros st Hnd Hlen; simpl.
  - destruct (run_pq (lp st)) as [| w q] eqn:Eq; [| simpl in Hlen; lia].
    split; [done |]. intros st' [= <-]. split; [done |].
    exists []. rewrite app_nil_r. split; [done |]. constructor.
  - destruct (run_pq (lp st)) as [| w q] eqn:Eq.
    { split; [done |]. intros st' [= <-]. split; [done |].
      exists []. rewrite app_nil_r. split; [done |]. constructor. }
    inversion Hnd as [| ? ? Hw Hq]; subst.
    rewrite QUEUE_REMOVE_head by done.
    set (st1 := with_lp st (set_run_pq (lp st) q)).
    destruct (call_io P st1 w POLLOUT) as [s2 | |] eqn:E;
      [| done | by apply call_io_fuel in E].
    rewrite outcome_bind_Done_eq.
    pose proof (call_io_tr P _ _ _ _ E) as Htr2.
    unfold call_io in E. apply extern_Done in E as (s & Hs & ->).
    apply Hkeep in Hs. cbn [snd] in Hs.
    change (run_pq (lp (log st1 _))) with q in Hs.
    set (s2 := with_sys _ s) in *.
    assert (Hq2 : run_pq (lp s2) = q) by exact Hs.
    destruct (IH s2) as [Hf Hd].
    { by rewrite Hq2. } { rewrite Hq2. simpl in Hlen. lia. }
    split; [exact Hf |]. intros st' Hst'.
    destruct (Hd st' Hst') as (Hempty & t & Ht & Hcalls).
    split; [exact Hempty |].
    exists (CallIo (cb (io (lp st1) w)) w POLLOUT :: t). split.
    + rewrite Ht, Htr2. by rewrite <- app_assoc.
    + constructor; [by eexists |]. by rewrite Hq2 in Hcalls.
Qed.

(** X12: uv__run_pending returns 0 and calls nothing when the pending
    queue is empty.  Otherwise, if the callbacks leave the queue being
    drained alone, it ends within as many rounds as the queue is long and
    returns 1 after calling the callback of each queued watcher once, with
    POLLOUT, in queue order; watchers fed meanwhile are not called. *)
Theorem uv__run_pending_spec fuel (st : @state X) :
  NoDup (pending_queue (lp st)) →
  (length (pending_queue (lp st)) ≤ fuel)%nat →
  uv__run_pending P fuel st ≠ OutOfFuel ∧
  (pending_queue (lp st) = [] → uv__run_pending P fuel st = Done (st, false)) ∧
  ∀ st' b, uv__run_pending P fuel st = Done (st', b) →
    pending_queue (lp st) ≠ [] →
    b = true ∧ run_pq (lp st') = [] ∧
    ∃ t, tr st' = tr st ++ t ∧ Forall2 pending_call t (pending_queue (lp st)).
Proof.
  intros Hnd Hlen. unfold uv__run_pending.
  destruct (pending_queue (lp st)) as [| w q] eqn:Eq.
  { split; [done |]. split; [done |]. by intros st' b _ Hne. }
  cbn [QUEUE_EMPTY].
  set (st1 := with_lp st _).
  destruct (run_pending_loop_spec fuel st1) as [Hf Hd]; [done | done |].
  split; [| split; [done |]].
  - destruct (run_pending_loop P fuel st1); done.
  - intros st' b H _.
    apply outcome_bind_Done in H as (s2 & H2 & [= <- <-]).
    destruct (Hd s2 H2) as (Hempty & t & Ht & Hcalls).
    split; [done |]. split; [done |]. by exists t.
Qed.

End Pending.

Lemma keeps_run_pq_feeding_program : keeps_run_pq feeding_program.
Proof.
  intros c w ev s s' [= <-]. cbn [snd]. unfold uv__io_feed.
  by destruct (_ || _).
Qed.

Lemma uv__run_pending_spec_witness :
  ∃ st' b,
    uv__run_pending feeding_program 2
      (@Build_state scripted [] loop_pending []) = Done (st', b) ∧
    b = true ∧ run_pq (lp st') = [] ∧
    ∃ t, tr st' = [] ++ t ∧ Forall2 pending_call t [100; 102].
Proof.
  destruct (uv__run_pending_spec feeding_program keeps_run_pq_feeding_program 2
              (@Build_state scripted [] loop_pending [])) as (_ & _ & H).
  - vm_compute. repeat constructor; intros Hin.
    + apply list_elem_of_singleton in Hin. lia.
    + by apply elem_of_nil in Hin.
  - vm_compute. lia.
  - destruct (uv__run_pending feeding_program 2
                (@Build_state scripted [] loop_pending []))
      as [[st' b] | |] eqn:E; [| vm_compute in E; discriminate ..].
    exists st', b. split; [reflexivity |].
    apply (H st' b eq_refl). vm_compute. discriminate.
Defined.

(** ** uv__platform_invalidate_fd *)

Lemma invalidate_events_spec f : ∀ n i evs evs',
  0 ≤ i → invalidate_events n i evs f = Some evs' →
(n = 0 ∨ Z.to_nat i + n ≤ length evs)%nat ∧
  ∀ j pe, evs !! j = Some pe →
    evs' !! j =
    Some (if decide ((Z.to_nat i ≤ j < Z.to_nat i + n)%nat ∧ ev_fd pe = f)
          then Build_event (ev_events pe) (-1) else pe).
Proof.
  induction n as [| n IH]; intros i evs evs' Hi H; simpl in H.
  - injection H as <-. split; [| intros j pe Hj].
    + lia.
    + rewrite Hj. f_equal.
      destruct (decide _) as [[? _] | _]; [lia | done].
  - apply bind_Some in H as (pe0 & H0 & H).
    pose proof (lookup_lt_Some _ _ _ H0) as Hlt.
    apply IH in H as [Hlen H]; [| lia].
    replace (Z.to_nat (i + 1)) with (S (Z.to_nat i)) in * by lia.
    split.
    { right.
      destruct (ev_fd pe0 =? f); [rewrite length_insert in Hlen |]; lia. }
    intros j pe Hj.
    destruct (decide (j = Z.to_nat i)) as [-> | Hne].
    + assert (pe = pe0) as -> by congruence.
      destruct (ev_fd pe0 =? f) eqn:E.
      * rewrite (H (Z.to_nat i) (Build_event (ev_events pe0) (-1)))
          by (by rewrite list_lookup_insert_eq).
        f_equal.
        destruct (decide _) as [[? _] | _]; [lia |].
        destruct (decide _) as [_ | Hn]; [done |].
        exfalso. apply Hn. split; lia.
      * rewrite (H (Z.to_nat i) pe0 H0). f_equal.
        destruct (decide _) as [[? _] | _]; [lia |].
        destruct (decide _) as [[_ ?] | _]; [lia | done].
    + assert (Hj' : (if ev_fd pe0 =? f
                     then <[Z.to_nat i := Build_event (ev_events pe0) (-1)]> evs
                     else evs) !! j = Some pe).
      { destruct (ev_fd pe0 =? f); [| done].
        by rewrite list_lookup_insert_ne. }
      rewrite (H j pe Hj'). f_equal.
      destruct (decide _) as [[? ?] | Hn1];
        destruct (decide _) as [[? ?] | Hn2]; try done.
      * exfalso. apply Hn2. split; [lia | done].
      * exfalso. apply Hn1. split; [lia | done].
Qed.

Section Invalidate.

Context {X : externals} (P : program X).

(** X13: during a poll, when the trailing slots of the fd table hold the
    event buffer and the number [n] of its events,
    uv__platform_invalidate_fd(fd) sets to -1 the fd of every one of these
    events that is for [fd] and leaves the others as they are; the
    dispatch loop of uv__io_poll then passes over such an event: it calls
    no callback and changes nothing. *)
Theorem uv__platform_invalidate_fd_spec (s s' : K X * uv_loop_t) f n :
  trailing s.2 = (events_addr X, n) → table_wf s.2 →
  nwatchers s.2 < 2 ^ 31 → is_Some (watchers s.2) →
  events_addr X ≠ NULL → 0 ≤ n < 2 ^ 32 →
  uv__platform_invalidate_fd s f = Some s' →
  (Z.to_nat n ≤ length (poll_events s.2))%nat ∧
  ∀ i pe, 0 ≤ i → poll_events s.2 !! Z.to_nat i = Some pe →
    (i < n → ev_fd pe = f →
     poll_events s'.2 !! Z.to_nat i = Some (Build_event (ev_events pe) (-1)) ∧
     ∀ t hs nev,
       dispatch_event P (@Build_state X s'.1 s'.2 t) i hs nev
       = Done (@Build_state X s'.1 s'.2 t, hs, nev)) ∧
    (n ≤ i ∨ ev_fd pe ≠ f → poll_events s'.2 !! Z.to_nat i = Some pe).
Proof.
  intros Htr [Hnw0 _] Hnw [tbl Htbl] Hnn Hn H.
  unfold uv__platform_invalidate_fd in H.
  cbv zeta in H. unfold trailing in Htr. rewrite Htbl in Htr, H.
  rewrite bind_Some_eq in H.
  assert (Hw : wrap32 (nwatchers s.2 + 1) = nwatchers s.2 + 1)
    by (apply Z.mod_small; lia).
  rewrite Hw in H.
  apply bind_Some in H as (ev & Hev & H).
  apply bind_Some in H as (m & Hm & H).
  rewrite Hev, Hm in Htr. injection Htr as -> ->.
  apply bind_Some in H as (l1 & H1 & H).
  destruct (events_addr X =? NULL) eqn:E0; [lia |].
  rewrite Z.eqb_refl in H1.
  apply bind_Some in H1 as (evs & Hevs & [= <-]).
  assert (Hu : @uintptr_of X n = n).
  { unfold uintptr_of. apply Z.mod_small.
    destruct (long_is_int32 X); lia. }
  rewrite Hu in Hevs.
  apply invalidate_events_spec in Hevs as [Hlen Hevs]; [| lia].
  assert (Hpe : poll_events s'.2 = evs).
  { cbn [backend_fd set_poll_events] in H.
    destruct (0 <=? backend_fd s.2).
    - destruct (epoll_ctl X _ _ _ _ _) as [k e]. by injection H as <-.
    - by injection H as <-. }
  split; [simpl in Hlen; lia |].
  intros i pe Hi Hlk. specialize (Hevs _ _ Hlk). rewrite Hpe. split.
  - intros Hin Hf.
    destruct (decide _) as [_ | Hn1] in Hevs;
      [| exfalso; apply Hn1; split; [simpl; lia | done]].
    split; [exact Hevs |]. intros t hs nev. unfold dispatch_event.
    cbn [lp]. rewrite Hpe, Hevs. cbn [of_option].
    rewrite outcome_bind_Done_eq. by cbn [ev_fd Z.eqb].
  - intros Hout.
    destruct (decide _) as [[? ?] | _] in Hevs; [| done].
    destruct Hout; [simpl in *; lia | done].
Qed.

End Invalidate.

Lemma uv__platform_invalidate_fd_spec_witness :
  ∃ s', uv__platform_invalidate_fd (X:=scripted) ([], loop_events) 1 = Some s' ∧
        poll_events s'.2 !! Z.to_nat 0 = Some (Build_event POLLIN (-1)) ∧
        poll_events s'.2 !! Z.to_nat 1 = Some (Build_event POLLIN 9) ∧
        poll_events s'.2 !! Z.to_nat 2 = Some (Build_event POLLOUT (-1)).
Proof.
  destruct (uv__platform_invalidate_fd (X:=scripted) ([], loop_events) 1)
    as [s' |] eqn:E; [| vm_compute in E; discriminate].
  exists s'. split; [reflexivity |].
  destruct (uv__platform_invalidate_fd_spec closing_program
              ([], loop_events) s' 1 3) as [_ H].
  - vm_compute. reflexivity.
  - split; [cbn; lia | reflexivity].
  - cbn. lia.
  - vm_compute. eexists. reflexivity.
  - vm_compute. discriminate.
  - lia.
  - exact E.
  - split; [| split].
    + apply (H 0 (Build_event POLLIN 1)); [lia | reflexivity | lia | reflexivity].
    + apply (H 1 (Build_event POLLIN 9)); [lia | reflexivity |].
      right. simpl. lia.
    + apply (H 2 (Build_event POLLOUT 1));
        [lia | reflexivity | lia | reflexivity].
Defined.

(** ** The largest fd *)

(** X14: uv__io_start does not return for a watcher whose fd is
    INT_MAX - 1 and lies beyond the table: the length asked of
    next_power_of_two is above 2^31, it wraps to 0, and maybe_resize comes
    to a table of no slots. *)
Theorem uv__io_start_largest_fd loop w evs :
  table_wf loop → fd (io loop w) = INT_MAX - 1 →
  nwatchers loop ≤ fd (io loop w) →
  next_power_of_two (fd (io loop w) + 3) = 0 ∧
  uv__io_start loop w evs = None.
Proof.
  intros Hwf Hfd Hnw. split.
  { rewrite Hfd. vm_compute. reflexivity. }
  destruct (uv__io_start loop w evs) as [l' |] eqn:H; [exfalso | done].
  unfold uv__io_start in H. passed H. passed H. passed H. passed H.
  cbv zeta in H. apply bind_Some in H as (l1 & Hres & _).
  set (l0 := write_io loop w _) in Hres.
  assert (Hfd0 : fd (io l0 w) = fd (io loop w)).
  { unfold l0, write_io. cbn [io set_io]. by rewrite upd_eq. }
  rewrite Hfd0, Hfd in Hres.
  rewrite (maybe_resize_overflow l0) in Hres; [done | exact Hwf | ..].
  - vm_compute. split; [discriminate | reflexivity].
  - change (nwatchers l0) with (nwatchers loop). rewrite Hfd in Hnw.
    replace (wrap32 (INT_MAX - 1 + 1)) with (INT_MAX - 1 + 1)
      by (vm_compute; reflexivity).
    lia.
  - vm_compute. reflexivity.
Qed.

Lemma uv__io_start_largest_fd_witness :
  next_power_of_two
    (fd (io (write_io loop0 100 (Build_io 7 (INT_MAX - 1) 0 0)) 100) + 3) = 0 ∧
  uv__io_start (write_io loop0 100 (Build_io 7 (INT_MAX - 1) 0 0)) 100 POLLIN
  = None.
Proof.
  apply (uv__io_start_largest_fd
           (write_io loop0 100 (Build_io 7 (INT_MAX - 1) 0 0)) 100 POLLIN).
  - split; [cbn; lia | reflexivity].
  - reflexivity.
  - vm_compute. discriminate.
Defined.

(** ** The watchers that wait for the flush *)

(** What uv__io_start does to watcher_queue. *)
Lemma uv__io_start_queue loop w evs l' :
  table_wf loop → uv__io_start loop w evs = Some l' →
  evs ≠ 0 ∧
  ∀ u, u ∈ watcher_queue l' → u ∈ watcher_queue loop ∨ u = w.
Proof.
  intros Hwf H. unfold uv__io_start in H.
  passed H. passed H. passed H. passed H. cbv zeta in H.
  split; [lia |].
  set (l0 := write_io loop w _) in *.
  assert (Hfd0 : fd (io l0 w) = fd (io loop w)).
  { unfold l0, write_io. cbn [io set_io]. by rewrite upd_eq. }
  rewrite Hfd0 in H.
  apply bind_Some in H as (l1 & Hres & H).
  assert (Hq1 : watcher_queue l1 = watcher_queue loop).
  { assert (Hlen : 0 ≤ wrap32 (fd (io loop w) + 1) < 2 ^ 32)
      by (apply Z.mod_pos_bound; lia).
    by destruct (maybe_resize_frame l0 _ _ Hwf Hlen Hres)
      as (_ & _ & _ & _ & _ & Hq & _). }
  destruct (events (io l1 w) =? pevents (io l1 w)).
  { injection H as <-. intros u Hu. left. by rewrite <- Hq1. }
  set (l2 := if on_queue w (watcher_queue l1) then l1 else _) in H.
  assert (Hq2 : ∀ u, u ∈ watcher_queue l2 → u ∈ watcher_queue loop ∨ u = w).
  { intros u. unfold l2. destruct (on_queue w (watcher_queue l1)).
    - rewrite Hq1. by left.
    - cbn [watcher_queue set_watcher_queue].
      rewrite elem_of_QUEUE_INSERT_TAIL, Hq1. tauto. }
  apply bind_Some in H as (tbl & _ & H).
  apply bind_Some in H as (v & _ & H).
  destruct (v =? NULL).
  - apply bind_Some in H as (tbl' & _ & H). injection H as <-. exact Hq2.
  - injection H as <-. exact Hq2.
Qed.

(** What uv__io_stop does to watcher_queue and to the watchers. *)
Lemma uv__io_stop_queue loop w evs l' :
  uv__io_stop loop w evs = Some l' →
  (∀ u, u ≠ w → io l' u = io loop u) ∧
  (∀ u, u ∈ watcher_queue l' →
        (u ≠ w ∧ u ∈ watcher_queue loop) ∨
        (u ∈ watcher_queue loop ∧ io l' = io loop) ∨
        (u = w ∧ 0 ≤ fd (io loop w) ∧ wrap32 (fd (io loop w)) < nwatchers loop ∧
         pevents (io l' w) ≠ 0)).
Proof.
  intros H. unfold uv__io_stop in H. passed H. passed H.
  destruct (fd (io loop w) =? -1).
  { injection H as <-. split; [done |]. intros u Hu. right. left. done. }
  passed H.
  destruct (nwatchers loop <=? wrap32 (fd (io loop w))) eqn:Enw.
  { injection H as <-. split; [done |]. intros u Hu. right. left. done. }
  cbv zeta in H.
  set (l0 := write_io loop w _) in *.
  assert (Hio0 : ∀ u, u ≠ w → io l0 u = io loop u).
  { intros u Hu. unfold l0, write_io. cbn [io set_io]. by rewrite upd_ne. }
  destruct (pevents (io l0 w) =? 0) eqn:Ep.
  - set (l1 := set_watcher_queue l0 _) in *.
    assert (Hq1 : ∀ u, u ∈ watcher_queue l1 → u ≠ w ∧ u ∈ watcher_queue loop).
    { intros u. unfold l1. cbn [watcher_queue set_watcher_queue].
      by rewrite elem_of_QUEUE_REMOVE. }
    apply bind_Some in H as (tbl & _ & H).
    apply bind_Some in H as (v & _ & H).
    destruct (negb (v =? NULL)).
    + passed H. passed H. apply bind_Some in H as (tbl' & _ & H).
      injection H as <-. split.
      * intros u Hu. unfold write_io. cbn [io set_io].
        rewrite upd_ne by done. by apply Hio0.
      * intros u Hu. left. by apply Hq1.
    + injection H as <-. split; [exact Hio0 |].
      intros u Hu. left. by apply Hq1.
  - assert (Hpw : pevents (io l0 w) ≠ 0) by lia.
    destruct (on_queue w (watcher_queue l0)) eqn:Eon; injection H as <-.
    + split; [exact Hio0 |]. intros u Hu.
      destruct (decide (u = w)) as [-> | Hne]; [| by left].
      right. right. split; [done |]. split; [lia |]. split; [lia | done].
    + split; [exact Hio0 |]. intros u Hu.
      cbn [watcher_queue set_watcher_queue] in Hu.
      apply elem_of_QUEUE_INSERT_TAIL in Hu as [Hu | ->].
      * destruct (decide (u = w)) as [-> | Hne]; [| by left].
        apply on_queue_false in Eon. by destruct Eon.
      * right. right. split; [done |]. split; [lia |]. split; [lia | done].
Qed.

Lemma maybe_resize_below loop len l1 :
  table_wf loop → nwatchers loop < 2 ^ 31 → 0 ≤ len < 2 ^ 32 →
  maybe_resize loop len = Some l1 →
  nwatchers loop ≤ nwatchers l1 < 2 ^ 31.
Proof.
  intros Hwf Hnw Hlen Hres.
  destruct (decide (len ≤ nwatchers loop)) as [Hle | Hgt].
  { unfold maybe_resize in Hres.
    rewrite (proj2 (Z.leb_le _ _)) in Hres by lia. injection Hres as <-.
    destruct Hwf as [? _]. lia. }
  destruct (decide (2 ^ 31 < len + 2)) as [Hbig | Hsmall].
  { rewrite maybe_resize_overflow in Hres; [done | done | lia ..]. }
  destruct (maybe_resize_returns loop len l1 Hwf Hlen ltac:(lia) Hres)
    as (Hn & Hleast & _).
  destruct Hwf as [Hnw0 _].
  pose proof (least_pow2_ge_bounds len _ ltac:(lia) ltac:(lia) Hleast). lia.
Qed.

(** One call of uv__io_start or uv__io_stop keeps what the flush
    asserts. *)
Lemma apply_op_queue_ok w loop op l' :
  w ≠ NULL → nfds_exact loop → queue_ok loop →
  apply_op w loop op = Some l' → queue_ok l'.
Proof.
  intros Hw Hex (Hwf & Hnw & Hq) H.
  destruct (apply_op_table w loop op l' Hw Hex H) as [(Hwf' & _ & _) _].
  destruct Hex as (_ & Hint & _).
  destruct op as [evs | evs]; simpl in H.
  - destruct (uv__io_start_table _ _ _ _ Hwf H)
      as (Hfd & l1 & Hres & Hnw1 & Hio & _).
    destruct (uv__io_start_queue _ _ _ _ Hwf H) as [Hevs Hin].
    set (l0 := write_io loop w _) in Hres.
    assert (Hlen : 0 ≤ fd (io loop w) + 1 < 2 ^ 32)
      by (unfold INT_MAX in *; lia).
    destruct (maybe_resize_below l0 _ l1 Hwf Hnw Hlen Hres) as [Hmono Hlt].
    destruct (maybe_resize_frame l0 _ l1 Hwf Hlen Hres)
      as (_ & Hge & _ & _ & Hio1 & _).
    change (nwatchers l0) with (nwatchers loop) in Hmono.
    split; [exact Hwf' |]. split; [lia |].
    intros u Hu. rewrite Hio, Hio1, Hnw1. unfold l0, write_io.
    cbn [io set_io].
    destruct (decide (u = w)) as [-> | Hne].
    + rewrite upd_eq. cbn [pevents fd set_pevents]. split; [| lia].
      intros H0. apply Z.lor_eq_0_iff in H0 as [_ H0]. done.
    + rewrite upd_ne by done.
      destruct (Hin u Hu) as [Hu' | ->]; [| done].
      destruct (Hq u Hu') as [? ?]. split; [done | lia].
  - destruct (uv__io_stop_table _ _ _ _ H) as (Hnw1 & Hfds & _ & _).
    destruct (uv__io_stop_queue _ _ _ _ H) as [Hother Hin].
    split; [exact Hwf' |]. split; [lia |].
    intros u Hu. rewrite Hnw1.
    destruct (Hin u Hu) as [[Hne Hu'] | [[Hu' Hio] | (-> & Hfd & Hlt & Hp)]].
    + rewrite (Hother u Hne). by apply Hq.
    + rewrite Hio. by apply Hq.
    + split; [done |]. rewrite Hfds. specialize (Hint w).
      unfold wrap32, INT_MAX in *. rewrite Z.mod_small in Hlt by lia. lia.
Qed.

(** X15: the watchers that uv__io_start and uv__io_stop leave on
    watcher_queue are such as the flush of uv__io_poll asserts them to be:
    each has events to register and an fd that lies inside the table. *)
Theorem run_calls_queue_ok loop calls l' :
  nfds_exact loop → queue_ok loop → Forall (λ c, c.1 ≠ NULL) calls →
  run_calls loop calls = Some l' →
  queue_ok l'.
Proof.
  intros Hex Hok Hall. revert loop Hex Hok.
  induction Hall as [| [w op] calls Hw _ IH]; intros loop Hex Hok H;
    simpl in H.
  - by injection H as <-.
  - apply bind_Some in H as (l1 & H1 & H). apply (IH l1); [| | done].
    + by apply (apply_op_table w loop op).
    + by apply (apply_op_queue_ok w loop op).
Qed.

Lemma queue_ok_loop_w5 : queue_ok loop_w5.
Proof.
  split; [split; [cbn; lia | reflexivity] |]. split; [cbn; lia |].
  intros w Hw. by apply elem_of_nil in Hw.
Qed.

Lemma run_calls_queue_ok_witness :
  ∃ l', run_calls loop_w5 [(100, Start POLLIN); (100, Stop POLLOUT)] = Some l' ∧
        queue_ok l'.
Proof.
  destruct (run_calls loop_w5 [(100, Start POLLIN); (100, Stop POLLOUT)])
    as [l' |] eqn:Hrun; [| vm_compute in Hrun; discriminate].
  exists l'. split; [reflexivity |].
  apply (run_calls_queue_ok loop_w5
           [(100, Start POLLIN); (100, Stop POLLOUT)]).
  - exact nfds_exact_loop_w5.
  - exact queue_ok_loop_w5.
  - repeat constructor; unfold NULL; simpl; lia.
  - exact Hrun.
Defined.

Section FlushReturns.

Context {X : externals}.

Hypothesis Hctl : epoll_ctl_succeeds X.

Lemma flush_watcher_returns (st : @state X) w :
  0 ≤ nwatchers (lp st) < 2 ^ 31 →
  pevents (io (lp st) w) ≠ 0 → 0 ≤ fd (io (lp st) w) < nwatchers (lp st) →
  ∃ st', flush_watcher st w = Done st'.
Proof.
  intros Hnw Hp Hfd. unfold flush_watcher. cbv zeta.
  cbn [io nwatchers set_watcher_queue backend_fd].
  rewrite (check_true (negb _)) by (apply negb_true_iff; lia).
  rewrite outcome_bind_Done_eq.
  rewrite (check_true (0 <=? _)) by lia. rewrite outcome_bind_Done_eq.
  assert (Hi : int32_of (nwatchers (lp st)) = nwatchers (lp st)).
  { unfold int32_of. rewrite Z.mod_small by lia. lia. }
  rewrite Hi. rewrite (check_true (_ <? _)) by lia.
  rewrite outcome_bind_Done_eq.
  pose proof (Hctl (os st) (backend_fd (lp st))
                (if events (io (lp st) w) =? 0
                 then EPOLL_CTL_ADD else EPOLL_CTL_MOD)
                (fd (io (lp st) w)) (pevents (io (lp st) w))) as Herr.
  destruct (epoll_ctl X _ _ _ _ _) as [k err]. simpl in Herr. subst err.
  cbn [Z.eqb]. rewrite outcome_bind_Done_eq. by eexists.
Qed.

(** X16: on a kernel that accepts every epoll_ctl, the flush of uv__io_poll
    returns whenever the watchers on watcher_queue are as it asserts them
    to be. *)
Theorem flush_watcher_queue_returns n (st : @state X) :
  queue_ok (lp st) → (length (watcher_queue (lp st)) ≤ n)%nat →
  ∃ st', flush_watcher_queue n st = Done st' ∧ watcher_queue (lp st') = [].
Proof.
  intros (Hwf & Hnw & Hq) Hlen. destruct Hwf as [Hnw0 _].
  assert (Hnw' : 0 ≤ nwatchers (lp st) < 2 ^ 31) by lia. clear Hnw Hnw0.
  revert st Hnw' Hq Hlen. induction n as [| n IH]; intros st Hnw Hq Hlen.
  - destruct (watcher_queue (lp st)) as [| w q] eqn:Eq; [| simpl in Hlen; lia].
    exists st. simpl. by rewrite Eq.
  - simpl. destruct (watcher_queue (lp st)) as [| w q] eqn:Eq.
    { by exists st. }
    destruct (Hq w (list_elem_of_here _ _)) as [Hp Hfd].
    destruct (flush_watcher_returns st w Hnw Hp Hfd) as [s1 H1].
    rewrite H1, outcome_bind_Done_eq.
    destruct (flush_watcher_spec _ _ _ H1)
      as (Hq1 & _ & Hpev1 & _ & Hother & _).
    assert (Hnw1 : nwatchers (lp s1) = nwatchers (lp st)).
    { unfold flush_watcher in H1. cbv zeta in H1.
      apply outcome_bind_Done in H1 as ([] & _ & H1).
      apply outcome_bind_Done in H1 as ([] & _ & H1).
      apply outcome_bind_Done in H1 as ([] & _ & H1).
      destruct (epoll_ctl X _ _ _ _ _) as [k err].
      apply outcome_bind_Done in H1 as (k' & _ & H1). by injection H1 as <-. }
    rewrite Eq in Hq1.
    apply IH.
    + by rewrite Hnw1.
    + intros u Hu. rewrite Hq1 in Hu.
      apply elem_of_QUEUE_REMOVE in Hu as [Hne Hu].
      rewrite (Hother u Hne), Hnw1. by apply Hq.
    + rewrite Hq1. pose proof (length_QUEUE_REMOVE_head w q).
      simpl in Hlen. lia.
Qed.

End FlushReturns.

Lemma epoll_ctl_succeeds_quiet : epoll_ctl_succeeds quiet.
Proof. by intros k epfd op f evs. Qed.

Lemma queue_ok_started_w5 : queue_ok started_w5.
Proof.
  split; [split; [vm_compute; split; [discriminate | reflexivity] |
                  vm_compute; reflexivity] |].
  split; [vm_compute; reflexivity |].
  intros w Hw.
  assert (Hq : watcher_queue started_w5 = [100]) by (vm_compute; reflexivity).
  rewrite Hq in Hw. apply list_elem_of_singleton in Hw as ->.
  vm_compute. split; [discriminate |]. split; [discriminate | reflexivity].
Qed.

Lemma flush_watcher_queue_returns_witness :
  ∃ st', flush_watcher_queue 1 (@Build_state quiet () started_w5 []) = Done st' ∧
         watcher_queue (lp st') = [].
Proof.
  apply (flush_watcher_queue_returns epoll_ctl_succeeds_quiet 1
           (@Build_state quiet () started_w5 [])).
  - exact queue_ok_started_w5.
  - vm_compute. lia.
Defined.

(** ** uv__io_feed *)

(** X17: uv__io_feed puts a watcher on the pending queue unless it already
    waits there or on the queue that uv__run_pending is draining: the two
    queues never hold a watcher twice, the watchers already queued keep
    their places, and feeding a watcher again changes nothing. *)
Theorem uv__io_feed_once loop w :
  NoDup (run_pq loop ++ pending_queue loop) →
  NoDup (run_pq (uv__io_feed loop w) ++ pending_queue (uv__io_feed loop w)) ∧
  w ∈ run_pq (uv__io_feed loop w) ++ pending_queue (uv__io_feed loop w) ∧
  run_pq (uv__io_feed loop w) = run_pq loop ∧
  pending_queue loop `prefix_of` pending_queue (uv__io_feed loop w) ∧
  uv__io_feed (uv__io_feed loop w) w = uv__io_feed loop w.
Proof.
  intros Hnd.
  destruct (on_queue w (pending_queue loop) || on_queue w (run_pq loop)) eqn:E.
  - assert (Hl : uv__io_feed loop w = loop).
    { unfold uv__io_feed. by rewrite E. }
    rewrite !Hl. split; [done |]. split; [| done].
    apply elem_of_app. apply orb_true_iff in E as [E | E];
      apply on_queue_true in E; [by right | by left].
  - assert (Hl : uv__io_feed loop w
                 = set_pending_queue loop
                     (QUEUE_INSERT_TAIL (pending_queue loop) w)).
    { unfold uv__io_feed. by rewrite E. }
    rewrite !Hl. clear Hl.
    apply orb_false_iff in E as [E1 E2].
    apply on_queue_false in E1. apply on_queue_false in E2.
    cbn [run_pq pending_queue set_pending_queue]. unfold QUEUE_INSERT_TAIL.
    split.
    + rewrite app_assoc. apply list.NoDup_app. split; [done |]. split.
      * intros x Hx Hx'. apply list_elem_of_singleton in Hx' as ->.
        apply elem_of_app in Hx as [Hx | Hx]; [by apply E2 | by apply E1].
      * apply list.NoDup_singleton.
    + split; [rewrite !elem_of_app; right; right; apply list_elem_of_here |].
      split; [done |]. split; [by apply prefix_app_r |].
      unfold uv__io_feed. cbn [run_pq pending_queue set_pending_queue].
      replace (on_queue w (pending_queue loop ++ [w])) with true; [done |].
      symmetry. apply on_queue_true, elem_of_app. right.
      apply list_elem_of_here.
Qed.

Lemma uv__io_feed_once_witness :
  NoDup (run_pq (uv__io_feed loop_pending 101)
         ++ pending_queue (uv__io_feed loop_pending 101)) ∧
  101 ∈ run_pq (uv__io_feed loop_pending 101)
        ++ pending_queue (uv__io_feed loop_pending 101) ∧
  run_pq (uv__io_feed loop_pending 101) = run_pq loop_pending ∧
  pending_queue loop_pending
    `prefix_of` pending_queue (uv__io_feed loop_pending 101) ∧
  uv__io_feed (uv__io_feed loop_pending 101) 101 = uv__io_feed loop_pending 101.
Proof.
  apply (uv__io_feed_once loop_pending 101).
  vm_compute. repeat constructor; intros Hin.
  - apply list_elem_of_singleton in Hin. lia.
  - by apply elem_of_nil in Hin.
Defined.

(** ** uv_fileno *)

(** X18: uv_fileno does not hand out the descriptor of a handle that is
    being closed: once uv_close has returned for a handle that is not a
    signal handle, uv_fileno stores nothing and returns UV_EBADF if the
    handle is of a kind that has a descriptor (tcp, pipe, tty, udp, poll),
    UV_EINVAL if it is of another kind. *)
Theorem uv_fileno_after_close (X : externals) io_watcher s h c s' :
  uv_close X s h c = Some s' →
  type (handles s.2 h) ≠ UV_SIGNAL →
  uv_fileno io_watcher s'.2 h
  = (if has_descriptor (type (handles s'.2 h)) then UV_EBADF else UV_EINVAL,
     None).
Proof.
  intros H Hns. apply uv_close_enqueues in H as [_ [Hcl _]]; [| done].
  apply has_flag_closing_is_closing in Hcl.
  unfold uv_fileno. rewrite Hcl. cbn [orb].
  by destruct (type (handles s'.2 h)).
Qed.

Lemma uv_fileno_after_close_witness :
  uv_fileno (λ h, h + 8) loop_tcp 300 = (0, Some 12) ∧
  ∃ s', uv_close scripted ([], loop_tcp) 300 9 = Some s' ∧
        type (handles s'.2 300) = UV_TCP ∧
        uv_fileno (λ h, h + 8) s'.2 300 = (UV_EBADF, None).
Proof.
  split; [vm_compute; reflexivity |].
  destruct (uv_close scripted ([], loop_tcp) 300 9) as [s' |] eqn:E;
    [| vm_compute in E; discriminate].
  exists s'. split; [reflexivity |].
  assert (Ht : type (handles s'.2 300) = UV_TCP).
  { pose proof E as E2. vm_compute in E2. by injection E2 as <-. }
  split; [exact Ht |].
  rewrite (uv_fileno_after_close scripted (λ h, h + 8) ([], loop_tcp) 300 9 s').
  - by rewrite Ht.
  - exact E.
  - vm_compute. discriminate.
Defined.

(** ** uv_os_getenv and uv_os_tmpdir *)

Section Environment.

Context {X : externals} (getenv : list Z → option (list Z)).

(** X19: uv_os_getenv on a variable that is set either copies its value,
    when the value and its NUL fit the size given, and reports the length
    of the value; or leaves the buffer alone, returns UV_ENOBUFS and
    reports the size needed, with which the call repeated succeeds. *)
Theorem uv_os_getenv_sizing name var buf sz :
  getenv name = Some var → 0 < sz →
  strlen var + 1 < 2 ^ (if long_is_int32 X then 32 else 64) →
  (strlen var < sz →
   uv_os_getenv (X:=X) getenv (Some name) (Some buf) (Some sz)
   = Build_os_result 0 (Some var) (Some (strlen var))) ∧
  (sz ≤ strlen var →
   uv_os_getenv (X:=X) getenv (Some name) (Some buf) (Some sz)
   = Build_os_result UV_ENOBUFS (Some buf) (Some (strlen var + 1)) ∧
   ∀ buf',
     uv_os_getenv (X:=X) getenv (Some name) (Some buf')
       (Some (strlen var + 1))
     = Build_os_result 0 (Some var) (Some (strlen var))).
Proof.
  intros Hvar Hsz Hfit.
  assert (Hlen : 0 ≤ strlen var) by (unfold strlen; lia).
  assert (Hwrap : @size_t_of X (strlen var + 1) = strlen var + 1).
  { unfold size_t_of. apply Z.mod_small. lia. }
  assert (Hok : ∀ b s, strlen var < s →
            uv_os_getenv (X:=X) getenv (Some name) (Some b) (Some s)
            = Build_os_result 0 (Some var) (Some (strlen var))).
  { intros b s Hs. unfold uv_os_getenv. rewrite Hvar.
    destruct (s =? 0) eqn:E0; [lia |].
    cbv zeta. destruct (s <=? strlen var) eqn:E1; [lia | done]. }
  split; [apply Hok |].
  intros Hsmall. split; [| intros buf'; apply Hok; lia].
  unfold uv_os_getenv. rewrite Hvar.
  destruct (sz =? 0) eqn:E0; [lia |].
  cbv zeta. destruct (sz <=? strlen var) eqn:E1; [| lia].
  by rewrite Hwrap.
Qed.

Lemma last_slash_split (l : list Z) x :
  l !! (length l - 1)%nat = Some x → l = take (length l - 1) l ++ [x].
Proof.
  intros H. pose proof (lookup_lt_Some _ _ _ H) as Hlt.
  rewrite <- (take_drop (length l - 1) l) at 1. f_equal.
  rewrite (drop_S l x (length l - 1) H).
  rewrite drop_ge by lia. done.
Qed.

Lemma tmpdir_of_total : ∃ dir, tmpdir_of getenv dir ∧
  dir = match getenv TMPDIR with
        | Some b => b
        | None =>
            match getenv TMP with
            | Some b => b
            | None =>
                match getenv TEMP with
                | Some b => b
                | None =>
                    match getenv TEMPDIR with
                    | Some b => b
                    | None => slash_tmp
                    end
                end
            end
        end.
Proof.
  eexists. split; [| reflexivity]. unfold tmpdir_of.
  destruct (getenv TMPDIR); [by left | right; split; [done |]].
  destruct (getenv TMP); [by left | right; split; [done |]].
  destruct (getenv TEMP); [by left | right; split; [done |]].
  destruct (getenv TEMPDIR); [by left | right; by split].
Qed.

(** X20: uv_os_tmpdir reports the first of TMPDIR, TMP, TEMP and TEMPDIR
    that is set, "/tmp" if none is.  When the directory and its NUL fit
    the size given, the buffer receives it without one trailing slash
    (only "/" itself keeps its slash) and the size reported is the length
    of what the buffer holds; otherwise the buffer is left alone and the
    call returns UV_ENOBUFS with the size needed before the slash is taken
    off. *)
Theorem uv_os_tmpdir_spec buf sz :
  0 < sz →
  ∃ dir, tmpdir_of getenv dir ∧
    (strlen dir < sz →
     ∃ out, uv_os_tmpdir (X:=X) getenv (Some buf) (Some sz)
            = Build_os_result 0 (Some out) (Some (strlen out)) ∧
            one_slash_off dir out) ∧
    (sz ≤ strlen dir →
     uv_os_tmpdir (X:=X) getenv (Some buf) (Some sz)
     = Build_os_result UV_ENOBUFS (Some buf)
         (Some (@size_t_of X (strlen dir + 1)))).
Proof.
  intros Hsz. destruct tmpdir_of_total as (dir & Hdir & Heq).
  exists dir. split; [exact Hdir |].
  unfold uv_os_tmpdir. rewrite <- Heq. clear Heq Hdir.
  destruct (sz =? 0) eqn:E0; [lia |]. cbv zeta.
  split.
  - intros Hfit. destruct (sz <=? strlen dir) eqn:E1; [lia |].
    unfold strlen in *.
    destruct ((1 <? Z.of_nat (length dir))
              && bool_decide (dir !! Z.to_nat (Z.of_nat (length dir) - 1)
                              = Some slash)) eqn:E2.
    + apply andb_true_iff in E2 as [Hlong Hlast].
      apply bool_decide_eq_true in Hlast.
      replace (Z.to_nat (Z.of_nat (length dir) - 1))
        with (length dir - 1)%nat in * by lia.
      exists (take (length dir - 1) dir). split.
      * f_equal. f_equal. rewrite length_take. lia.
      * left. split; [by apply last_slash_split |].
        intros Hnil. apply (f_equal length) in Hnil.
        rewrite length_take in Hnil. simpl in Hnil. lia.
    + exists dir. rewrite Nat2Z.id, take_ge by lia. split; [done |].
      right. split; [done |].
      apply andb_false_iff in E2 as [Hshort | Hlast]; [left; lia |].
      right. apply bool_decide_eq_false in Hlast.
      rewrite last_lookup.
      replace (Z.to_nat (Z.of_nat (length dir) - 1))
        with (pred (length dir)) in Hlast by lia.
      done.
  - intros Hsmall. by destruct (sz <=? strlen dir) eqn:E1; [| lia].
Qed.

End Environment.

Lemma uv_os_getenv_sizing_witness :
  uv_os_getenv (X:=quiet) env_tmp (Some TEMP) (Some []) (Some 2)
  = Build_os_result UV_ENOBUFS (Some []) (Some 3) ∧
  ∀ buf',
    uv_os_getenv (X:=quiet) env_tmp (Some TEMP) (Some buf') (Some 3)
    = Build_os_result 0 (Some [47; 116]) (Some 2).
Proof.
  apply (uv_os_getenv_sizing (X:=quiet) env_tmp TEMP [47; 116] [] 2).
  - reflexivity.
  - lia.
  - vm_compute. reflexivity.
  - vm_compute. discriminate.
Defined.

Lemma uv_os_tmpdir_spec_witness :
  ∃ dir, tmpdir_of env_tmp dir ∧
    (strlen dir < 64 →
     ∃ out, uv_os_tmpdir (X:=quiet) env_tmp (Some []) (Some 64)
            = Build_os_result 0 (Some out) (Some (strlen out)) ∧
            one_slash_off dir out) ∧
    (64 ≤ strlen dir →
     uv_os_tmpdir (X:=quiet) env_tmp (Some []) (Some 64)
     = Build_os_result UV_ENOBUFS (Some [])
         (Some (@size_t_of quiet (strlen dir + 1)))).
Proof. apply (uv_os_tmpdir_spec (X:=quiet) env_tmp [] 64). lia. Defined.

(** ** The event buffer in the trailing slots *)

Section Unpublish.

Context {X : externals} (P : program X).

Hypothesis Hbound : keeps_table_bound P.

Lemma publish_spec (st st' : @state X) a b :
  publish st a b = Done st' → nwatchers (lp st) < 2 ^ 31 →
  trailing (lp st') = (a, b) ∧ nwatchers (lp st') = nwatchers (lp st).
Proof.
  unfold publish. intros H Hnw.
  apply outcome_bind_Done in H as (tbl & Htbl%of_option_Done & H).
  apply outcome_bind_Done in H as (t1 & H1%of_option_Done & H).
  apply outcome_bind_Done in H as (t2 & H2%of_option_Done & H).
  injection H as <-. cbn [lp with_lp nwatchers set_watchers].
  apply store_Some in H1 as [Hi1 ->].
  assert (Hw : wrap32 (nwatchers (lp st) + 1) = nwatchers (lp st) + 1)
    by (apply Z.mod_small; lia).
  rewrite Hw in H2. apply store_Some in H2 as [Hi2 ->].
  split; [| done]. unfold trailing. cbn [watchers nwatchers set_watchers].
  rewrite load_insert_ne by lia. rewrite load_insert_eq by lia.
  rewrite load_insert_eq by lia. done.
Qed.

Lemma call_io_bound (st st' : @state X) w ev :
  call_io P st w ev = Done st' → nwatchers (lp st) < 2 ^ 31 →
  nwatchers (lp st') < 2 ^ 31.
Proof.
  unfold call_io. intros (s & Hs & ->)%extern_Done Hnw.
  apply Hbound in Hs. cbn [lp with_sys]. by apply Hs.
Qed.

Lemma dispatch_event_bound (st : @state X) i hs nev st' hs' nev' :
  dispatch_event P st i hs nev = Done (st', hs', nev') →
  nwatchers (lp st) < 2 ^ 31 → nwatchers (lp st') < 2 ^ 31.
Proof.
  unfold dispatch_event. intros H Hnw.
  apply outcome_bind_Done in H as (pe & _ & H).
  destruct (ev_fd pe =? -1). { by injection H as <- _ _. }
  apply outcome_bind_Done in H as ([] & _ & H).
  apply outcome_bind_Done in H as ([] & _ & H).
  apply outcome_bind_Done in H as (tbl & _ & H).
  apply outcome_bind_Done in H as (w & _ & H).
  destruct (w =? NULL).
  { destruct (epoll_ctl X _ _ _ _ _) as [k e]. by injection H as <- _ _. }
  destruct (ready_mask _ _ =? 0). { by injection H as <- _ _. }
  destruct (w =? signal_io_watcher X). { by injection H as <- _ _. }
  apply outcome_bind_Done in H as (st2 & Hcall & H).
  injection H as <- _ _. by apply call_io_bound in Hcall.
Qed.

Lemma dispatch_bound n : ∀ i (st : @state X) hs nev st' hs' nev',
  dispatch P n i st hs nev = Done (st', hs', nev') →
  nwatchers (lp st) < 2 ^ 31 → nwatchers (lp st') < 2 ^ 31.
Proof.
  induction n as [| n IH]; intros i st hs nev st' hs' nev' H Hnw; simpl in H.
  - by injection H as <- _ _.
  - apply outcome_bind_Done in H as ([[st1 hs1] nev1] & H1 & H).
    apply dispatch_event_bound in H1; [| done]. by apply IH in H.
Qed.

Lemma wait_step_table (st : @state X) psigset timeout stw n errno :
  wait_step st psigset timeout = (stw, n, errno) →
  watchers (lp stw) = watchers (lp st) ∧
  nwatchers (lp stw) = nwatchers (lp st).
Proof.
  unfold wait_step, uv__update_time. cbn [os lp tr log].
  destruct (epoll_pwait X _ _ _ _ _) as [k [[nfds evs] e]].
  cbn [os lp tr]. destruct (uv__hrtime X k) as [k' ns].
  by intros [= <- _ _].
Qed.

Lemma unpublished_ext a b :
  watchers a = watchers b → nwatchers a = nwatchers b →
  unpublished b → unpublished a.
Proof.
  intros Hw Hn [H1 H2]. split; [by rewrite Hn |].
  by rewrite (trailing_ext a b).
Qed.

Lemma poll_round_unpublished (st st' : @state X) psigset timeout count v :
  poll_round P st psigset timeout count = Done (st', v) →
  unpublished (lp st) → unpublished (lp st').
Proof.
  unfold poll_round. intros H Hun.
  destruct (wait_step st psigset timeout) as [[stw n] errno] eqn:Ew.
  apply wait_step_table in Ew as [Hw Hn].
  assert (Hunw : unpublished (lp stw)) by by apply (unpublished_ext _ (lp st)).
  destruct (n =? 0).
  { apply outcome_bind_Done in H as ([] & _ & H).
    by destruct (timeout =? 0); injection H as <- _. }
  destruct (n =? -1).
  { apply outcome_bind_Done in H as ([] & _ & H).
    destruct (timeout =? -1); [| destruct (timeout =? 0)];
      by injection H as <- _. }
  apply outcome_bind_Done in H as ([] & _ & H).
  apply outcome_bind_Done in H as (s1 & H1 & H).
  destruct (publish_spec _ _ _ _ H1 (proj1 Hunw)) as [_ Hn1].
  apply outcome_bind_Done in H as ([[s2 hs] nev] & H2 & H).
  apply dispatch_bound in H2; [| rewrite Hn1; apply Hunw].
  apply outcome_bind_Done in H as (s3 & H3 & H).
  assert (Hn3 : nwatchers (lp s3) < 2 ^ 31).
  { destruct hs; [| by injection H3 as <-].
    unfold call_signal in H3. apply extern_Done in H3 as (s & Hs & ->).
    apply Hbound in Hs. cbn [lp with_sys]. by apply Hs. }
  apply outcome_bind_Done in H as (s4 & H4 & H).
  destruct (publish_spec _ _ _ _ H4 Hn3) as [Htr4 Hn4].
  assert (Hun4 : unpublished (lp s4)) by (split; [by rewrite Hn4 | done]).
  destruct hs. { by injection H as <- _. }
  destruct (negb (nev =? 0)).
  { by destruct (_ && _); injection H as <- _. }
  destruct (timeout =? 0). { by injection H as <- _. }
  by destruct (timeout =? -1); injection H as <- _.
Qed.

Lemma poll_loop_unpublished psigset base :
  ∀ fuel timeout rt count (st st' : @state X),
  poll_loop P fuel st psigset timeout rt base count = Done st' →
  unpublished (lp st) → unpublished (lp st').
Proof.
  induction fuel as [| fuel IH]; intros timeout rt count st st' H Hun;
    [done |].
  simpl in H. apply outcome_bind_Done in H as ([s1 v] & H1 & H).
  apply poll_round_unpublished in H1; [| done].
  destruct v as [| t' c' |].
  - by injection H as <-.
  - by apply IH in H.
  - apply outcome_bind_Done in H as ([] & _ & H).
    destruct (_ <=? 0); [by injection H as <- | by apply IH in H].
Qed.

Lemma flush_watcher_table (st st' : @state X) w :
  flush_watcher st w = Done st' →
  watchers (lp st') = watchers (lp st) ∧
  nwatchers (lp st') = nwatchers (lp st).
Proof.
  unfold flush_watcher. cbv zeta. intros H.
  apply outcome_bind_Done in H as ([] & _ & H).
  apply outcome_bind_Done in H as ([] & _ & H).
  apply outcome_bind_Done in H as ([] & _ & H).
  destruct (epoll_ctl X _ _ _ _ _) as [k err].
  apply outcome_bind_Done in H as (k' & _ & H). by injection H as <-.
Qed.

Lemma flush_watcher_queue_table : ∀ n (st st' : @state X),
  flush_watcher_queue n st = Done st' →
  watchers (lp st') = watchers (lp st) ∧
  nwatchers (lp st') = nwatchers (lp st).
Proof.
  induction n as [| n IH]; intros st st' H; simpl in H.
  - destruct (watcher_queue (lp st)); [| done]. by injection H as <-.
  - destruct (watcher_queue (lp st)) as [| w q]; [by injection H as <- |].
    apply outcome_bind_Done in H as (s1 & H1 & H).
    apply flush_watcher_table in H1 as [Hw1 Hn1].
    apply IH in H as [Hw Hn]. by rewrite Hw, Hn.
Qed.

(** X21: uv__io_poll withdraws its event buffer before it returns: if the
    trailing slots of the fd table are null when it is called, they are
    null when it returns, whatever the callbacks did to the table, as long
    as they keep it below 2^31 slots.  Outside a poll
    uv__platform_invalidate_fd therefore finds no buffer to go through. *)
Theorem uv__io_poll_unpublishes fuel (st st' : @state X) timeout :
  unpublished (lp st) →
  uv__io_poll P fuel st timeout = Done st' →
  unpublished (lp st').
Proof.
  intros Hun. unfold uv__io_poll. destruct (nfds (lp st) =? 0).
  { by intros ([] & _ & [= <-])%outcome_bind_Done. }
  intros H.
  apply outcome_bind_Done in H as (s1 & H1 & H).
  apply outcome_bind_Done in H as ([] & _ & H).
  apply flush_watcher_queue_table in H1 as [Hw1 Hn1].
  apply poll_loop_unpublished in H; [done |].
  by apply (unpublished_ext _ (lp st)).
Qed.

End Unpublish.

Lemma keeps_table_bound_closing_program : keeps_table_bound closing_program.
Proof.
  intros c w ev s s' H Hnw. cbn [io_cb closing_program] in H.
  destruct (c =? 8); [| by injection H as <-].
  unfold uv_close in H. apply bind_Some in H as ([] & _ & H).
  cbv zeta in H.
  destruct (type _); try done;
    cbn [uv__close_hook scripted] in H; rewrite ?bind_Some_eq in H;
    first
      [ injection H as <-; exact Hnw
      | apply bind_Some in H as (l' & Hp & [= <-]);
        unfold uv__make_close_pending in Hp;
        apply bind_Some in Hp as ([] & _ & Hp);
        apply bind_Some in Hp as ([] & _ & [= <-]); exact Hnw ].
Qed.

Lemma uv__io_poll_unpublishes_witness :
  ∃ st',
    uv__io_poll closing_program 48
      (@Build_state scripted [[Build_event POLLIN 5]] started_w5 []) 0
    = Done st' ∧
    unpublished (lp st').
Proof.
  destruct (uv__io_poll closing_program 48
              (@Build_state scripted [[Build_event POLLIN 5]] started_w5 []) 0)
    as [st' | |] eqn:E; [| vm_compute in E; discriminate ..].
  exists st'. split; [reflexivity |].
  apply (uv__io_poll_unpublishes closing_program
           keeps_table_bound_closing_program 48
           (@Build_state scripted [[Build_event POLLIN 5]] started_w5 []) st' 0).
  - split; vm_compute; reflexivity.
  - exact E.
Defined.

(** ** Calls on a watcher with polls in between *)

(** uv__io_start, as seen from its watcher. *)
Lemma uv__io_start_watcher loop w evs l' :
  table_wf loop → w ≠ NULL → uv__io_start loop w evs = Some l' →
  table_wf l' ∧ evs ≠ 0 ∧
  0 ≤ fd (io loop w) < nwatchers l' ∧ nwatchers loop ≤ nwatchers l' ∧
  fd (io l' w) = fd (io loop w) ∧
  events (io l' w) = events (io loop w) ∧
  pevents (io l' w) = Z.lor (pevents (io loop w)) evs ∧
  (0 ≤ fd (io loop w) < nwatchers loop →
   ∀ v, slot loop (fd (io loop w)) = Some v → v ≠ NULL →
        ∃ v', slot l' (fd (io loop w)) = Some v' ∧ v' ≠ NULL) ∧
  ((events (io loop w) = Z.lor (pevents (io loop w)) evs ∧
    watcher_queue l' = watcher_queue loop) ∨
   (w ∈ watcher_queue l' ∧
    ∃ v, slot l' (fd (io loop w)) = Some v ∧ v ≠ NULL)).
Proof.
  intros Hwf Hw H.
  destruct (uv__io_start_table _ _ _ _ Hwf H)
    as (Hfd & l1 & Hres & Hnw & Hio & Hcase).
  set (l0 := write_io loop w _) in Hres.
  assert (Hlen : 0 ≤ fd (io loop w) + 1 < 2 ^ 32)
    by (unfold INT_MAX in *; lia).
  destruct (maybe_resize_frame l0 _ l1 Hwf Hlen Hres)
    as (Hwf1 & Hge & Hold & _ & Hio1 & Hq1 & _).
  change (nwatchers l0) with (nwatchers loop) in Hold.
  assert (Hmono : nwatchers loop ≤ nwatchers l1).
  { destruct (decide (fd (io loop w) + 1 ≤ nwatchers loop)) as [Hle | Hgt].
    - unfold maybe_resize in Hres.
      rewrite (proj2 (Z.leb_le _ _)) in Hres by (exact Hle).
      by injection Hres as <-.
    - lia. }
  assert (Hio' : io l' w = set_pevents (io loop w)
                             (Z.lor (pevents (io loop w)) evs)).
  { rewrite Hio, Hio1. unfold l0, write_io. cbn [io set_io]. apply upd_eq. }
  assert (Hwf' : table_wf l').
  { destruct Hcase as [(Hwt & _) | (tbl & Htbl & _ & Hwt & _)].
    - by apply (table_wf_ext _ l1).
    - eapply (table_wf_ext _
                (set_watchers l1
                   (Some (<[Z.to_nat (fd (io loop w)) := w]> tbl))));
        [exact Hwt | exact Hnw |]. by apply table_wf_insert. }
  assert (Hslot' : (∃ v, slot l1 (fd (io loop w)) = Some v ∧ v ≠ NULL) →
                   ∃ v', slot l' (fd (io loop w)) = Some v' ∧ v' ≠ NULL).
  { intros (v & Hv & Hvn).
    destruct Hcase as [(Hwt & _) | (tbl & Htbl & _ & Hwt & _)].
    - exists v. unfold slot in *. by rewrite Hwt.
    - exists w. split; [| done]. unfold slot. rewrite Hwt. simpl.
      unfold slot in Hv. rewrite Htbl in Hv. simpl in Hv.
      apply load_insert_eq. by eapply load_Some_bound. }
  split; [exact Hwf' |].
  split; [apply uv__io_start_queue in H as [H _]; done |].
  split; [lia |]. split; [lia |].
  rewrite Hio'. cbn [fd events pevents set_pevents].
  split; [done |]. split; [done |]. split; [done |]. split.
  { intros Hin v Hv Hvn. apply Hslot'. exists v. split; [| done].
    rewrite <- Hv. by apply Hold. }
  unfold uv__io_start in H. passed H. passed H. passed H. passed H.
  cbv zeta in H. fold l0 in H.
  assert (Hfd0 : fd (io l0 w) = fd (io loop w)).
  { unfold l0, write_io. cbn [io set_io]. by rewrite upd_eq. }
  rewrite Hfd0 in H.
  assert (Hwr : wrap32 (fd (io loop w) + 1) = fd (io loop w) + 1)
    by (apply Z.mod_small; lia).
  rewrite Hwr, Hres, bind_Some_eq in H.
  assert (Hio1w : io l1 w = set_pevents (io loop w)
                              (Z.lor (pevents (io loop w)) evs)).
  { rewrite Hio1. unfold l0, write_io. cbn [io set_io]. apply upd_eq. }
  rewrite Hio1w in H. cbn [fd events pevents set_pevents] in H.
  destruct (events (io loop w) =? Z.lor (pevents (io loop w)) evs) eqn:Eev.
  { injection H as <-. left. split; [lia |]. by rewrite Hq1. }
  right.
  set (l2 := if on_queue w (watcher_queue l1) then l1 else _) in H.
  assert (Hl2 : w ∈ watcher_queue l2 ∧ watchers l2 = watchers l1 ∧
                io l2 = io l1).
  { unfold l2. destruct (on_queue w (watcher_queue l1)) eqn:Eon.
    - apply on_queue_true in Eon. done.
    - cbn [watcher_queue set_watcher_queue]. split; [| done].
      apply elem_of_QUEUE_INSERT_TAIL. by right. }
  destruct Hl2 as (Hin2 & Hw2 & Hio2).
  rewrite Hw2, Hio2, Hio1w in H. cbn [fd] in H.
  apply bind_Some in H as (tbl & Htbl & H).
  apply bind_Some in H as (v & Hv & H).
  destruct (v =? NULL) eqn:Ev.
  - apply bind_Some in H as (tbl' & Hst & H). injection H as <-.
    split; [exact Hin2 |]. exists w. split; [| done].
    unfold slot. cbn [watchers set_watchers set_nfds]. simpl.
    apply store_Some in Hst as [Hb ->]. by apply load_insert_eq.
  - injection H as <-. split; [exact Hin2 |]. exists v.
    unfold slot. rewrite Hw2, Htbl. simpl. split; [done |].
    unfold NULL in *. lia.
Qed.

(** uv__io_stop, as seen from its watcher. *)
Lemma uv__io_stop_watcher loop w evs l' :
  table_wf loop → uv__io_stop loop w evs = Some l' →
  table_wf l' ∧ nwatchers l' = nwatchers loop ∧
  fd (io l' w) = fd (io loop w) ∧
  (l' = loop ∨
   (0 ≤ fd (io loop w) ∧ wrap32 (fd (io loop w)) < nwatchers loop ∧
    pevents (io l' w) = Z.land (pevents (io loop w)) (not32 evs) ∧
    ((pevents (io l' w) = 0 ∧ (w ∉ watcher_queue l') ∧
      slot l' (fd (io loop w)) = Some NULL ∧
      ((slot loop (fd (io loop w)) = Some NULL ∧
        events (io l' w) = events (io loop w)) ∨
       events (io l' w) = 0)) ∨
     (pevents (io l' w) ≠ 0 ∧ w ∈ watcher_queue l' ∧
      watchers l' = watchers loop ∧
      events (io l' w) = events (io loop w))))).
Proof.
  intros Hwf H.
  destruct (uv__io_stop_table _ _ _ _ H) as (Hnw & Hfds & _ & Hcase).
  assert (Hwf' : table_wf l').
  { destruct Hcase as [(Hwt & _) | (tbl & Htbl & _ & _ & _ & _ & _ & Hwt & _)].
    - by apply (table_wf_ext _ loop).
    - eapply (table_wf_ext _
                (set_watchers loop
                   (Some (<[Z.to_nat (fd (io loop w)) := NULL]> tbl))));
        [exact Hwt | exact Hnw |]. by apply table_wf_insert. }
  split; [exact Hwf' |]. split; [exact Hnw |]. split; [apply Hfds |].
  clear Hcase Hwf' Hfds Hnw.
  unfold uv__io_stop in H. passed H. passed H.
  destruct (fd (io loop w) =? -1) eqn:Efd. { injection H as <-. by left. }
  passed H.
  destruct (nwatchers loop <=? wrap32 (fd (io loop w))) eqn:Enw.
  { injection H as <-. by left. }
  right. split; [lia |]. split; [lia |].
  cbv zeta in H.
  set (l0 := write_io loop w _) in *.
  assert (Hio0 : io l0 w = set_pevents (io loop w)
                             (Z.land (pevents (io loop w)) (not32 evs))).
  { unfold l0, write_io. cbn [io set_io]. apply upd_eq. }
  rewrite Hio0 in H. cbn [fd pevents set_pevents] in H.
  destruct (Z.land (pevents (io loop w)) (not32 evs) =? 0) eqn:Ep.
  - set (l1 := set_watcher_queue l0 _) in *.
    assert (Hq1 : w ∉ watcher_queue l1).
    { unfold l1. cbn [watcher_queue set_watcher_queue].
      rewrite elem_of_QUEUE_REMOVE. by intros [Hne _]. }
    change (watchers l1) with (watchers loop) in H.
    change (io l1 w) with (io l0 w) in H. rewrite Hio0 in H.
    cbn [fd set_pevents] in H.
    apply bind_Some in H as (tbl & Htbl & H).
    apply bind_Some in H as (v & Hv & H).
    destruct (v =? NULL) eqn:Ev; cbn [negb] in H.
    + injection H as <-. change (io l1 w) with (io l0 w). rewrite Hio0.
      cbn [pevents events set_pevents]. split; [lia |]. left.
      split; [lia |]. split; [exact Hq1 |].
      assert (Hs : slot loop (fd (io loop w)) = Some NULL).
      { unfold slot. rewrite Htbl. simpl. rewrite Hv. f_equal. lia. }
      split; [exact Hs |]. left. by split.
    + passed H. passed H. apply bind_Some in H as (tbl' & Hst & H).
      injection H as <-. unfold write_io. cbn [io set_io].
      rewrite upd_eq. cbn [pevents events set_events].
      rewrite !upd_eq. cbn [pevents set_pevents]. split; [lia |]. left.
      split; [lia |]. split; [exact Hq1 |]. split; [| by right].
      unfold slot. cbn [watchers set_watchers set_nfds set_io]. simpl.
      apply store_Some in Hst as [Hb ->]. by apply load_insert_eq.
  - assert (Hfin : ∀ l2, io l2 = io l0 → watchers l2 = watchers loop →
              w ∈ watcher_queue l2 → Some l2 = Some l' →
              pevents (io l' w) = Z.land (pevents (io loop w)) (not32 evs) ∧
              (pevents (io l' w) = 0 ∧ (w ∉ watcher_queue l') ∧
               slot l' (fd (io loop w)) = Some NULL ∧
               (slot loop (fd (io loop w)) = Some NULL ∧
                events (io l' w) = events (io loop w) ∨
                events (io l' w) = 0) ∨
               pevents (io l' w) ≠ 0 ∧ w ∈ watcher_queue l' ∧
               watchers l' = watchers loop ∧
               events (io l' w) = events (io loop w))).
    { intros l2 E1 E2 E3 [= <-]. rewrite E1, Hio0.
      cbn [pevents events set_pevents]. split; [done |]. right.
      split; [lia |]. by split. }
    destruct (on_queue w (watcher_queue l0)) eqn:Eon.
    + apply (Hfin l0); [done | done | | done]. by apply on_queue_true in Eon.
    + apply (Hfin (set_watcher_queue l0
                     (QUEUE_INSERT_TAIL (watcher_queue l0) w)));
        [done | done | | done].
      cbn [watcher_queue set_watcher_queue].
      apply elem_of_QUEUE_INSERT_TAIL. by right.
Qed.

Section WatcherOps.

Context {X : externals}.

Lemma flush_watcher_fd (st st' : @state X) u :
  flush_watcher st u = Done st' →
  ∀ w, fd (io (lp st') w) = fd (io (lp st) w).
Proof.
  unfold flush_watcher. cbv zeta. intros H w.
  apply outcome_bind_Done in H as ([] & _ & H).
  apply outcome_bind_Done in H as ([] & _ & H).
  apply outcome_bind_Done in H as ([] & _ & H).
  destruct (epoll_ctl X _ _ _ _ _) as [k err].
  apply outcome_bind_Done in H as (k' & _ & H). injection H as <-.
  cbn [lp]. unfold write_io. cbn [io set_io set_watcher_queue].
  by apply fd_upd.
Qed.

Lemma flush_watcher_queue_fd : ∀ n (st st' : @state X),
  flush_watcher_queue n st = Done st' →
  ∀ w, fd (io (lp st') w) = fd (io (lp st) w).
Proof.
  induction n as [| n IH]; intros st st' H w; simpl in H.
  - destruct (watcher_queue (lp st)); [| done]. by injection H as <-.
  - destruct (watcher_queue (lp st)) as [| u q]; [by injection H as <- |].
    apply outcome_bind_Done in H as (s1 & H1 & H).
    rewrite (IH _ _ H). by apply (flush_watcher_fd _ _ _ H1).
Qed.

(** uv__io_poll begins with [poll_flush]. *)
Lemma uv__io_poll_begins (P : program X) fuel (st : @state X) timeout :
  uv__io_poll P fuel st timeout =
  st1 ← poll_flush st;
  if nfds (lp st) =? 0 then Done st1
  else
    check (-1 <=? timeout);;
    poll_loop P fuel st1
      (negb (Z.land (loop_flags (lp st1)) UV_LOOP_BLOCK_SIGPROF =? 0))
      timeout timeout (time (lp st1)) 48.
Proof.
  unfold uv__io_poll, poll_flush. destruct (nfds (lp st) =? 0); [| done].
  by destruct (check _) as [[] | |].
Qed.

(** The flush, as seen from one watcher. *)
Lemma poll_flush_watcher (st st' : @state X) w :
  poll_flush st = Done st' →
  watchers (lp st') = watchers (lp st) ∧
  nwatchers (lp st') = nwatchers (lp st) ∧
  fd (io (lp st') w) = fd (io (lp st) w) ∧
  pevents (io (lp st') w) = pevents (io (lp st) w) ∧
  watcher_queue (lp st') = [] ∧
  ((w ∈ watcher_queue (lp st) ∧
    events (io (lp st') w) = pevents (io (lp st) w)) ∨
   ((w ∉ watcher_queue (lp st)) ∧
    events (io (lp st') w) = events (io (lp st) w))).
Proof.
  unfold poll_flush. intros H. destruct (nfds (lp st) =? 0).
  - apply outcome_bind_Done in H as ([] & Hq%check_Done & [= <-]).
    destruct (watcher_queue (lp st)) as [| u q] eqn:Eq; [| done].
    split; [done |]. split; [done |]. split; [done |]. split; [done |].
    split; [done |]. right. split; [apply not_elem_of_nil | done].
  - destruct (flush_watcher_queue_table _ _ _ H) as [Hw Hn].
    pose proof (flush_watcher_queue_fd _ _ _ H w) as Hfd.
    destruct (flush_watcher_queue_inv _ st (le_n _)) as [_ Hinv].
    destruct (Hinv st' H) as (Hq & Hin & Hout & _).
    split; [done |]. split; [done |]. split; [done |].
    destruct (decide (w ∈ watcher_queue (lp st))) as [Hw' | Hw'].
    + destruct (Hin w Hw') as (He & Hp & _).
      split; [done |]. split; [done |]. left. split; [done |]. congruence.
    + rewrite (Hout w Hw'). split; [done |]. split; [done |]. by right.
Qed.

Lemma apply_watcher_op_tracked w (st st' : @state X) op b f :
  tracked (lp st) w b f → apply_watcher_op w st op = Done st' →
  tracked (lp st') w (b || starts op) (f || is_flush op).
Proof.
  intros (Hwf & Hw & Hfd & Hq & Hnq & Hp & Hs & Hf) H.
  assert (Hp0 : pevents (io (lp st) w) = 0 → events (io (lp st) w) = 0).
  { intros Hz. rewrite <- Hz. symmetry. apply Hnq. intros Hin.
    by apply Hq in Hin. }
  destruct op as [[evs | evs] |]; cbn [apply_watcher_op apply_op] in H.
  - apply outcome_bind_Done in H as (l' & Hl'%of_option_Done & [= <-]).
    cbn [lp with_lp starts is_start is_flush].
    rewrite orb_true_r, orb_false_r.
    destruct (uv__io_start_watcher _ _ _ _ Hwf Hw Hl')
      as (Hwf' & Hevs & Hrange & Hmono & Hfd' & He' & Hp' & Hkeep & Hcase).
    assert (Hpne : pevents (io l' w) ≠ 0).
    { rewrite Hp'. intros H0. apply Z.lor_eq_0_iff in H0 as [_ H0]. done. }
    unfold tracked. rewrite Hfd'.
    split; [done |]. split; [done |]. split; [done |].
    split; [done |]. split.
    { intros Hout. destruct Hcase as [[Heq _] | [Hin _]]; [| done].
      by rewrite Hp', He'. }
    split.
    { intros _. split; [done |].
      destruct Hcase as [[Heq _] | [_ Hv]]; [| done].
      assert (Hpold : pevents (io (lp st) w) ≠ 0).
      { intros Hz. apply Hp0 in Hz. rewrite Heq in Hz.
        rewrite <- Hp' in Hz. done. }
      destruct (Hp Hpold) as (Hr & v & Hv & Hvn). by apply (Hkeep Hr v). }
    split; [intros _; split; [done | by intros Hz] |].
    intros ->. rewrite He'. by apply Hf.
  - apply outcome_bind_Done in H as (l' & Hl'%of_option_Done & [= <-]).
    cbn [lp with_lp starts is_start is_flush]. rewrite !orb_false_r.
    destruct (uv__io_stop_watcher _ _ _ _ Hwf Hl')
      as (Hwf' & Hnw' & Hfd' & Hcase).
    destruct Hcase as [-> | (Hfd0 & Hlt & Hp' & Hcase)]; [done |].
    assert (Hr : 0 ≤ fd (io (lp st) w) < nwatchers (lp st)).
    { unfold wrap32, INT_MAX in *. rewrite Z.mod_small in Hlt by lia. lia. }
    unfold tracked. rewrite Hfd', Hnw'.
    destruct Hcase as [(Hz & Hout & Hslot & Hev) | (Hnz & Hin & Hwt & Hev)].
    + assert (He0 : events (io l' w) = 0).
      { destruct Hev as [[Hsl He] | He]; [| done]. rewrite He. apply Hp0.
        destruct (decide (pevents (io (lp st) w) = 0)) as [| Hne]; [done |].
        destruct (Hp Hne) as (_ & v & Hv & Hvn). congruence. }
      split; [done |]. split; [done |]. split; [done |].
      split; [done |]. split; [intros _; by rewrite Hz, He0 |].
      split; [done |]. split; [done |]. done.
    + assert (Hpold : pevents (io (lp st) w) ≠ 0).
      { intros Hz. rewrite Hp', Hz in Hnz. done. }
      split; [done |]. split; [done |]. split; [done |].
      split; [done |]. split; [done |]. split.
      { intros _. split; [done |]. unfold slot. rewrite Hwt.
        by apply Hp. }
      split; [intros Hb; split; [done | done] |].
      intros ->. rewrite Hev. by apply Hf.
  - cbn [starts is_flush]. rewrite orb_false_r, orb_true_r.
    destruct (poll_flush_watcher _ _ w H)
      as (Hwt & Hnw' & Hfd' & Hp' & Hq' & Hev).
    assert (Hsl : ∀ i, slot (lp st') i = slot (lp st) i).
    { intros i. unfold slot. by rewrite Hwt. }
    unfold tracked. rewrite Hfd', Hp', Hnw', Hsl, Hq'.
    split; [by apply (table_wf_ext _ (lp st)) |].
    split; [done |]. split; [done |].
    split; [by intros Hin%elem_of_nil |]. split.
    { intros _. destruct Hev as [[_ He] | [Hout He]]; [done |].
      rewrite He. by apply Hnq. }
    split; [done |]. split; [done |]. done.
Qed.

Lemma run_watcher_ops_tracked w ops : ∀ (st st' : @state X) b f,
  tracked (lp st) w b f → run_watcher_ops w st ops = Done st' →
  tracked (lp st') w (b || existsb starts ops) (f || existsb is_flush ops).
Proof.
  induction ops as [| op ops IH]; intros st st' b f Ht H; simpl in H.
  - injection H as <-. simpl. by rewrite !orb_false_r.
  - apply outcome_bind_Done in H as (s1 & H1 & H).
    simpl. rewrite !orb_assoc. eapply IH; [| exact H].
    by eapply apply_watcher_op_tracked.
Qed.

Lemma fresh_tracked loop w :
  table_wf loop → fresh loop w → tracked loop w false false.
Proof.
  intros Hwf (Hw & Hfd & Hp & He & Hq).
  split; [done |]. split; [done |]. split; [done |].
  split; [done |]. split; [intros _; by rewrite Hp, He |].
  split; [by rewrite Hp |]. split; [done |]. done.
Qed.

(** C5, as amended.  Take a freshly initialised watcher and any sequence
    of uv__io_start and uv__io_stop calls on it, with flushes of
    watcher_queue by uv__io_poll in between, that has started the watcher
    at least once.  After every call: (pevents == 0) iff
    (watchers[fd] == NULL); a watcher that is not on watcher_queue has
    pevents == events; a watcher that is on watcher_queue has
    pevents != 0.  The converse of the second, (pevents == events) implies
    not on watcher_queue, holds while events == 0, which is so as long as
    no flush has come between the calls; then both equivalences of the
    claim hold. *)
Theorem io_invariant_through_polls w (st st' : @state X) ops :
  table_wf (lp st) → fresh (lp st) w →
  existsb starts ops = true →
  run_watcher_ops w st ops = Done st' →
  (pevents (io (lp st') w) = 0 ↔
   slot (lp st') (fd (io (lp st') w)) = Some NULL) ∧
  (w ∉ watcher_queue (lp st') →
   pevents (io (lp st') w) = events (io (lp st') w)) ∧
  (w ∈ watcher_queue (lp st') → pevents (io (lp st') w) ≠ 0) ∧
  (events (io (lp st') w) = 0 → io_invariant (lp st') w) ∧
  (existsb is_flush ops = false → events (io (lp st') w) = 0).
Proof.
  intros Hwf Hfresh Hstart Hrun.
  pose proof (run_watcher_ops_tracked w ops st st' false false
                (fresh_tracked _ w Hwf Hfresh) Hrun) as Ht.
  rewrite Hstart in Ht. cbn [orb] in Ht.
  destruct Ht as (_ & Hw & Hfd & Hq & Hnq & Hp & Hs & Hf).
  destruct (Hs eq_refl) as [Hrange Hnull].
  assert (H1 : pevents (io (lp st') w) = 0 ↔
               slot (lp st') (fd (io (lp st') w)) = Some NULL).
  { split; [done |]. intros Hslot.
    destruct (decide (pevents (io (lp st') w) = 0)) as [| Hne]; [done |].
    destruct (Hp Hne) as (_ & v & Hv & Hvn). congruence. }
  split; [exact H1 |]. split; [exact Hnq |]. split; [exact Hq |].
  split; [| exact Hf].
  intros He. split; [exact H1 |]. split; [| exact Hnq].
  intros Heq Hin. apply (Hq Hin). by rewrite Heq.
Qed.

End WatcherOps.

Lemma io_invariant_through_polls_witness :
  ∃ st',
    run_watcher_ops 100 (@Build_state quiet () loop_w5 [])
      [Call (Start POLLIN); Flush; Call (Stop POLLOUT); Call (Start POLLOUT)]
    = Done st' ∧
    (pevents (io (lp st') 100) = 0 ↔
     slot (lp st') (fd (io (lp st') 100)) = Some NULL) ∧
    (100 ∉ watcher_queue (lp st') →
     pevents (io (lp st') 100) = events (io (lp st') 100)) ∧
    (100 ∈ watcher_queue (lp st') → pevents (io (lp st') 100) ≠ 0).
Proof.
  destruct (run_watcher_ops 100 (@Build_state quiet () loop_w5 [])
              [Call (Start POLLIN); Flush; Call (Stop POLLOUT);
               Call (Start POLLOUT)])
    as [st' | |] eqn:Hrun; [| vm_compute in Hrun; discriminate ..].
  exists st'. split; [reflexivity |].
  destruct (io_invariant_through_polls 100 (@Build_state quiet () loop_w5 []) st'
              [Call (Start POLLIN); Flush; Call (Stop POLLOUT);
               Call (Start POLLOUT)])
    as (H1 & H2 & H3 & _).
  - split; [cbn; lia | reflexivity].
  - unfold fresh, INT_MAX, NULL; cbn.
    split; [lia |]. split; [lia |]. split; [reflexivity |].
    split; [reflexivity |]. apply not_elem_of_nil.
  - reflexivity.
  - exact Hrun.
  - split; [exact H1 |]. split; [exact H2 | exact H3].
Defined.

(** C5, the claim as stated fails once a flush has come between the
    calls: start(POLLIN), flush, stop(POLLOUT) leaves pevents == events
    with the watcher on watcher_queue, while the first equivalence and
    the other two implications stand. *)
Lemma io_invariant_fails_through_flush :
  ∃ st',
    run_watcher_ops 100 (@Build_state quiet () loop_w5 [])
      [Call (Start POLLIN); Flush; Call (Stop POLLOUT)] = Done st' ∧
    pevents (io (lp st') 100) = POLLIN ∧ events (io (lp st') 100) = POLLIN ∧
    100 ∈ watcher_queue (lp st') ∧
    slot (lp st') 5 = Some 100 ∧
    ¬ io_invariant (lp st') 100.
Proof.
  assert (Hc : match run_watcher_ops 100 (@Build_state quiet () loop_w5 [])
                       [Call (Start POLLIN); Flush; Call (Stop POLLOUT)] with
               | Done s => Some (pevents (io (lp s) 100),
                                 events (io (lp s) 100),
                                 watcher_queue (lp s), slot (lp s) 5)
               | _ => None
               end = Some (POLLIN, POLLIN, [100], Some 100))
    by (vm_compute; reflexivity).
  destruct (run_watcher_ops 100 (@Build_state quiet () loop_w5 [])
              [Call (Start POLLIN); Flush; Call (Stop POLLOUT)])
    as [st' | |]; [| discriminate ..].
  injection Hc as Hp He Hq Hs. exists st'. split; [reflexivity |].
  split; [done |]. split; [done |].
  assert (Hin : 100 ∈ watcher_queue (lp st'))
    by (rewrite Hq; apply list_elem_of_here).
  split; [done |]. split; [done |].
  intros [_ [Hout _]]. apply Hout; [congruence | done].
Qed.

(** ** The list of closing handles through the closing phase *)

Lemma closing_chain_next l l' p hs :
  closing_chain l p hs →
  (∀ h, h ∈ hs →
        next_closing (handles l' h) = next_closing (handles l h)) →
  closing_chain l' p hs.
Proof.
  induction 1 as [| h hs Hh Hc IH]; intros Hext; [constructor |].
  constructor; [done |].
  rewrite (Hext h) by apply list_elem_of_here.
  apply IH. intros h' Hh'. apply Hext. by apply list_elem_of_further.
Qed.

Section ClosingList.

Context {X : externals} (P : program X).

Lemma extern_relisted f (st st' : @state X) hs :
  spares_closing f → pushes_closing f →
  extern f st = Done st' → relisted (lp st) hs → relisted (lp st') hs.
Proof.
  intros Hsp Hpush (s & Hs & ->)%extern_Done (Haw & new & Hch & Hnaw & Hdis).
  cbn [lp with_sys].
  assert (Hkeep : ∀ h, awaiting_close (lp st) h → awaiting_close s.2 h).
  { intros h Hh. unfold awaiting_close.
    by rewrite (Hsp _ _ h Hs Hh). }
  destruct (Hpush _ _ new Hs Hch Hnaw) as (more & Hch' & Hmore).
  split; [intros h Hh; by apply Hkeep, Haw |].
  exists (more ++ new). split; [exact Hch' |]. split.
  - intros h [Hh | Hh]%elem_of_app; [by apply Hmore | by apply Hkeep, Hnaw].
  - intros h [Hh | Hh]%elem_of_app; [| by apply Hdis].
    intros Hin. destruct (Hmore h Hh) as [_ Hnot]. by apply Hnot, Haw.
Qed.

Lemma relisted_ext l l' hs :
  closing_handles l' = closing_handles l →
  (∀ h, next_closing (handles l' h) = next_closing (handles l h)) →
  (∀ h, awaiting_close l h → awaiting_close l' h) →
  relisted l hs → relisted l' hs.
Proof.
  intros Hc Hn Ha (Haw & new & Hch & Hnaw & Hdis).
  split; [intros h Hh; by apply Ha, Haw |].
  exists new. rewrite Hc. split; [| split; [| done]].
  - apply (closing_chain_next l); [done |]. intros h _. apply Hn.
  - intros h Hh. by apply Ha, Hnaw.
Qed.

Lemma uv__finish_close_relisted (st st' : @state X) h hs :
  closing_discipline P → closing_list_discipline P →
  uv__finish_close P st h = Done st' →
  h ∉ hs → relisted (lp st) (h :: hs) → relisted (lp st') hs.
Proof.
  intros (Hsd & Hud & Hun & Hcb) (Hpd & Hpu & Hpn & Hpc) H Hnin Hrel.
  unfold uv__finish_close in H.
  apply outcome_bind_Done in H as ([] & _ & H).
  apply outcome_bind_Done in H as ([] & _ & H).
  set (la := write_handle (lp st) h
               (set_flags (handles (lp st) h)
                  (Z.lor (flags (handles (lp st) h)) UV_HANDLE_CLOSED))) in *.
  assert (Hla : relisted la hs).
  { destruct Hrel as (Haw & new & Hch & Hnaw & Hdis).
    assert (Hne : ∀ x, x ≠ h → handles la x = handles (lp st) x).
    { intros x Hx. by apply upd_ne. }
    split.
    - intros x Hx. unfold awaiting_close. rewrite Hne by (by intros ->).
      apply Haw. by apply list_elem_of_further.
    - exists new. split; [| split].
      + apply (closing_chain_ext (lp st)); [done |].
        intros x Hx. apply Hne. intros ->.
        apply (Hdis h Hx), list_elem_of_here.
      + intros x Hx. unfold awaiting_close. rewrite Hne; [by apply Hnaw |].
        intros ->. apply (Hdis h Hx), list_elem_of_here.
      + intros x Hx Hin. apply (Hdis x Hx). by apply list_elem_of_further. }
  clear Hrel.
  apply outcome_bind_Done in H as (sb & Hb & H).
  assert (Hsb : relisted (lp sb) hs).
  { change la with (lp (with_lp st la)) in Hla.
    destruct (type (handles (lp (with_lp st la)) h));
      try (by injection Hb as <-); try done.
    - by apply (extern_relisted _ _ _ _ (proj1 (Hsd h)) (Hpd h) Hb).
    - by apply (extern_relisted _ _ _ _ (proj1 (Hsd h)) (Hpd h) Hb).
    - by apply (extern_relisted _ _ _ _ (proj1 (Hsd h)) (Hpd h) Hb).
    - by apply (extern_relisted _ _ _ _ (proj1 (Hud h)) (Hpu h) Hb). }
  cbv zeta in H.
  set (sd := with_lp
               (with_lp sb (uv__handle_unref X h (lp sb)))
               (set_handle_queue (lp (with_lp sb (uv__handle_unref X h (lp sb))))
                  (QUEUE_REMOVE h
                     (handle_queue
                        (lp (with_lp sb (uv__handle_unref X h (lp sb)))))))) in *.
  assert (Hsd' : relisted (lp sd) hs).
  { unfold sd. cbn [lp with_lp].
    destruct (Hpn h (lp sb)) as [Hc Hn].
    apply (relisted_ext (lp sb)); [exact Hc | | | exact Hsb].
    - intros x. apply (Hn x).
    - intros x. apply (Hn x). }
  clearbody sd.
  destruct (close_cb (handles (lp sd) h) =? NULL).
  - by injection H as <-.
  - apply (extern_relisted _ (log sd _) _ _ (Hcb _ h) (Hpc _ h) H). exact Hsd'.
Qed.

Lemma closing_loop_relisted hs : ∀ fuel (st st' : @state X) p,
  closing_discipline P → closing_list_discipline P →
  closing_chain (lp st) p hs → relisted (lp st) hs →
  closing_loop P fuel st p = Done st' →
  relisted (lp st') [].
Proof.
  induction hs as [| h hs IH]; intros fuel st st' p Hd Hl Hch Hrel H.
  - inversion Hch; subst. destruct fuel; simpl in H; by injection H as <-.
  - pose proof (closing_chain_NoDup _ _ _ Hch) as Hnd.
    inversion Hch as [| h0 hs0 Hh Hc]; subst.
    inversion Hnd as [| ? ? Hnin Hnd']; subst.
    destruct fuel as [| fuel]; simpl in H.
    { destruct (h =? NULL) eqn:E; [lia | done]. }
    destruct (h =? NULL) eqn:E; [lia |].
    apply outcome_bind_Done in H as (st1 & Hfin & H).
    pose proof (proj1 Hrel) as Haw.
    destruct (uv__finish_close_spec P st st1 h Hd
                (Haw h (list_elem_of_here _ _)) Hfin) as [_ Hfr1].
    apply (IH fuel st1 st' (next_closing (handles (lp st) h)) Hd Hl);
      [| | exact H].
    + apply (closing_chain_ext (lp st)); [done |].
      intros x Hx. apply Hfr1; [by intros -> |].
      apply Haw. by apply list_elem_of_further.
    + by apply (uv__finish_close_relisted st st1 h hs).
Qed.

(** The calls of one closing phase. *)
Lemma uv__run_closing_handles_calls fuel (st : @state X) hs :
  closing_discipline P →
  closing_chain (lp st) (closing_handles (lp st)) hs →
  (∀ h, h ∈ hs → awaiting_close (lp st) h) →
  ((length hs < fuel)%nat → uv__run_closing_handles P fuel st ≠ OutOfFuel) ∧
  (∀ st', uv__run_closing_handles P fuel st = Done st' →
          tr st' = tr st ++ close_calls (lp st) hs).
Proof.
  intros Hd Hch Haw. unfold uv__run_closing_handles.
  set (s0 := with_lp st (set_closing_handles (lp st) NULL)).
  assert (Hch0 : closing_chain (lp s0) (closing_handles (lp st)) hs)
    by by apply (closing_chain_ext (lp st)).
  destruct (closing_loop_spec P hs fuel s0 (closing_handles (lp st)) Hd Hch0 Haw)
    as [Hf Hdone].
  split; [exact Hf |].
  intros st' Hst'. rewrite (Hdone st' Hst').
  by rewrite (close_calls_ext (lp st) (lp s0)).
Qed.

(** The list that one closing phase leaves behind. *)
Lemma uv__run_closing_handles_relists fuel (st st' : @state X) hs :
  closing_discipline P → closing_list_discipline P →
  closing_chain (lp st) (closing_handles (lp st)) hs →
  (∀ h, h ∈ hs → awaiting_close (lp st) h) →
  uv__run_closing_handles P fuel st = Done st' →
  ∃ hs', closing_chain (lp st') (closing_handles (lp st')) hs' ∧
         (∀ h, h ∈ hs' → awaiting_close (lp st') h).
Proof.
  intros Hd Hl Hch Haw. unfold uv__run_closing_handles.
  set (s0 := with_lp st (set_closing_handles (lp st) NULL)).
  intros Hst'.
  assert (Hch0 : closing_chain (lp s0) (closing_handles (lp st)) hs)
    by by apply (closing_chain_ext (lp st)).
  assert (Hrel0 : relisted (lp s0) hs).
  { split; [exact Haw |]. exists []. split; [constructor |].
    split; intros h Hh; by apply elem_of_nil in Hh. }
  destruct (closing_loop_relisted hs fuel s0 st' _ Hd Hl Hch0 Hrel0 Hst')
    as (_ & hs' & Hch' & Haw' & _).
  exists hs'. by split.
Qed.


End ClosingList.

(** uv_close on the kernel [scripted], whose close hooks do nothing. *)
Lemma uv_close_scripted s h c s' :
  uv_close scripted s h c = Some s' →
  uv__is_closing (handles s.2 h) = false ∧
  (∀ h', h' ≠ h → handles s'.2 h' = handles s.2 h') ∧
  ((type (handles s.2 h) = UV_SIGNAL ∧
    closing_handles s'.2 = closing_handles s.2) ∨
   (type (handles s.2 h) ≠ UV_SIGNAL ∧
    closing_handles s'.2 = h ∧ awaiting_close s'.2 h ∧
    next_closing (handles s'.2 h) = closing_handles s.2)).
Proof.
  intros H. pose proof H as H0. unfold uv_close in H.
  apply bind_Some in H as ([] & Hc%assert_Some & H).
  split; [by apply negb_true_iff in Hc |]. cbv zeta in H.
  set (l1 := write_handle s.2 h _) in H.
  set (l2 := write_handle l1 h _) in H.
  assert (Hty : type (handles l2 h) = type (handles s.2 h)).
  { unfold l2, l1, write_handle. cbn [handles set_handles]. by rewrite !upd_eq. }
  assert (Hne : ∀ h', h' ≠ h → handles l2 h' = handles s.2 h').
  { intros h' Hh'. unfold l2, l1, write_handle. cbn [handles set_handles].
    by rewrite !upd_ne. }
  rewrite Hty in H.
  assert (Hpend : ∀ l', uv__make_close_pending l2 h = Some l' →
            (∀ h', h' ≠ h → handles l' h' = handles s.2 h') ∧
            next_closing (handles l' h) = closing_handles s.2).
  { intros l' Hp. unfold uv__make_close_pending in Hp.
    apply bind_Some in Hp as ([] & _ & Hp).
    apply bind_Some in Hp as ([] & _ & [= <-]).
    unfold write_handle. cbn [handles set_handles set_closing_handles].
    split.
    - intros h' Hh'. rewrite upd_ne by done. by apply Hne.
    - by rewrite upd_eq. }
  destruct (type (handles s.2 h)) eqn:Et; try done;
    cbn [uv__close_hook scripted] in H; rewrite ?bind_Some_eq in H;
    first
      [ injection H as <-; split; [exact Hne |]; left; by split
      | apply bind_Some in H as (l' & Hp & [= <-]);
        destruct (Hpend l' Hp) as [Hne' Hnext];
        split; [exact Hne' |]; right;
        destruct (uv_close_enqueues scripted s h c _ H0) as [Hhead Haw];
          [by rewrite Et |];
        split; [done |]; split; [exact Hhead |]; split; [exact Haw |];
        exact Hnext ].
Qed.

Lemma awaiting_close_is_closing l h :
  awaiting_close l h → uv__is_closing (handles l h) = true.
Proof. intros [H _]. by apply has_flag_closing_is_closing. Qed.

Lemma closing_discipline_reclosing_program :
  closing_discipline reclosing_program.
Proof.
  assert (Hsp : spares_closing (X:=scripted) Some).
  { intros s s' h [= <-] _. reflexivity. }
  assert (Hk : keeps_close_cb (X:=scripted) Some).
  { intros s s' h [= <-]. reflexivity. }
  split; [intros h; by split |]. split; [intros h; by split |].
  split; [by intros h l h' |].
  intros c h s s' h0 H Haw. cbn [close_cb_code reclosing_program] in H.
  destruct (c =? 9); [| by injection H as <-].
  apply uv_close_scripted in H as (Hnc & Hne & _). apply Hne. intros ->.
  apply awaiting_close_is_closing in Haw. congruence.
Qed.

Lemma closing_list_discipline_reclosing_program :
  closing_list_discipline reclosing_program.
Proof.
  assert (Hid : pushes_closing (X:=scripted) Some).
  { intros s s' hs [= <-] Hch Haw. exists []. split; [done |].
    intros h Hh. by apply elem_of_nil in Hh. }
  split; [intros h; exact Hid |]. split; [intros h; exact Hid |].
  split; [by intros h l |].
  intros c h s s' hs H Hch Haw. cbn [close_cb_code reclosing_program] in H.
  destruct (c =? 9); [| by apply (Hid s s' hs)].
  apply uv_close_scripted in H as (Hnc & Hne & Hcase).
  assert (Hnin : 300 ∉ hs).
  { intros Hin. apply Haw, awaiting_close_is_closing in Hin. congruence. }
  assert (Hext : ∀ x, x ∈ hs → handles s'.2 x = handles s.2 x).
  { intros x Hx. apply Hne. by intros ->. }
  destruct Hcase as [[_ Hhead] | (_ & Hhead & Haw' & Hnext)].
  - exists []. rewrite Hhead. split; [by apply (closing_chain_ext s.2) |].
    intros x Hx. by apply elem_of_nil in Hx.
  - exists [300]. rewrite Hhead. split.
    + constructor; [done |]. rewrite Hnext.
      by apply (closing_chain_ext s.2).
    + intros x ->%list_elem_of_singleton. split; [exact Haw' |].
      intros Hold%awaiting_close_is_closing. congruence.
Qed.


(** The same two phases, call by call: the close callback of handle 200
    closes handle 300, whose own close callback comes in the next
    phase. *)
Example close_in_close_cb_is_deferred :
  match uv__run_closing_handles reclosing_program 2
          (@Build_state scripted [] loop_two []) with
  | Done st1 =>
      tr st1 = [CallClose 9 200] ∧ closing_handles (lp st1) = 300 ∧
      match uv__run_closing_handles reclosing_program 2 st1 with
      | Done st2 =>
          tr st2 = [CallClose 9 200; CallClose 10 300] ∧
          closing_handles (lp st2) = NULL
      | _ => False
      end
  | _ => False
  end.
Proof. vm_compute. repeat split. Qed.

(** ** The calls that a batch of ready events is answered with *)

Section Batch.

Context {X : externals} (P : program X).

Hypothesis Hkeep : keeps_watchers P.

Lemma dispatch_event_calls (st : @state X) i hs nev st' hs' nev' l0 :
  same_watchers l0 (lp st) (Z.to_nat i) → 0 ≤ i →
  dispatch_event P st i hs nev = Done (st', hs', nev') →
  ∃ pe, poll_events l0 !! Z.to_nat i = Some pe ∧
        tr st' = tr st ++ event_calls l0 (signal_io_watcher X) pe ∧
        hs' = hs || event_signals l0 (signal_io_watcher X) pe ∧
        same_watchers l0 (lp st') (S (Z.to_nat i)).
Proof.
  intros (Hw & Hn & Hio & Hev) Hi H. unfold dispatch_event in H.
  apply outcome_bind_Done in H as (pe & Hpe%of_option_Done & H).
  rewrite (Hev (Z.to_nat i)) in Hpe by lia.
  exists pe. split; [exact Hpe |].
  assert (Hnext : same_watchers l0 (lp st) (S (Z.to_nat i))).
  { split; [done |]. split; [done |]. split; [done |].
    intros j Hj. apply Hev. lia. }
  unfold event_calls, event_signals, ready_watcher.
  destruct (ev_fd pe =? -1).
  { injection H as <- <- <-. rewrite app_nil_r, orb_false_r. done. }
  apply outcome_bind_Done in H as ([] & _ & H).
  apply outcome_bind_Done in H as ([] & _ & H).
  apply outcome_bind_Done in H as (tbl & Htbl%of_option_Done & H).
  apply outcome_bind_Done in H as (w & Hld%of_option_Done & H).
  rewrite <- Hw, Htbl, bind_Some_eq, Hld, bind_Some_eq. cbv zeta.
  rewrite <- Hio.
  destruct (w =? NULL).
  { destruct (epoll_ctl X _ _ _ _ _) as [k e]. injection H as <- <- <-.
    rewrite app_nil_r, orb_false_r. done. }
  set (e := ready_mask (ev_events pe) (pevents (io (lp st) w))) in *.
  set (st1 := with_lp st _) in H.
  assert (Hst1 : same_watchers l0 (lp st1) (S (Z.to_nat i))).
  { unfold st1. cbn [lp with_lp]. split; [done |]. split; [done |].
    split; [done |]. intros j Hj.
    cbn [poll_events set_poll_events].
    rewrite list_lookup_insert_ne by lia. apply Hev. lia. }
  destruct (e =? 0).
  { injection H as <- <- <-. rewrite app_nil_r, orb_false_r. done. }
  destruct (w =? signal_io_watcher X).
  { injection H as <- <- <-. rewrite app_nil_r, orb_true_r. done. }
  apply outcome_bind_Done in H as (st2 & Hcall & H).
  injection H as <- <- <-. rewrite orb_false_r.
  pose proof (call_io_tr P _ _ _ _ Hcall) as Htr.
  unfold call_io in Hcall. apply extern_Done in Hcall as (s & Hs & ->).
  apply Hkeep in Hs as (Hw2 & Hn2 & Hio2 & Hev2).
  cbn [snd log lp] in Hw2, Hn2, Hio2, Hev2.
  split; [exact Htr |]. split; [done |].
  destruct Hst1 as (Hw1 & Hn1 & Hio1 & Hev1).
  cbn [lp with_sys].
  split; [by rewrite Hw2 |]. split; [by rewrite Hn2 |].
  split; [by rewrite Hio2 |]. intros j Hj. rewrite Hev2. by apply Hev1.
Qed.

Lemma dispatch_calls l0 : ∀ k i (st : @state X) hs nev st' hs' nev',
  same_watchers l0 (lp st) (Z.to_nat i) → 0 ≤ i →
  dispatch P k i st hs nev = Done (st', hs', nev') →
  tr st' = tr st ++ batch_calls l0 (signal_io_watcher X)
                      (take k (drop (Z.to_nat i) (poll_events l0))) ∧
  hs' = hs || batch_signals l0 (signal_io_watcher X)
                (take k (drop (Z.to_nat i) (poll_events l0))) ∧
  io (lp st') = io l0.
Proof.
  induction k as [| k IH]; intros i st hs nev st' hs' nev' Hsame Hi H;
    simpl in H.
  - injection H as <- <- <-. rewrite take_0. simpl.
    rewrite app_nil_r, orb_false_r. split; [done |]. split; [done |].
    apply Hsame.
  - apply outcome_bind_Done in H as ([[st1 hs1] nev1] & H1 & H).
    destruct (dispatch_event_calls _ _ _ _ _ _ _ l0 Hsame Hi H1)
      as (pe & Hpe & Htr1 & Hhs1 & Hsame1).
    replace (S (Z.to_nat i)) with (Z.to_nat (i + 1)) in Hsame1 by lia.
    destruct (IH (i + 1) st1 hs1 nev1 st' hs' nev' Hsame1 ltac:(lia) H)
      as (Htr & Hhs & Hio).
    rewrite (drop_S _ pe _ Hpe). cbn [take].
    replace (Z.to_nat (i + 1)) with (S (Z.to_nat i)) in Htr, Hhs by lia.
    unfold batch_calls, batch_signals in *. cbn [flat_map existsb].
    split; [by rewrite Htr, Htr1, <- app_assoc |].
    split; [by rewrite Hhs, Hhs1, orb_assoc | exact Hio].
Qed.


End Batch.

Lemma keeps_watchers_stopping_program : keeps_watchers stopping_program.
Proof. by intros c w ev s s' [= <-]. Qed.

